(** * Temporal Fusion Transformer: a shallow embedding of [tft_model.py]

    The development follows the layout of the Python module: the exceptions
    and the tensor operations of the runtime the module calls, the layers of
    [torch.nn] it instantiates, then the functions and classes of the module
    itself in source order, and finally the properties of the specification.

    Tensors are logical arrays: a shape and the elements in row-major order.
    Memory layout (strides, contiguity) is not represented, so
    [contiguous] is the identity and [view] reinterprets the row-major
    sequence, which is what it does on the contiguous tensors the module
    builds.  Floating-point numbers are idealised: the scalar type is a
    parameter carrying exact arithmetic, instantiated with the rationals to
    run examples and with the reals where [exp] and [sqrt] are needed.
    Layers are taken in inference mode: dropout is the identity and batch
    normalisation uses its running statistics. *)

From Stdlib Require Import List ZArith Arith Bool Lia QArith Qround Reals Lra.
Import ListNotations.

Close Scope R_scope.
Close Scope Q_scope.
Set Implicit Arguments.

(* ================================================================== *)
(** * Python exceptions and the error monad *)
(* ================================================================== *)

Module Py.

Inductive exn : Type :=
| ValueError
| TypeError
| IndexError
| RuntimeError
| AttributeError.

Inductive result (X : Type) : Type :=
| Ok (x : X)
| Raise (e : exn).

Arguments Ok {X} x.
Arguments Raise {X} e.

Definition bind {X Y : Type} (c : result X) (k : X -> result Y) : result Y :=
  match c with
  | Ok x => k x
  | Raise e => Raise e
  end.

(** [for i in range(n): acc.append(body i)], stopping at the first
    exception. *)
Fixpoint for_each {X Y : Type} (body : X -> result Y) (l : list X)
  : result (list Y) :=
  match l with
  | [] => Ok []
  | x :: l' =>
      bind (body x) (fun y =>
      bind (for_each body l') (fun ys => Ok (y :: ys)))
  end.

(** [l[i]] on a Python list, for a non-negative [i]. *)
Definition list_item {X : Type} (l : list X) (i : nat) : result X :=
  match nth_error l i with
  | Some x => Ok x
  | None => Raise IndexError
  end.

End Py.

Import Py.

Declare Scope py_scope.
Delimit Scope py_scope with py.
Notation "x <- c ;; k" := (bind c (fun x => k))
  (at level 61, c at next level, right associativity) : py_scope.
Notation "' p <- c ;; k" := (bind c (fun x => let p := x in k))
  (at level 61, p pattern, c at next level, right associativity) : py_scope.
Open Scope py_scope.

(** Values used when an index falls outside a list; every lookup below is
    guarded by a bounds check, so they are never observed on well-formed
    tensors. *)
Class Inhabitant (X : Type) : Type := inhabitant : X.

#[export] Instance Inhabitant_bool : Inhabitant bool := false.
#[export] Instance Inhabitant_Z : Inhabitant Z := 0%Z.
#[export] Instance Inhabitant_nat : Inhabitant nat := 0.

(* ================================================================== *)
(** * Tensors *)
(* ================================================================== *)

Module Torch.

Record Tensor (X : Type) : Type := mkTensor {
  shape : list nat;
  data : list X
}.

Arguments mkTensor {X} shape data.

Definition numel (s : list nat) : nat := fold_right Nat.mul 1 s.

(** A tensor is well formed when it holds as many elements as its shape
    announces. *)
Definition wf {X : Type} (t : Tensor X) : Prop :=
  length (data t) = numel (shape t).

Definition dim {X : Type} (t : Tensor X) : nat := length (shape t).

(** ** Row-major indexing *)

Fixpoint unravel (s : list nat) (k : nat) : list nat :=
  match s with
  | [] => []
  | _ :: s' => (k / numel s') :: unravel s' (k mod numel s')
  end.

Fixpoint ravel (s idx : list nat) : nat :=
  match s, idx with
  | _ :: s', i :: idx' => i * numel s' + ravel s' idx'
  | _, _ => 0
  end.

Fixpoint in_bounds (s idx : list nat) : bool :=
  match s, idx with
  | [], [] => true
  | d :: s', i :: idx' => (i <? d) && in_bounds s' idx'
  | _, _ => false
  end.

Definition get {X : Type} `{Inhabitant X} (t : Tensor X) (idx : list nat) : X :=
  nth (ravel (shape t) idx) (data t) inhabitant.

Definition tabulate {X : Type} (s : list nat) (f : list nat -> X) : Tensor X :=
  mkTensor s (map (fun k => f (unravel s k)) (seq 0 (numel s))).

Definition tmap {X Y : Type} (f : X -> Y) (t : Tensor X) : Tensor Y :=
  mkTensor (shape t) (map f (data t)).

Definition full {X : Type} (s : list nat) (v : X) : Tensor X :=
  mkTensor s (repeat v (numel s)).

(** ** [Tensor.size(i)], with Python's negative indices *)

Definition normalize_index (i : Z) (n : nat) : result nat :=
  let j := if (i <? 0)%Z then (i + Z.of_nat n)%Z else i in
  if ((0 <=? j) && (j <? Z.of_nat n))%Z then Ok (Z.to_nat j)
  else Raise IndexError.

Definition size {X : Type} (t : Tensor X) (i : Z) : result nat :=
  j <- normalize_index i (dim t) ;;
  Ok (nth j (shape t) 0).

(** ** [Tensor.contiguous()] and [Tensor.view(...)] *)

(** A tensor is its logical array: strides are not represented.
    [contiguous] is therefore the identity, and [view] accepts every tensor
    with the right number of elements, where PyTorch also rejects a tensor
    whose strides do not fit the new shape.  The module calls [view] on the
    result of [contiguous], on a column [x[:, :, i]], on a slice along the
    first axis and on the results of [torch.cat] and of the layers of
    [torch.nn] it builds, which PyTorch accepts; the statements below are
    about these calls and not about a wrapped module that returns a
    transposed tensor. *)
Definition contiguous {X : Type} (t : Tensor X) : Tensor X := t.

(** Shape inference of [view]: every requested size is at least [-1], at
    most one is [-1], and the product of the others must divide the number
    of elements.  When that product is zero the inferred size is ambiguous
    and the call is rejected. *)
Definition infer_size (spec : list Z) (n : nat) : result (list nat) :=
  if existsb (fun d => (d <? -1)%Z) spec then Raise RuntimeError
  else
    let newsize :=
      numel (map Z.to_nat (filter (fun d => negb (d =? -1)%Z) spec)) in
    match count_occ Z.eq_dec spec (-1)%Z with
    | 0 => if n =? newsize then Ok (map Z.to_nat spec)
           else Raise RuntimeError
    | 1 => if (0 <? newsize) && (n mod newsize =? 0)
           then Ok (map (fun d => if (d =? -1)%Z then n / newsize
                                  else Z.to_nat d) spec)
           else Raise RuntimeError
    | _ => Raise RuntimeError
    end.

Definition view {X : Type} (t : Tensor X) (spec : list Z) : result (Tensor X) :=
  s <- infer_size spec (numel (shape t)) ;;
  Ok (mkTensor s (data t)).

(** ** Indexing: [t[:, 0, i]], [t[:, :n, :]], [t[n:, :, :]] *)

Inductive index : Type :=
| Full                (* [:]   *)
| At (i : Z)          (* [i]   *)
| UpTo (hi : Z)       (* [:hi] *)
| From (lo : Z).      (* [lo:] *)

(** What one index keeps of an axis of length [d]: the first position,
    the number of positions, and whether the axis survives. *)
Record axis_sel : Type := mkSel {
  sel_start : nat;
  sel_count : nat;
  sel_keep : bool
}.

(** Python clamps the bounds of a slice into [0, d]. *)
Definition clamp_slice (i : Z) (d : nat) : nat :=
  let j := if (i <? 0)%Z then (i + Z.of_nat d)%Z else i in
  Z.to_nat (Z.min (Z.max j 0) (Z.of_nat d)).

Definition select_axis (ix : index) (d : nat) : result axis_sel :=
  match ix with
  | Full => Ok (mkSel 0 d true)
  | At i => j <- normalize_index i d ;; Ok (mkSel j 1 false)
  | UpTo hi => Ok (mkSel 0 (clamp_slice hi d) true)
  | From lo => let l := clamp_slice lo d in Ok (mkSel l (d - l) true)
  end.

(** Axes without an index are kept whole; more indices than axes is an
    error. *)
Fixpoint select_axes (ixs : list index) (s : list nat) : result (list axis_sel) :=
  match ixs, s with
  | [], _ => Ok (map (fun d => mkSel 0 d true) s)
  | _ :: _, [] => Raise IndexError
  | ix :: ixs', d :: s' =>
      a <- select_axis ix d ;;
      rest <- select_axes ixs' s' ;;
      Ok (a :: rest)
  end.

Definition selected_shape (sels : list axis_sel) : list nat :=
  map sel_count (filter sel_keep sels).

Fixpoint source_index (sels : list axis_sel) (idx : list nat) : list nat :=
  match sels with
  | [] => []
  | a :: sels' =>
      if sel_keep a then
        match idx with
        | i :: idx' => (sel_start a + i) :: source_index sels' idx'
        | [] => sel_start a :: source_index sels' []
        end
      else sel_start a :: source_index sels' idx
  end.

Definition getitem {X : Type} `{Inhabitant X} (t : Tensor X) (ixs : list index)
  : result (Tensor X) :=
  sels <- select_axes ixs (shape t) ;;
  Ok (tabulate (selected_shape sels) (fun idx => get t (source_index sels idx))).

(** ** [torch.cat(tensors, dim)] *)

(** An empty list is rejected.  The class of the exception depends on the
    release of PyTorch, [RuntimeError] in some and [ValueError] in others;
    [cat] takes the first, and the statements about an empty list say that
    the call does not return, not which exception it raises. *)

Fixpoint replace_nth (l : list nat) (n v : nat) : list nat :=
  match l, n with
  | [], _ => []
  | _ :: l', 0 => v :: l'
  | x :: l', S n' => x :: replace_nth l' n' v
  end.

Definition list_eqb (l1 l2 : list nat) : bool :=
  if list_eq_dec Nat.eq_dec l1 l2 then true else false.

Definition cat_compatible {X : Type} (d : nat) (t0 t : Tensor X) : bool :=
  list_eqb (replace_nth (shape t) d 0) (replace_nth (shape t0) d 0).

Fixpoint cat_get {X : Type} `{Inhabitant X} (ts : list (Tensor X)) (d : nat)
    (idx : list nat) : X :=
  match ts with
  | [] => inhabitant
  | t :: ts' =>
      let n := nth d (shape t) 0 in
      let i := nth d idx 0 in
      if i <? n then get t idx
      else cat_get ts' d (replace_nth idx d (i - n))
  end.

Definition cat {X : Type} `{Inhabitant X} (ts : list (Tensor X)) (d : nat)
  : result (Tensor X) :=
  match ts with
  | [] => Raise RuntimeError
  | t0 :: _ =>
      if d <? dim t0 then
        if forallb (cat_compatible d t0) ts then
          let total := fold_right (fun t acc => nth d (shape t) 0 + acc) 0 ts in
          Ok (tabulate (replace_nth (shape t0) d total) (cat_get ts d))
        else Raise RuntimeError
      else Raise IndexError
  end.

(** ** Broadcasting binary operations *)

(** Shapes are aligned on the right; two sizes are compatible when they
    are equal or one of them is 1. *)
Fixpoint broadcast_rev (r1 r2 : list nat) : result (list nat) :=
  match r1, r2 with
  | [], r | r, [] => Ok r
  | d1 :: r1', d2 :: r2' =>
      rest <- broadcast_rev r1' r2' ;;
      if d1 =? d2 then Ok (d1 :: rest)
      else if d1 =? 1 then Ok (d2 :: rest)
      else if d2 =? 1 then Ok (d1 :: rest)
      else Raise RuntimeError
  end.

Definition broadcast_shapes (s1 s2 : list nat) : result (list nat) :=
  r <- broadcast_rev (rev s1) (rev s2) ;;
  Ok (rev r).

(** The index in an operand of shape [s] that feeds position [idx] of the
    broadcast result: leading axes are dropped, axes of size 1 are read at
    position 0. *)
Definition broadcast_index (s idx : list nat) : list nat :=
  map (fun p => if fst p =? 1 then 0 else snd p)
      (combine s (skipn (length idx - length s) idx)).

Definition broadcast2 {X Y W : Type} `{Inhabitant X} `{Inhabitant Y}
    (f : X -> Y -> W) (a : Tensor X) (b : Tensor Y) : result (Tensor W) :=
  s <- broadcast_shapes (shape a) (shape b) ;;
  Ok (tabulate s (fun idx =>
        f (get a (broadcast_index (shape a) idx))
          (get b (broadcast_index (shape b) idx)))).

(** [Tensor.masked_fill(mask, value)]: the mask is broadcast to the shape
    of the tensor. *)
Definition masked_fill {X : Type} `{Inhabitant X} (t : Tensor X)
    (mask : Tensor bool) (value : X) : result (Tensor X) :=
  r <- broadcast2 (fun v (m : bool) => if m then value else v) t mask ;;
  if list_eqb (shape r) (shape t) then Ok r else Raise RuntimeError.

(** [Tensor.transpose(0, 1)]: the first two axes are exchanged. *)
Definition swap01 {X : Type} (l : list X) : list X :=
  match l with
  | a :: b :: rest => b :: a :: rest
  | _ => l
  end.

Definition transpose01 {X : Type} `{Inhabitant X} (t : Tensor X) : result (Tensor X) :=
  if 2 <=? dim t then
    Ok (tabulate (swap01 (shape t)) (fun idx => get t (swap01 idx)))
  else Raise IndexError.

(** [torch.sum(t, axis=-1)]. *)
Definition sum_last {X : Type} `{Inhabitant X} (zero : X) (add : X -> X -> X)
    (t : Tensor X) : result (Tensor X) :=
  match rev (shape t) with
  | [] => Ok t
  | n :: r =>
      let s := rev r in
      Ok (tabulate s (fun idx =>
            fold_left add (map (fun j => get t (idx ++ [j])) (seq 0 n)) zero))
  end.

End Torch.

Import Torch.

(* ================================================================== *)
(** * Scalars *)
(* ================================================================== *)

(** The arithmetic the module performs on tensor elements and on Python
    floats.  [ftrunc] is the conversion to an integer done by [.long()],
    which rounds toward zero. *)
Class Scalar (A : Type) : Type := {
  fzero : A;
  fone : A;
  fadd : A -> A -> A;
  fsub : A -> A -> A;
  fmul : A -> A -> A;
  fneg : A -> A;
  fltb : A -> A -> bool;
  feqb : A -> A -> bool;
  ftrunc : A -> Z
}.

(** Division and the two transcendental functions used by the activation
    and normalisation layers. *)
Class Analytic (A : Type) {S : Scalar A} : Type := {
  fdiv : A -> A -> A;
  fexp : A -> A;
  fsqrt : A -> A
}.

Arguments Analytic A {S}.

#[export] Instance Inhabitant_Scalar {A : Type} `{Scalar A} : Inhabitant A :=
  (fzero : A).

(** A float that may also be [float('-inf')]: the value the attention mask
    is filled with. *)
Inductive extended (A : Type) : Type :=
| NegInf
| Finite (a : A).

Arguments NegInf {A}.
Arguments Finite {A} a.

#[export] Instance Inhabitant_extended {A : Type} `{Scalar A}
  : Inhabitant (extended A) := (Finite fzero : extended A).

#[export] Instance Scalar_Q : Scalar Q := {
  fzero := 0%Q;
  fone := 1%Q;
  fadd := Qplus;
  fsub := Qminus;
  fmul := Qmult;
  fneg := Qopp;
  fltb := fun x y => negb (Qle_bool y x);
  feqb := Qeq_bool;
  ftrunc := fun x => Z.quot (Qnum x) (Zpos (Qden x))
}.

Definition Rtrunc (x : R) : Z :=
  if Rlt_dec x 0 then (- Int_part (- x))%Z else Int_part x.

#[export] Instance Scalar_R : Scalar R := {
  fzero := 0%R;
  fone := 1%R;
  fadd := Rplus;
  fsub := Rminus;
  fmul := Rmult;
  fneg := Ropp;
  fltb := fun x y => if Rlt_dec x y then true else false;
  feqb := fun x y => if Req_dec_T x y then true else false;
  ftrunc := Rtrunc
}.

#[export] Instance Analytic_R : Analytic R := {
  fdiv := Rdiv;
  fexp := exp;
  fsqrt := sqrt
}.

(* ================================================================== *)
(** * Layers of [torch.nn] *)
(* ================================================================== *)

(** [nn.Module.__call__]: a layer applied to a tensor. *)
Class NNModule (M X Y : Type) : Type :=
  call : M -> Tensor X -> result (Tensor Y).

Module Identity.
Inductive t : Type := mk.
Definition forward {X : Type} (self : t) (x : Tensor X) : result (Tensor X) :=
  Ok x.
End Identity.

#[export] Instance NNModule_Identity {X : Type} : NNModule Identity.t X X :=
  Identity.forward.

Module Linear.
Section WithScalar.
Context {A : Type} {S : Scalar A}.

(** [weight] has shape [out_features x in_features], [bias] has shape
    [out_features]. *)
Record t : Type := mk {
  in_features : nat;
  out_features : nat;
  weight : Tensor A;
  bias : Tensor A
}.

Definition dot (self : t) (x : Tensor A) (pre : list nat) (o : nat) : A :=
  fold_left fadd
    (map (fun k => fmul (get x (pre ++ [k])) (get (weight self) [o; k]))
         (seq 0 (in_features self)))
    fzero.

(** [y = x W^T + b] over the last axis. *)
Definition entry (self : t) (x : Tensor A) (idx : list nat) : A :=
  let o := last idx 0 in
  fadd (dot self x (removelast idx) o) (get (bias self) [o]).

Definition forward (self : t) (x : Tensor A) : result (Tensor A) :=
  match rev (shape x) with
  | [] => Raise RuntimeError
  | n :: r =>
      if n =? in_features self then
        Ok (tabulate (rev r ++ [out_features self]) (entry self x))
      else Raise RuntimeError
  end.
End WithScalar.
Arguments t A : clear implicits.
End Linear.

#[export] Instance NNModule_Linear {A : Type} `{Scalar A}
  : NNModule (Linear.t A) A A := Linear.forward.

Module Embedding.
Section WithScalar.
Context {A : Type} {S : Scalar A}.

(** [weight] has shape [num_embeddings x embedding_dim]. *)
Record t : Type := mk {
  num_embeddings : nat;
  embedding_dim : nat;
  weight : Tensor A
}.

Definition valid_code (self : t) (z : Z) : bool :=
  ((0 <=? z) && (z <? Z.of_nat (num_embeddings self)))%Z.

(** The result has the shape of the index tensor followed by
    [embedding_dim]; a code outside the table is an [IndexError]. *)
Definition forward (self : t) (x : Tensor Z) : result (Tensor A) :=
  if forallb (valid_code self) (data x) then
    Ok (tabulate (shape x ++ [embedding_dim self]) (fun idx =>
          get (weight self)
              [Z.to_nat (get x (removelast idx)); last idx 0]))
  else Raise IndexError.
End WithScalar.
Arguments t A : clear implicits.
End Embedding.

#[export] Instance NNModule_Embedding {A : Type} `{Scalar A}
  : NNModule (Embedding.t A) Z A := Embedding.forward.

Module ELU.
Section WithScalar.
Context {A : Type} {S : Scalar A} {An : Analytic A}.

Record t : Type := mk { alpha : A }.

(** [nn.ELU()] has [alpha = 1]. *)
Definition default : t := mk fone.

Definition elu (self : t) (x : A) : A :=
  if fltb fzero x then x else fmul (alpha self) (fsub (fexp x) fone).

Definition forward (self : t) (x : Tensor A) : Tensor A :=
  tmap (elu self) x.
End WithScalar.
Arguments t A : clear implicits.
End ELU.

Module Sigmoid.
Section WithScalar.
Context {A : Type} {S : Scalar A} {An : Analytic A}.

Definition sigmoid (x : A) : A :=
  fdiv fone (fadd fone (fexp (fneg x))).

Definition forward (x : Tensor A) : Tensor A := tmap sigmoid x.
End WithScalar.
End Sigmoid.

Module Dropout.
Section WithScalar.
Context {A : Type}.

Record t : Type := mk { p : A }.

(** Inference mode: the identity. *)
Definition forward (self : t) (x : Tensor A) : Tensor A := x.
End WithScalar.
Arguments t A : clear implicits.
End Dropout.

Module BatchNorm1d.
Section WithScalar.
Context {A : Type} {S : Scalar A} {An : Analytic A}.

Record t : Type := mk {
  num_features : nat;
  weight : Tensor A;
  bias : Tensor A;
  running_mean : Tensor A;
  running_var : Tensor A;
  eps : A
}.

Definition normalize (self : t) (c : nat) (v : A) : A :=
  fadd (fmul (fdiv (fsub v (get (running_mean self) [c]))
                    (fsqrt (fadd (get (running_var self) [c]) (eps self))))
             (get (weight self) [c]))
       (get (bias self) [c]).

(** Inference mode on a [(N, C)] or [(N, C, L)] input: every element is
    normalised with the running statistics of its channel, axis 1. *)
Definition forward (self : t) (x : Tensor A) : result (Tensor A) :=
  if (dim x =? 2) || (dim x =? 3) then
    if nth 1 (shape x) 0 =? num_features self then
      Ok (tabulate (shape x) (fun idx =>
            normalize self (nth 1 idx 0) (get x idx)))
    else Raise RuntimeError
  else Raise ValueError.
End WithScalar.
Arguments t A : clear implicits.
End BatchNorm1d.

#[export] Instance NNModule_BatchNorm1d {A : Type} `{Analytic A}
  : NNModule (BatchNorm1d.t A) A A := BatchNorm1d.forward.

(** The recurrent layer and the attention layer are primitives of the
    runtime: the module only builds them and calls them.  An instance of
    [Runtime] supplies their learnable state and their forward functions;
    [LSTM.t] and [MultiheadAttention.t] record the constructor arguments
    next to that state, whose types are [LW] and [AW]. *)
Module LSTM.
Record t (A W : Type) : Type := mk {
  input_size : nat;
  hidden_size : nat;
  num_layers : nat;
  dropout : A;
  weights : W
}.
End LSTM.

Module MultiheadAttention.
Record t (W : Type) : Type := mk {
  embed_dim : nat;
  num_heads : nat;
  weights : W
}.
End MultiheadAttention.

Class Runtime (A LW AW : Type) : Type := {
  (** [output, (h_n, c_n) = lstm(input, (h_0, c_0))] *)
  lstm_forward :
    LSTM.t A LW -> Tensor A -> Tensor A * Tensor A ->
    result (Tensor A * (Tensor A * Tensor A));
  (** [attn_output, attn_output_weights =
        attn(query, key, value, attn_mask=mask)] *)
  attention_forward :
    MultiheadAttention.t AW ->
    Tensor A -> Tensor A -> Tensor A -> Tensor (extended A) ->
    result (Tensor A * Tensor A)
}.

(* ================================================================== *)
(** * Arithmetic on tensors *)
(* ================================================================== *)

Section TensorArith.
Context {A : Type} `{Scalar A}.

Definition tadd (a b : Tensor A) : result (Tensor A) := broadcast2 fadd a b.
Definition tsub (a b : Tensor A) : result (Tensor A) := broadcast2 fsub a b.
Definition tmul (a b : Tensor A) : result (Tensor A) := broadcast2 fmul a b.
Definition tneg (a : Tensor A) : Tensor A := tmap fneg a.

(** A Python float times a tensor. *)
Definition scale (c : A) (a : Tensor A) : Tensor A := tmap (fmul c) a.

Definition zeros (s : list nat) : Tensor A := full s fzero.
Definition ones (s : list nat) : Tensor A := full s fone.

(** [Tensor.long()] and [Tensor.float()]. *)
Definition long (a : Tensor A) : Tensor Z := tmap ftrunc a.
Definition float (a : Tensor A) : Tensor A := a.
Definition bool_to_float (m : Tensor bool) : Tensor A :=
  tmap (fun b : bool => if b then fone else fzero) m.

(** [t == 1] on a float tensor and [m == z] on a boolean tensor. *)
Definition eq_one (a : Tensor A) : Tensor bool :=
  tmap (fun v => feqb v fone) a.
Definition bool_eq_int (m : Tensor bool) (z : Z) : Tensor bool :=
  tmap (fun b : bool => (Z.b2z b =? z)%Z) m.

(** [torch.triu(t)]: the entries below the diagonal of the last two axes
    become zero. *)
Definition triu (a : Tensor A) : result (Tensor A) :=
  if 2 <=? dim a then
    Ok (tabulate (shape a) (fun idx =>
          let i := nth (length idx - 2) idx 0 in
          let j := nth (length idx - 1) idx 0 in
          if i <=? j then get a idx else fzero))
  else Raise RuntimeError.

(** The second argument of [torch.max(input, ...)].  [torch.max(input,
    other)] takes a tensor and is the element-wise maximum;
    [torch.max(input, dim)] takes an integer.  A Python float matches
    neither signature and the call raises [TypeError]. *)
Inductive max_arg : Type :=
| MaxTensor (other : Tensor A)
| MaxFloat (v : A).

Definition fmax (a b : A) : A := if fltb a b then b else a.

Definition torch_max (input : Tensor A) (arg : max_arg) : result (Tensor A) :=
  match arg with
  | MaxTensor other => broadcast2 fmax input other
  | MaxFloat _ => Raise TypeError
  end.

End TensorArith.

(* ================================================================== *)
(** * [tft_model.py] *)
(* ================================================================== *)

(** ** Loss functions *)

Section QuantileLoss.
Context {A : Type} `{Scalar A}.

Definition pytorch_quantile_loss (y y_pred : Tensor A) (quantile : A)
  : result (Tensor A) :=
  if fltb quantile fzero || fltb fone quantile then Raise ValueError
  else
    prediction_underflow <- tsub y y_pred ;;
    over <- torch_max prediction_underflow (MaxFloat fzero) ;;
    under <- torch_max (tneg prediction_underflow) (MaxFloat fzero) ;;
    q_loss <- tadd (scale quantile over) (scale (fsub fone quantile) under) ;;
    sum_last fzero fadd q_loss.

End QuantileLoss.

(** ** [class TimeDistributed] *)

Module TimeDistributed.

Record t (M : Type) : Type := mk {
  module : M;
  batch_first : bool
}.

(** [TimeDistributed(module)]: [batch_first] defaults to [False]. *)
Definition init {M : Type} (m : M) : t M := mk m false.

Definition forward {M X Y : Type} `{NNModule M X Y} (self : t M) (x : Tensor X)
  : result (Tensor Y) :=
  if dim x <=? 2 then call (module self) x
  else
    n <- size x (-1) ;;
    x_reshape <- view (contiguous x) [(-1)%Z; Z.of_nat n] ;;
    y <- call (module self) x_reshape ;;
    if batch_first self then
      n0 <- size x 0 ;;
      m <- size y (-1) ;;
      view (contiguous y) [Z.of_nat n0; (-1)%Z; Z.of_nat m]
    else
      n1 <- size x 1 ;;
      m <- size y (-1) ;;
      view y [(-1)%Z; Z.of_nat n1; Z.of_nat m].

End TimeDistributed.

#[export] Instance NNModule_TimeDistributed {M X Y : Type} `{NNModule M X Y}
  : NNModule (TimeDistributed.t M) X Y := TimeDistributed.forward.

(** ** [class GLU] *)

Module GLU.
Section WithScalar.
Context {A : Type} {S : Scalar A} {An : Analytic A}.

Record t : Type := mk {
  fc1 : Linear.t A;
  fc2 : Linear.t A
}.

Definition forward (self : t) (x : Tensor A) : result (Tensor A) :=
  pre <- call (fc1 self) x ;;
  let sig := Sigmoid.forward pre in
  x <- call (fc2 self) x ;;
  tmul sig x.
End WithScalar.
Arguments t A : clear implicits.
End GLU.

#[export] Instance NNModule_GLU {A : Type} `{Analytic A}
  : NNModule (GLU.t A) A A := GLU.forward.

(** ** [class GatedResidualNetwork] *)

Module GatedResidualNetwork.
Section WithScalar.
Context {A : Type} {S : Scalar A} {An : Analytic A}.

(** [context] exists only when [hidden_context_size] was given. *)
Record t : Type := mk {
  input_size : nat;
  output_size : nat;
  hidden_context_size : option nat;
  fc1 : TimeDistributed.t (Linear.t A);
  elu1 : ELU.t A;
  context : option (TimeDistributed.t (Linear.t A));
  fc2 : TimeDistributed.t (Linear.t A);
  elu2 : ELU.t A;
  dropout : Dropout.t A;
  bn : TimeDistributed.t (BatchNorm1d.t A);
  gate : TimeDistributed.t (GLU.t A)
}.

Definition forward (self : t) (x : Tensor A) (context_arg : option (Tensor A))
  : result (Tensor A) :=
  let residual := x in
  x <- call (fc1 self) x ;;
  x <- match context_arg with
       | None => Ok x
       | Some c =>
           match context self with
           | None => Raise AttributeError
           | Some layer =>
               c <- call layer c ;;
               tadd x c
           end
       end ;;
  let x := ELU.forward (elu1 self) x in
  x <- call (fc2 self) x ;;
  let x := Dropout.forward (dropout self) x in
  x <- call (gate self) x ;;
  x <- tadd x residual ;;
  call (bn self) x.
End WithScalar.
Arguments t A : clear implicits.
End GatedResidualNetwork.

(** Called without a context, as [TimeDistributed] does with the module it
    wraps. *)
#[export] Instance NNModule_GatedResidualNetwork {A : Type} `{Analytic A}
  : NNModule (GatedResidualNetwork.t A) A A :=
  fun self x => GatedResidualNetwork.forward self x None.

(** ** [class TFT] *)

Module TFT.
Section WithRuntime.
Context {A : Type} {S : Scalar A} {An : Analytic A}.
Context {LW AW : Type} {RT : Runtime A LW AW}.

(** The [config] dictionary read by [__init__]. *)
Record config : Type := mkConfig {
  cfg_batch_size : nat;
  cfg_static_variables : nat;
  cfg_encode_length : nat;
  cfg_time_varying_categoical_variables : nat;
  cfg_time_varying_real_variables : nat;
  cfg_lstm_hidden_dimension : nat;
  cfg_lstm_layers : nat;
  cfg_dropout : A;
  cfg_attn_heads : nat;
  cfg_embedding_dim : nat;
  cfg_static_embedding_vocab_sizes : list nat;
  cfg_time_varying_embedding_vocab_sizes : list nat
}.

(** The attributes set by [__init__].  [device] is not represented:
    [.to(device)] does not change a logical tensor. *)
Record t : Type := mk {
  batch_size : nat;
  static_variables : nat;
  encode_length : nat;
  time_varying_categoical_variables : nat;
  time_varying_real_variables : nat;
  hidden_size : nat;
  lstm_layers : nat;
  dropout : A;
  attn_heads : nat;
  static_embedding_layers : list (Embedding.t A);
  time_varying_embedding_layers : list (TimeDistributed.t (Embedding.t A));
  time_varying_linear_layers : list (TimeDistributed.t (Linear.t A));
  lstm_input_size : nat;
  lstm_encoder : LSTM.t A LW;
  lstm_decoder : LSTM.t A LW;
  static_enrichment : GatedResidualNetwork.t A;
  pos_wise_ff : TimeDistributed.t (GatedResidualNetwork.t A);
  multihead_attn : MultiheadAttention.t AW;
  output_layer : TimeDistributed.t (Linear.t A)
}.

(** The input dictionary [x] of [forward]. *)
Record batch : Type := mkBatch {
  identifier : Tensor A;
  inputs : Tensor A
}.

Definition init_hidden (self : t) : Tensor A :=
  zeros [lstm_layers self; batch_size self; hidden_size self].

Definition apply_embedding (self : t) (x static_embedding : Tensor A)
  : result (Tensor A) :=
  time_varying_real_vectors <-
    for_each (fun i =>
      layer <- list_item (time_varying_linear_layers self) i ;;
      column <- getitem x [Full; Full; At (Z.of_nat i)] ;;
      n0 <- size x 0 ;;
      column <- view column [Z.of_nat n0; (-1)%Z; 1%Z] ;;
      call layer column)
    (seq 0 (time_varying_real_variables self)) ;;
  time_varying_real_embedding <- cat time_varying_real_vectors 2 ;;
  time_varying_categoical_vectors <-
    for_each (fun i =>
      layer <- list_item (time_varying_embedding_layers self) i ;;
      column <- getitem x
        [Full; Full; At (Z.of_nat (time_varying_real_variables self + i))] ;;
      n0 <- size x 0 ;;
      column <- view column [Z.of_nat n0; (-1)%Z; 1%Z] ;;
      call layer (long column))
    (seq 0 (time_varying_categoical_variables self)) ;;
  time_varying_categoical_embedding <- cat time_varying_categoical_vectors 2 ;;
  n1 <- size time_varying_categoical_embedding 1 ;;
  static_embedding <- cat (repeat static_embedding n1) 0 ;;
  n0 <- size time_varying_categoical_embedding 0 ;;
  n1 <- size time_varying_categoical_embedding 1 ;;
  static_embedding <-
    view static_embedding [Z.of_nat n0; Z.of_nat n1; (-1)%Z] ;;
  embeddings <-
    cat [static_embedding; time_varying_categoical_embedding;
         time_varying_real_embedding] 2 ;;
  n0 <- size x 0 ;;
  n2 <- size embeddings 2 ;;
  view embeddings [(-1)%Z; Z.of_nat n0; Z.of_nat n2].

Definition encode (self : t) (x : Tensor A) (hidden : option (Tensor A))
  : result (Tensor A * Tensor A) :=
  let hidden := match hidden with
                | None => init_hidden self
                | Some h => h
                end in
  r <- lstm_forward (lstm_encoder self) x (hidden, hidden) ;;
  let '(output, (hidden, cell)) := r in
  Ok (output, hidden).

Definition decode (self : t) (x : Tensor A) (hidden : option (Tensor A))
  : result (Tensor A * Tensor A) :=
  let hidden := match hidden with
                | None => init_hidden self
                | Some h => h
                end in
  r <- lstm_forward (lstm_decoder self) x (hidden, hidden) ;;
  let '(output, (hidden, cell)) := r in
  Ok (output, hidden).

Definition _generate_square_subsequent_mask (self : t) (sz : nat)
  : result (Tensor (extended A)) :=
  upper <- triu (ones [sz; sz]) ;;
  mask <- transpose01 (eq_one upper) ;;
  filled <- masked_fill (tmap Finite (bool_to_float mask))
                        (bool_eq_int mask 0) NegInf ;;
  masked_fill filled (bool_eq_int mask 1) (Finite fzero).

Definition forward (self : t) (x : batch)
  : result (Tensor A * Tensor A * Tensor A * Tensor A * Tensor A) :=
  embedding_vectors <-
    for_each (fun i =>
      layer <- list_item (static_embedding_layers self) i ;;
      codes <- getitem (identifier x) [Full; At 0%Z; At (Z.of_nat i)] ;;
      call layer (long codes))
    (seq 0 (static_variables self)) ;;
  static_embedding <- cat embedding_vectors 1 ;;
  window <- getitem (inputs x)
              [Full; UpTo (Z.of_nat (encode_length self)); Full] ;;
  embeddings_encoder <- apply_embedding self (float window) static_embedding ;;
  window <- getitem (inputs x)
              [Full; From (Z.of_nat (encode_length self)); Full] ;;
  embeddings_decoder <- apply_embedding self (float window) static_embedding ;;
  r <- encode self embeddings_encoder None ;;
  let '(encoder_output, hidden) := r in
  r <- decode self embeddings_decoder (Some hidden) ;;
  let '(decoder_output, _) := r in
  lstm_output <- cat [encoder_output; decoder_output] 0 ;;
  n0 <- size lstm_output 0 ;;
  repeated <- cat (repeat static_embedding n0) 0 ;;
  n0 <- size lstm_output 0 ;;
  n1 <- size lstm_output 1 ;;
  static_embedding <- view repeated [Z.of_nat n0; Z.of_nat n1; (-1)%Z] ;;
  attn_input <- GatedResidualNetwork.forward (static_enrichment self)
                  lstm_output (Some static_embedding) ;;
  sz <- size attn_input 0 ;;
  mask <- _generate_square_subsequent_mask self sz ;;
  r <- attention_forward (multihead_attn self)
         attn_input attn_input lstm_output mask ;;
  let '(attn_output, attn_output_weights) := r in
  attn_output <- getitem attn_output
                   [From (Z.of_nat (encode_length self)); Full; Full] ;;
  projected <- view attn_output
                 [Z.of_nat (batch_size self); (-1)%Z;
                  Z.of_nat (hidden_size self)] ;;
  output <- call (output_layer self) projected ;;
  Ok (output, encoder_output, decoder_output, attn_output,
      attn_output_weights).

End WithRuntime.
Arguments config A : clear implicits.
Arguments batch A : clear implicits.
Arguments t A LW AW : clear implicits.
End TFT.


(* ================================================================== *)
(** * Definitions used by the statements *)
(* ================================================================== *)

Section Statements.
Context {A : Type} {S : Scalar A} {An : Analytic A}.
Context {LW AW : Type}.

(** The model with another position-wise feed-forward sub-module. *)
Definition with_pos_wise_ff (self : TFT.t A LW AW)
    (p : TimeDistributed.t (GatedResidualNetwork.t A)) : TFT.t A LW AW :=
  TFT.mk (TFT.batch_size self) (TFT.static_variables self)
    (TFT.encode_length self) (TFT.time_varying_categoical_variables self)
    (TFT.time_varying_real_variables self) (TFT.hidden_size self)
    (TFT.lstm_layers self) (TFT.dropout self) (TFT.attn_heads self)
    (TFT.static_embedding_layers self)
    (TFT.time_varying_embedding_layers self)
    (TFT.time_varying_linear_layers self) (TFT.lstm_input_size self)
    (TFT.lstm_encoder self) (TFT.lstm_decoder self)
    (TFT.static_enrichment self) p (TFT.multihead_attn self)
    (TFT.output_layer self).

(** The runtime with another recurrent primitive. *)
Definition with_lstm (RT : Runtime A LW AW)
    (f : LSTM.t A LW -> Tensor A -> Tensor A * Tensor A ->
         result (Tensor A * (Tensor A * Tensor A)))
  : Runtime A LW AW :=
  {| lstm_forward := f; attention_forward := attention_forward |}.

(** A recurrent primitive that is only ever given its hidden-state
    argument, in both positions of the initial state. *)
Definition cell_from_hidden (RT : Runtime A LW AW) : Runtime A LW AW :=
  with_lstm RT (fun m x s => lstm_forward m x (fst s, fst s)).

(** A recurrent primitive whose final cell state is rewritten by [g]. *)
Definition cell_rewritten (RT : Runtime A LW AW) (g : Tensor A -> Tensor A)
  : Runtime A LW AW :=
  with_lstm RT (fun m x s =>
    r <- lstm_forward m x s ;;
    let '(output, (hidden, cell)) := r in
    Ok (output, (hidden, g cell))).

Context {RT : Runtime A LW AW}.

(** The part of [TFT.forward] before the recurrent stage: the static
    embedding and the embeddings of the two windows. *)
Definition embed_windows (self : TFT.t A LW AW) (x : TFT.batch A)
  : result (Tensor A * Tensor A * Tensor A) :=
  embedding_vectors <-
    for_each (fun i =>
      layer <- list_item (TFT.static_embedding_layers self) i ;;
      codes <- getitem (TFT.identifier x) [Full; At 0%Z; At (Z.of_nat i)] ;;
      call layer (long codes))
    (seq 0 (TFT.static_variables self)) ;;
  static_embedding <- cat embedding_vectors 1 ;;
  window <- getitem (TFT.inputs x)
              [Full; UpTo (Z.of_nat (TFT.encode_length self)); Full] ;;
  embeddings_encoder <- TFT.apply_embedding self (float window) static_embedding ;;
  window <- getitem (TFT.inputs x)
              [Full; From (Z.of_nat (TFT.encode_length self)); Full] ;;
  embeddings_decoder <- TFT.apply_embedding self (float window) static_embedding ;;
  Ok (static_embedding, embeddings_encoder, embeddings_decoder).

(** The part of [TFT.forward] after the recurrent stage. *)
Definition attend (self : TFT.t A LW AW)
    (static_embedding encoder_output decoder_output : Tensor A)
  : result (Tensor A * Tensor A * Tensor A * Tensor A * Tensor A) :=
  lstm_output <- cat [encoder_output; decoder_output] 0 ;;
  n0 <- size lstm_output 0 ;;
  repeated <- cat (repeat static_embedding n0) 0 ;;
  n0 <- size lstm_output 0 ;;
  n1 <- size lstm_output 1 ;;
  static_embedding <- view repeated [Z.of_nat n0; Z.of_nat n1; (-1)%Z] ;;
  attn_input <- GatedResidualNetwork.forward (TFT.static_enrichment self)
                  lstm_output (Some static_embedding) ;;
  sz <- size attn_input 0 ;;
  mask <- TFT._generate_square_subsequent_mask self sz ;;
  r <- attention_forward (TFT.multihead_attn self)
         attn_input attn_input lstm_output mask ;;
  let '(attn_output, attn_output_weights) := r in
  attn_output <- getitem attn_output
                   [From (Z.of_nat (TFT.encode_length self)); Full; Full] ;;
  projected <- view attn_output
                 [Z.of_nat (TFT.batch_size self); (-1)%Z;
                  Z.of_nat (TFT.hidden_size self)] ;;
  output <- call (TFT.output_layer self) projected ;;
  Ok (output, encoder_output, decoder_output, attn_output,
      attn_output_weights).

(** The first half of that part, up to the call of the attention layer:
    the attended sequence over all the time steps, before anything is cut
    from it, and the attention weights. *)
Definition attention_stage (self : TFT.t A LW AW)
    (static_embedding encoder_output decoder_output : Tensor A)
  : result (Tensor A * Tensor A) :=
  lstm_output <- cat [encoder_output; decoder_output] 0 ;;
  n0 <- size lstm_output 0 ;;
  repeated <- cat (repeat static_embedding n0) 0 ;;
  n0 <- size lstm_output 0 ;;
  n1 <- size lstm_output 1 ;;
  static_embedding <- view repeated [Z.of_nat n0; Z.of_nat n1; (-1)%Z] ;;
  attn_input <- GatedResidualNetwork.forward (TFT.static_enrichment self)
                  lstm_output (Some static_embedding) ;;
  sz <- size attn_input 0 ;;
  mask <- TFT._generate_square_subsequent_mask self sz ;;
  attention_forward (TFT.multihead_attn self)
    attn_input attn_input lstm_output mask.

End Statements.


(** ** The quantile loss as the specification words it *)

Section PinballSpec.
Context {A : Type} {S : Scalar A}.

(** [quantile * max(y - y_pred, 0) + (1 - quantile) * max(y_pred - y, 0)] *)
Definition pinball (quantile y y_pred : A) : A :=
  fadd (fmul quantile (fmax (fsub y y_pred) fzero))
       (fmul (fsub fone quantile) (fmax (fsub y_pred y) fzero)).

(** One value per row: the pinball losses summed over the last axis. *)
Definition quantile_loss_spec (y y_pred : Tensor A) (quantile : A) : Tensor A :=
  tabulate (removelast (shape y)) (fun idx =>
    fold_left fadd
      (map (fun j => pinball quantile (get y (idx ++ [j]))
                                      (get y_pred (idx ++ [j])))
           (seq 0 (last (shape y) 0)))
      fzero).

End PinballSpec.


(** ** A small model *)

(** One static variable with three codes, one time-varying categorical
    variable with four codes, one real variable, embeddings of width 1 and a
    hidden state of width 1.  [num] injects the integers into the scalars;
    the context layer of the static-enrichment network has weight 1 and
    bias 1. *)
Section Toy.
Context {A : Type} {S : Scalar A}.
Variable num : Z -> A.
Variable epsilon : A.

Definition toy_linear (w b : Z) : Linear.t A :=
  Linear.mk 1 1 (mkTensor [1; 1] [num w]) (mkTensor [1] [num b]).

Definition toy_table (rows : list Z) : Embedding.t A :=
  Embedding.mk (length rows) 1 (mkTensor [length rows; 1] (map num rows)).

Definition toy_batch_norm : BatchNorm1d.t A :=
  BatchNorm1d.mk 1 (mkTensor [1] [num 1]) (mkTensor [1] [num 0])
    (mkTensor [1] [num 0]) (mkTensor [1] [num 1]) epsilon.

Definition toy_grn (context : option (TimeDistributed.t (Linear.t A)))
  : GatedResidualNetwork.t A :=
  GatedResidualNetwork.mk 1 1
    (match context with None => None | Some _ => Some 1 end)
    (TimeDistributed.init (toy_linear 1 0))
    (ELU.mk (num 1))
    context
    (TimeDistributed.init (toy_linear 1 0))
    (ELU.mk (num 1))
    (Dropout.mk (num 0))
    (TimeDistributed.init toy_batch_norm)
    (TimeDistributed.init (GLU.mk (toy_linear 0 0) (toy_linear 1 0))).

Definition toy_enrichment : GatedResidualNetwork.t A :=
  toy_grn (Some (TimeDistributed.init (toy_linear 1 1))).

Definition toy_model (batch encode : nat) : TFT.t A unit unit :=
  TFT.mk batch 1 encode 1 1 1 1 (num 0) 1
    [toy_table [7; 8; 9]%Z]
    [TimeDistributed.mk (toy_table [100; 101; 102; 103]%Z) true]
    [TimeDistributed.mk (toy_linear 1 0) true]
    3
    (LSTM.mk 3 1 1 (num 0) tt)
    (LSTM.mk 3 1 1 (num 0) tt)
    toy_enrichment
    (TimeDistributed.init (toy_grn None))
    (MultiheadAttention.mk 1 1 tt)
    (TimeDistributed.mk (toy_linear 1 0) true).

End Toy.

(** Two series of two time steps; every step holds a real value and a
    categorical code: [(10, 0)] then [(20, 1)] for the first series,
    [(30, 2)] then [(40, 3)] for the second. *)
Definition two_by_two : Tensor Q :=
  mkTensor [2; 2; 2] [10; 0; 20; 1; 30; 2; 40; 3]%Q.

(** Their static vectors, [7] and [8]. *)
Definition two_static : Tensor Q := mkTensor [2; 1] [7; 8]%Q.


(** ** The fused embedding as the specification words it *)

Section FusedEmbeddingSpec.
Context {A : Type} {S : Scalar A} {LW AW : Type}.

(** The static vector of batch element [b]. *)
Definition static_vector (static_embedding : Tensor A) (b : nat) : list A :=
  map (fun c => get static_embedding [b; c])
      (seq 0 (nth 1 (shape static_embedding) 0)).

(** The embedding of one categorical code. *)
Definition embed_code (table : Embedding.t A) (v : A) : list A :=
  map (fun c => get (Embedding.weight table) [Z.to_nat (ftrunc v); c])
      (seq 0 (Embedding.embedding_dim table)).

(** The linear embedding of one real value. *)
Definition embed_real (layer : Linear.t A) (v : A) : list A :=
  map (fun o => Linear.entry layer (mkTensor [1] [v]) [o])
      (seq 0 (Linear.out_features layer)).

(** Entry [(t, b)]: the static vector of [b], then the categorical
    embeddings of [b] at time [t], then its real embeddings at time [t]. *)
Definition fused_entry (self : TFT.t A LW AW) (x static_embedding : Tensor A)
    (t b : nat) : list A :=
  static_vector static_embedding b
  ++ flat_map (fun i =>
       match nth_error (TFT.time_varying_embedding_layers self) i with
       | Some layer =>
           embed_code (TimeDistributed.module layer)
             (get x [b; t; TFT.time_varying_real_variables self + i])
       | None => []
       end) (seq 0 (TFT.time_varying_categoical_variables self))
  ++ flat_map (fun i =>
       match nth_error (TFT.time_varying_linear_layers self) i with
       | Some layer =>
           embed_real (TimeDistributed.module layer) (get x [b; t; i])
       | None => []
       end) (seq 0 (TFT.time_varying_real_variables self)).

(** The (time, batch, channel) array of these entries, for an input [x] of
    shape (batch, time, feature). *)
Definition fused_embedding_spec (self : TFT.t A LW AW)
    (x static_embedding : Tensor A) : Tensor A :=
  let batch := nth 0 (shape x) 0 in
  let steps := nth 1 (shape x) 0 in
  mkTensor [steps; batch; length (fused_entry self x static_embedding 0 0)]
    (flat_map (fun t =>
       flat_map (fun b => fused_entry self x static_embedding t b)
                (seq 0 batch))
       (seq 0 steps)).

End FusedEmbeddingSpec.


(** ** What the constructors establish *)

Section Construction.
Context {A : Type} {S : Scalar A} {An : Analytic A}.
Context {LW AW : Type}.

(** [TimeDistributed(nn.Linear(i, o), batch_first=bf)] *)
Definition is_linear (bf : bool) (i o : nat)
    (layer : TimeDistributed.t (Linear.t A)) : Prop :=
  TimeDistributed.batch_first layer = bf /\
  Linear.in_features (TimeDistributed.module layer) = i /\
  Linear.out_features (TimeDistributed.module layer) = o.

(** [GatedResidualNetwork(input_size, output_size, dropout,
    hidden_context_size)] *)
Definition grn_constructed (input_size output_size : nat)
    (hidden_context_size : option nat) (grn : GatedResidualNetwork.t A)
  : Prop :=
  GatedResidualNetwork.input_size grn = input_size /\
  GatedResidualNetwork.output_size grn = output_size /\
  GatedResidualNetwork.hidden_context_size grn = hidden_context_size /\
  is_linear false input_size output_size (GatedResidualNetwork.fc1 grn) /\
  match hidden_context_size, GatedResidualNetwork.context grn with
  | Some c, Some layer => is_linear false c output_size layer
  | None, None => True
  | _, _ => False
  end /\
  is_linear false input_size output_size (GatedResidualNetwork.fc2 grn) /\
  TimeDistributed.batch_first (GatedResidualNetwork.bn grn) = false /\
  BatchNorm1d.num_features
    (TimeDistributed.module (GatedResidualNetwork.bn grn)) = input_size /\
  TimeDistributed.batch_first (GatedResidualNetwork.gate grn) = false /\
  (let glu := TimeDistributed.module (GatedResidualNetwork.gate grn) in
   Linear.in_features (GLU.fc1 glu) = input_size /\
   Linear.out_features (GLU.fc1 glu) = input_size /\
   Linear.in_features (GLU.fc2 glu) = input_size /\
   Linear.out_features (GLU.fc2 glu) = input_size).

(** [nn.LSTM(input_size=i, hidden_size=h, num_layers=n, ...)] *)
Definition is_lstm (i h n : nat) (m : LSTM.t A LW) : Prop :=
  LSTM.input_size m = i /\ LSTM.hidden_size m = h /\ LSTM.num_layers m = n.

(** [TFT(config)] *)
Definition constructed (cfg : TFT.config A) (self : TFT.t A LW AW) : Prop :=
  let e := TFT.cfg_embedding_dim cfg in
  let h := TFT.cfg_lstm_hidden_dimension cfg in
  TFT.batch_size self = TFT.cfg_batch_size cfg /\
  TFT.static_variables self = TFT.cfg_static_variables cfg /\
  TFT.encode_length self = TFT.cfg_encode_length cfg /\
  TFT.time_varying_categoical_variables self =
    TFT.cfg_time_varying_categoical_variables cfg /\
  TFT.time_varying_real_variables self =
    TFT.cfg_time_varying_real_variables cfg /\
  TFT.hidden_size self = h /\
  TFT.lstm_layers self = TFT.cfg_lstm_layers cfg /\
  TFT.attn_heads self = TFT.cfg_attn_heads cfg /\
  length (TFT.static_embedding_layers self) = TFT.cfg_static_variables cfg /\
  (forall i table, nth_error (TFT.static_embedding_layers self) i = Some table ->
     Embedding.embedding_dim table = e /\
     nth_error (TFT.cfg_static_embedding_vocab_sizes cfg) i =
       Some (Embedding.num_embeddings table)) /\
  length (TFT.time_varying_embedding_layers self) =
    TFT.cfg_time_varying_categoical_variables cfg /\
  (forall i layer, nth_error (TFT.time_varying_embedding_layers self) i = Some layer ->
     TimeDistributed.batch_first layer = true /\
     Embedding.embedding_dim (TimeDistributed.module layer) = e /\
     nth_error (TFT.cfg_time_varying_embedding_vocab_sizes cfg) i =
       Some (Embedding.num_embeddings (TimeDistributed.module layer))) /\
  length (TFT.time_varying_linear_layers self) =
    TFT.cfg_time_varying_real_variables cfg /\
  (forall i layer, nth_error (TFT.time_varying_linear_layers self) i = Some layer ->
     is_linear true 1 e layer) /\
  TFT.lstm_input_size self =
    e * (TFT.cfg_time_varying_real_variables cfg
         + TFT.cfg_time_varying_categoical_variables cfg
         + TFT.cfg_static_variables cfg) /\
  is_lstm (TFT.lstm_input_size self) h (TFT.cfg_lstm_layers cfg)
    (TFT.lstm_encoder self) /\
  is_lstm (TFT.lstm_input_size self) h (TFT.cfg_lstm_layers cfg)
    (TFT.lstm_decoder self) /\
  grn_constructed h h (Some (e * TFT.cfg_static_variables cfg))
    (TFT.static_enrichment self) /\
  TimeDistributed.batch_first (TFT.pos_wise_ff self) = false /\
  grn_constructed h h None (TimeDistributed.module (TFT.pos_wise_ff self)) /\
  MultiheadAttention.embed_dim (TFT.multihead_attn self) = h /\
  MultiheadAttention.num_heads (TFT.multihead_attn self) =
    TFT.cfg_attn_heads cfg /\
  is_linear true h 1 (TFT.output_layer self).

(** A configuration the layers accept: at least one variable of each
    kind, non-empty sizes, and a hidden size the heads divide. *)
Definition usable (cfg : TFT.config A) : Prop :=
  0 < TFT.cfg_batch_size cfg /\
  0 < TFT.cfg_static_variables cfg /\
  0 < TFT.cfg_encode_length cfg /\
  0 < TFT.cfg_time_varying_categoical_variables cfg /\
  0 < TFT.cfg_time_varying_real_variables cfg /\
  0 < TFT.cfg_lstm_hidden_dimension cfg /\
  0 < TFT.cfg_lstm_layers cfg /\
  0 < TFT.cfg_attn_heads cfg /\
  TFT.cfg_lstm_hidden_dimension cfg mod TFT.cfg_attn_heads cfg = 0 /\
  0 < TFT.cfg_embedding_dim cfg.

(** An input batch the model accepts: [inputs] of shape
    (batch_size, steps, features) with more steps than [encode_length] and
    a feature for every time-varying variable, [identifier] with at least
    one time step and a feature for every static variable, and every
    categorical code inside its table. *)
Definition valid_batch (self : TFT.t A LW AW) (x : TFT.batch A)
    (steps features : nat) : Prop :=
  shape (TFT.inputs x) = [TFT.batch_size self; steps; features] /\
  TFT.encode_length self < steps /\
  TFT.time_varying_real_variables self
    + TFT.time_varying_categoical_variables self <= features /\
  (exists id_steps statics,
     shape (TFT.identifier x) = [TFT.batch_size self; id_steps; statics] /\
     0 < id_steps /\ TFT.static_variables self <= statics) /\
  (forall i table n,
     nth_error (TFT.static_embedding_layers self) i = Some table ->
     n < TFT.batch_size self ->
     Embedding.valid_code table
       (ftrunc (get (TFT.identifier x) [n; 0; i])) = true) /\
  (forall i layer n t,
     nth_error (TFT.time_varying_embedding_layers self) i = Some layer ->
     n < TFT.batch_size self -> t < steps ->
     Embedding.valid_code (TimeDistributed.module layer)
       (ftrunc (get (TFT.inputs x)
                  [n; t; TFT.time_varying_real_variables self + i])) = true).

(** The shapes the two primitives of the runtime work on.  [nn.LSTM]
    takes an input of shape (length, batch, input_size) and two states of
    shape (num_layers, batch, hidden_size), and returns an output of shape
    (length, batch, hidden_size) and two states of the same shape as the
    initial ones. *)
Definition lstm_contract (RT : Runtime A LW AW) : Prop :=
  forall (m : LSTM.t A LW) (x h c : Tensor A) (len n : nat),
    0 < len -> 0 < n ->
    0 < LSTM.input_size m -> 0 < LSTM.hidden_size m -> 0 < LSTM.num_layers m ->
    shape x = [len; n; LSTM.input_size m] ->
    shape h = [LSTM.num_layers m; n; LSTM.hidden_size m] ->
    shape c = [LSTM.num_layers m; n; LSTM.hidden_size m] ->
    exists output h_n c_n,
      lstm_forward m x (h, c) = Ok (output, (h_n, c_n)) /\
      shape output = [len; n; LSTM.hidden_size m] /\
      shape h_n = [LSTM.num_layers m; n; LSTM.hidden_size m] /\
      shape c_n = [LSTM.num_layers m; n; LSTM.hidden_size m].

(** [nn.MultiheadAttention] takes a query of shape (length, batch,
    embed_dim), a key and a value of shape (source, batch, embed_dim) and
    a mask of shape (length, source), and returns the attended sequence of
    shape (length, batch, embed_dim) with the weights of shape
    (batch, length, source). *)
Definition attention_contract (RT : Runtime A LW AW) : Prop :=
  forall (m : MultiheadAttention.t AW) (q k v : Tensor A)
         (mask : Tensor (extended A)) (len src n : nat),
    0 < len -> 0 < src -> 0 < n ->
    0 < MultiheadAttention.num_heads m ->
    0 < MultiheadAttention.embed_dim m ->
    MultiheadAttention.embed_dim m mod MultiheadAttention.num_heads m = 0 ->
    shape q = [len; n; MultiheadAttention.embed_dim m] ->
    shape k = [src; n; MultiheadAttention.embed_dim m] ->
    shape v = [src; n; MultiheadAttention.embed_dim m] ->
    shape mask = [len; src] ->
    exists attn_output attn_output_weights,
      attention_forward m q k v mask = Ok (attn_output, attn_output_weights) /\
      shape attn_output = [len; n; MultiheadAttention.embed_dim m] /\
      shape attn_output_weights = [n; len; src].

End Construction.


(** ** A runtime and a batch to instantiate the statements *)

(** The least runtime that honours the shape contracts of the two
    primitives: it checks the shapes of its arguments and answers with
    tensors of zeros of the shapes the primitives return. *)
Section ShapeRuntime.
Context {A : Type} {S : Scalar A}.

Definition shape_lstm (m : LSTM.t A unit) (x : Tensor A)
    (state : Tensor A * Tensor A)
  : result (Tensor A * (Tensor A * Tensor A)) :=
  let hidden n := [LSTM.num_layers m; n; LSTM.hidden_size m] in
  match shape x with
  | [len; n; i] =>
      if (0 <? len) && (i =? LSTM.input_size m)
         && list_eqb (shape (fst state)) (hidden n)
         && list_eqb (shape (snd state)) (hidden n)
      then Ok (zeros [len; n; LSTM.hidden_size m],
               (zeros (hidden n), zeros (hidden n)))
      else Raise RuntimeError
  | _ => Raise RuntimeError
  end.

Definition shape_attention (m : MultiheadAttention.t unit)
    (q k v : Tensor A) (mask : Tensor (extended A))
  : result (Tensor A * Tensor A) :=
  let e := MultiheadAttention.embed_dim m in
  match shape q, shape k with
  | [len; n; _], [src; _; _] =>
      if list_eqb (shape q) [len; n; e] && list_eqb (shape k) [src; n; e]
         && list_eqb (shape v) [src; n; e] && list_eqb (shape mask) [len; src]
      then Ok (zeros [len; n; e], zeros [n; len; src])
      else Raise RuntimeError
  | _, _ => Raise RuntimeError
  end.

Definition shape_runtime : Runtime A unit unit :=
  {| lstm_forward := shape_lstm; attention_forward := shape_attention |}.

End ShapeRuntime.

(** The configuration of [toy_model 1 5]: one series per batch and an
    encoder window of five steps. *)
Definition toy_config : TFT.config R :=
  TFT.mkConfig 1 1 5 1 1 1 1 0%R 1 1 [3] [4].

(** One series of eight steps, each a real value and a categorical code,
    and its static code at every step. *)
Definition eight_steps : Tensor R :=
  mkTensor [1; 8; 2]
    [10; 0;  20; 1;  30; 2;  40; 3;  50; 0;  60; 1;  70; 2;  80; 3]%R.

Definition static_codes (later : R) : Tensor R :=
  mkTensor [1; 8; 1] [2; later; later; later; later; later; later; later]%R.

Definition toy_batch (later : R) : TFT.batch R :=
  TFT.mkBatch (static_codes later) eight_steps.

(** ** Further small instances *)

(** A gated residual network built with one input feature, two output
    features and no context. *)
Definition widening_linear : Linear.t R :=
  Linear.mk 1 2 (mkTensor [2; 1] [1; 1]%R) (mkTensor [2] [0; 0]%R).

Definition widening_grn : GatedResidualNetwork.t R :=
  GatedResidualNetwork.mk 1 2 None
    (TimeDistributed.init widening_linear)
    (ELU.mk 1%R)
    None
    (TimeDistributed.init widening_linear)
    (ELU.mk 1%R)
    (Dropout.mk 0%R)
    (TimeDistributed.init (toy_batch_norm IZR (1 / 100000)%R))
    (TimeDistributed.init (GLU.mk (toy_linear IZR 0 0) (toy_linear IZR 1 0))).

(** The small model without a real-valued variable: one static variable
    and one time-varying categorical variable. *)
Section NoRealVariable.
Context {A : Type} {S : Scalar A}.
Variable num : Z -> A.
Variable epsilon : A.

Definition no_real_model : TFT.t A unit unit :=
  TFT.mk 1 1 1 1 0 1 1 (num 0) 1
    [toy_table num [7; 8; 9]%Z]
    [TimeDistributed.mk (toy_table num [100; 101; 102; 103]%Z) true]
    []
    2
    (LSTM.mk 2 1 1 (num 0) tt)
    (LSTM.mk 2 1 1 (num 0) tt)
    (toy_enrichment num epsilon)
    (TimeDistributed.init (toy_grn num epsilon None))
    (MultiheadAttention.mk 1 1 tt)
    (TimeDistributed.mk (toy_linear num 1 0) true).

End NoRealVariable.


(** One series of two steps with a third feature column, which no
    variable of the small model owns. *)
Definition padded_steps (extra : R) : Tensor R :=
  mkTensor [1; 2; 3] [10; 0; extra;  20; 1; extra]%R.

Definition padded_batch (extra : R) : TFT.batch R :=
  TFT.mkBatch (static_codes 2%R) (padded_steps extra).

(** [x[:, :, i].view(x.size(0), -1, 1)] on an array [x] of shape
    (b, tw, f): the column of variable [i], as the time-varying layers
    receive it. *)
Definition column_of {A : Type} `{Scalar A} (w : Tensor A) (b tw i : nat)
  : Tensor A :=
  mkTensor [b; tw; 1]
    (data (tabulate [b; tw] (fun idx => get w [nth 0 idx 0; nth 1 idx 0; i]))).

(** ** What an entry of the fused embedding holds *)

Section EntryEmbeds.
Context {A : Type} {S : Scalar A} {LW AW : Type}.

(** Entry [(t, n)] of the array [r] holds, on its last axis, the static
    vector of series [n], then for every categorical variable the row of
    its table for the code that [w] has at series [src_n] and step [src_t],
    then for every real variable the linear embedding of the value that [w]
    has there.  Each vector has [cfg_embedding_dim] entries. *)
Definition entry_embeds (cfg : TFT.config A) (self : TFT.t A LW AW)
    (w st r : Tensor A) (t n src_n src_t : nat) : Prop :=
  let e := TFT.cfg_embedding_dim cfg in
  let ns := TFT.cfg_static_variables cfg in
  let ncat := TFT.time_varying_categoical_variables self in
  let nreal := TFT.time_varying_real_variables self in
  (forall c, c < ns * e -> get r [t; n; c] = get st [n; c]) /\
  (forall j layer c,
     nth_error (TFT.time_varying_embedding_layers self) j = Some layer ->
     c < e ->
     get r [t; n; ns * e + j * e + c] =
     get (Embedding.weight (TimeDistributed.module layer))
         [Z.to_nat (ftrunc (get w [src_n; src_t; nreal + j])); c]) /\
  (forall i layer c,
     nth_error (TFT.time_varying_linear_layers self) i = Some layer ->
     c < e ->
     get r [t; n; ns * e + ncat * e + i * e + c] =
     Linear.entry (TimeDistributed.module layer)
       (mkTensor [1] [get w [src_n; src_t; i]]) [c]).

End EntryEmbeds.

(** The configuration of [toy_model 2 1] over the rationals: two series
    per batch and an encoder window of one step. *)
Definition two_series_config : TFT.config Q :=
  TFT.mkConfig 2 1 1 1 1 1 1 0%Q 1 1 [3] [4].

(** Two series of one time step: [(10, 0)] for the first and [(30, 2)]
    for the second. *)
Definition two_by_one : Tensor Q := mkTensor [2; 1; 2] [10; 0; 30; 2]%Q.

(** A batch whose inputs have a single feature column, where the small
    model reads two. *)
Definition narrow_batch : TFT.batch R :=
  TFT.mkBatch (static_codes 2%R)
    (mkTensor [1; 8; 1] [10; 20; 30; 40; 50; 60; 70; 80]%R).

(** ** The gated residual network at one position *)

Section NetworkAtPosition.
Context {A : Type} {S : Scalar A} {An : Analytic A}.

(** Output [o] of a linear layer on the vector [v]. *)
Definition linear_at (l : Linear.t A) (v : nat -> A) (o : nat) : A :=
  fadd (fold_left fadd
          (map (fun k => fmul (v k) (get (Linear.weight l) [o; k]))
               (seq 0 (Linear.in_features l)))
          fzero)
       (get (Linear.bias l) [o]).

(** Channel [c] of what the network computes from the input vector [xv]
    and the context vector [cv] of one position: the first linear layer
    plus the context layer, the activation, the second linear layer, the
    gate, the residual connection and the normalisation. *)
Definition grn_at (grn : GatedResidualNetwork.t A) (xv : nat -> A)
    (cv : option (nat -> A)) (c : nat) : A :=
  let first k :=
    linear_at (TimeDistributed.module (GatedResidualNetwork.fc1 grn)) xv k in
  let pre k :=
    match GatedResidualNetwork.context grn, cv with
    | Some layer, Some u =>
        fadd (first k) (linear_at (TimeDistributed.module layer) u k)
    | _, _ => first k
    end in
  let hidden k := ELU.elu (GatedResidualNetwork.elu1 grn) (pre k) in
  let second k :=
    linear_at (TimeDistributed.module (GatedResidualNetwork.fc2 grn)) hidden k in
  let glu := TimeDistributed.module (GatedResidualNetwork.gate grn) in
  let gated :=
    fmul (Sigmoid.sigmoid (linear_at (GLU.fc1 glu) second c))
         (linear_at (GLU.fc2 glu) second c) in
  BatchNorm1d.normalize (TimeDistributed.module (GatedResidualNetwork.bn grn))
    c (fadd gated (xv c)).

(** The network with another second activation. *)
Definition with_elu2 (grn : GatedResidualNetwork.t A) (e : ELU.t A)
  : GatedResidualNetwork.t A :=
  GatedResidualNetwork.mk
    (GatedResidualNetwork.input_size grn)
    (GatedResidualNetwork.output_size grn)
    (GatedResidualNetwork.hidden_context_size grn)
    (GatedResidualNetwork.fc1 grn)
    (GatedResidualNetwork.elu1 grn)
    (GatedResidualNetwork.context grn)
    (GatedResidualNetwork.fc2 grn)
    e
    (GatedResidualNetwork.dropout grn)
    (GatedResidualNetwork.bn grn)
    (GatedResidualNetwork.gate grn).

End NetworkAtPosition.

(** ** Another attention primitive *)

(** The runtime with another attention primitive. *)
Definition with_attention {A LW AW : Type} (RT : Runtime A LW AW)
    (f : MultiheadAttention.t AW ->
         Tensor A -> Tensor A -> Tensor A -> Tensor (extended A) ->
         result (Tensor A * Tensor A))
  : Runtime A LW AW :=
  {| lstm_forward := lstm_forward; attention_forward := f |}.

(* ================================================================== *)
(** * Properties *)
(* ================================================================== *)

(** ** Row-major indexing *)

Lemma unravel_in_bounds (s : list nat) :
  forall k, k < numel s -> in_bounds s (unravel s k) = true.
Proof.
  induction s as [|d s IH]; intros k Hk; simpl in *.
  - reflexivity.
  - assert (Hpos : numel s <> 0) by (intro E; rewrite E in Hk; lia).
    apply andb_true_intro; split.
    + apply Nat.ltb_lt. apply Nat.Div0.div_lt_upper_bound. lia.
    + apply IH. apply Nat.mod_upper_bound. exact Hpos.
Qed.

Lemma ravel_lt (s : list nat) :
  forall idx, in_bounds s idx = true -> ravel s idx < numel s.
Proof.
  induction s as [|d s IH]; intros [|i idx] Hb; simpl in *; try discriminate.
  - lia.
  - apply andb_prop in Hb. destruct Hb as [Hi Hb].
    apply Nat.ltb_lt in Hi. specialize (IH _ Hb). nia.
Qed.

Lemma unravel_ravel (s : list nat) :
  forall idx, in_bounds s idx = true -> unravel s (ravel s idx) = idx.
Proof.
  induction s as [|d s IH]; intros [|i idx] Hb; simpl in *; try discriminate.
  - reflexivity.
  - apply andb_prop in Hb. destruct Hb as [Hi Hb].
    pose proof (ravel_lt _ _ Hb) as Hlt.
    assert (Hpos : numel s <> 0) by lia.
    f_equal.
    + rewrite Nat.div_add_l by exact Hpos.
      rewrite Nat.div_small by exact Hlt. lia.
    + rewrite Nat.add_comm, Nat.Div0.mod_add.
      rewrite Nat.mod_small by exact Hlt. apply IH. exact Hb.
Qed.

Lemma ravel_unravel (s : list nat) :
  forall k, k < numel s -> ravel s (unravel s k) = k.
Proof.
  induction s as [|d s IH]; intros k Hk; simpl in *.
  - lia.
  - assert (Hpos : numel s <> 0) by (intro E; rewrite E in Hk; lia).
    rewrite IH by (apply Nat.mod_upper_bound; exact Hpos).
    pose proof (Nat.div_mod_eq k (numel s)). lia.
Qed.

Lemma in_bounds_length (s : list nat) :
  forall idx, in_bounds s idx = true -> length idx = length s.
Proof.
  induction s as [|d s IH]; intros [|i idx] Hb; simpl in *; try discriminate.
  - reflexivity.
  - apply andb_prop in Hb. f_equal. apply IH. tauto.
Qed.

(** ** Tensors built pointwise *)

Lemma shape_tabulate {X : Type} (s : list nat) (f : list nat -> X) :
  shape (tabulate s f) = s.
Proof. reflexivity. Qed.

Lemma wf_tabulate {X : Type} (s : list nat) (f : list nat -> X) :
  wf (tabulate s f).
Proof. unfold wf, tabulate. simpl. rewrite length_map, length_seq. reflexivity. Qed.

Lemma nth_tabulate {X : Type} `{Inhabitant X} (s : list nat) (f : list nat -> X) (k : nat) :
  k < numel s -> nth k (data (tabulate s f)) inhabitant = f (unravel s k).
Proof.
  intros Hk. unfold tabulate. simpl.
  rewrite nth_indep with (d' := f (unravel s 0))
    by (rewrite length_map, length_seq; exact Hk).
  rewrite (map_nth (fun k => f (unravel s k))).
  rewrite seq_nth by exact Hk. reflexivity.
Qed.

Lemma get_tabulate {X : Type} `{Inhabitant X} (s : list nat) (f : list nat -> X)
    (idx : list nat) :
  in_bounds s idx = true -> get (tabulate s f) idx = f idx.
Proof.
  intros Hb. unfold get. rewrite shape_tabulate.
  rewrite nth_tabulate by (apply ravel_lt; exact Hb).
  rewrite unravel_ravel by exact Hb. reflexivity.
Qed.

Lemma tabulate_ext {X : Type} (s : list nat) (f g : list nat -> X) :
  (forall idx, in_bounds s idx = true -> f idx = g idx) ->
  tabulate s f = tabulate s g.
Proof.
  intros Hfg. unfold tabulate. f_equal.
  apply map_ext_in. intros k Hk. apply in_seq in Hk.
  apply Hfg. apply unravel_in_bounds. lia.
Qed.

Lemma get_tmap {X Y : Type} `{Inhabitant X} `{Inhabitant Y} (f : X -> Y)
    (t : Tensor X) (idx : list nat) :
  wf t -> in_bounds (shape t) idx = true ->
  get (tmap f t) idx = f (get t idx).
Proof.
  intros Hwf Hb. unfold get, tmap. simpl.
  assert (Hlt : ravel (shape t) idx < length (data t))
    by (rewrite Hwf; apply ravel_lt; exact Hb).
  rewrite nth_indep with (d' := f inhabitant)
    by (rewrite length_map; exact Hlt).
  apply map_nth.
Qed.

Lemma wf_tmap {X Y : Type} (f : X -> Y) (t : Tensor X) : wf t -> wf (tmap f t).
Proof. unfold wf, tmap. simpl. rewrite length_map. auto. Qed.

Lemma wf_full {X : Type} (s : list nat) (v : X) : wf (full s v).
Proof. unfold wf, full. simpl. apply repeat_length. Qed.

Lemma get_full {X : Type} `{Inhabitant X} (s : list nat) (v : X) (idx : list nat) :
  in_bounds s idx = true -> get (full s v) idx = v.
Proof.
  intros Hb. unfold get, full. simpl.
  apply nth_repeat_lt. apply ravel_lt. exact Hb.
Qed.

Lemma tmap_tabulate {X Y : Type} (f : X -> Y) (s : list nat) (g : list nat -> X) :
  tmap f (tabulate s g) = tabulate s (fun idx => f (g idx)).
Proof. unfold tmap, tabulate. simpl. rewrite map_map. reflexivity. Qed.

(** ** Broadcasting *)

Lemma list_eqb_refl (l : list nat) : list_eqb l l = true.
Proof. unfold list_eqb. destruct (list_eq_dec Nat.eq_dec l l); congruence. Qed.

Lemma broadcast_rev_same (r : list nat) : broadcast_rev r r = Ok r.
Proof.
  induction r as [|d r IH]; simpl; [reflexivity|].
  rewrite IH. simpl. rewrite Nat.eqb_refl. reflexivity.
Qed.

Lemma broadcast_shapes_same (s : list nat) : broadcast_shapes s s = Ok s.
Proof.
  unfold broadcast_shapes. rewrite broadcast_rev_same. simpl.
  rewrite rev_involutive. reflexivity.
Qed.

Lemma broadcast_index_same (s : list nat) :
  forall idx, in_bounds s idx = true -> broadcast_index s idx = idx.
Proof.
  intros idx Hb. unfold broadcast_index.
  rewrite (in_bounds_length _ _ Hb), Nat.sub_diag. simpl.
  revert idx Hb.
  induction s as [|d s IH]; intros [|i idx] Hb; simpl in *; try discriminate.
  - reflexivity.
  - apply andb_prop in Hb. destruct Hb as [Hi Hb].
    apply Nat.ltb_lt in Hi. rewrite (IH _ Hb).
    destruct (Nat.eqb_spec d 1); f_equal; lia.
Qed.

Lemma broadcast2_same {X Y W : Type} `{Inhabitant X} `{Inhabitant Y}
    (f : X -> Y -> W) (a : Tensor X) (b : Tensor Y) :
  shape b = shape a ->
  broadcast2 f a b =
  Ok (tabulate (shape a) (fun idx => f (get a idx) (get b idx))).
Proof.
  intros Hs. unfold broadcast2. rewrite Hs, broadcast_shapes_same. simpl.
  f_equal. apply tabulate_ext. intros idx Hb.
  rewrite broadcast_index_same by exact Hb. reflexivity.
Qed.

Lemma masked_fill_same {X : Type} `{Inhabitant X} (t : Tensor X)
    (mask : Tensor bool) (value : X) :
  shape mask = shape t ->
  masked_fill t mask value =
  Ok (tabulate (shape t) (fun idx => if get mask idx then value else get t idx)).
Proof.
  intros Hs. unfold masked_fill. rewrite broadcast2_same by exact Hs. simpl.
  rewrite list_eqb_refl. reflexivity.
Qed.

(** ** The causal mask *)

Section MaskFacts.
Context {A : Type} {S : Scalar A}.
Hypothesis feqb_one_one : feqb fone fone = true.
Hypothesis feqb_zero_one : feqb fzero fone = false.

Lemma triu_ones (sz : nat) :
  triu (ones [sz; sz]) =
  Ok (tabulate [sz; sz] (fun idx =>
        if nth 0 idx 0 <=? nth 1 idx 0 then fone else fzero)).
Proof.
  unfold triu, ones. simpl. f_equal. apply tabulate_ext.
  intros idx Hb. pose proof (in_bounds_length _ _ Hb) as Hlen.
  destruct idx as [|i [|j [|? ?]]]; try discriminate. simpl.
  destruct (i <=? j); [|reflexivity].
  apply (get_full (X := A)). exact Hb.
Qed.

Lemma lower_triangle (sz : nat) :
  (upper <- triu (ones [sz; sz]) ;; transpose01 (eq_one upper)) =
  Ok (tabulate [sz; sz] (fun idx => nth 1 idx 0 <=? nth 0 idx 0)).
Proof.
  rewrite triu_ones. simpl. unfold eq_one. rewrite tmap_tabulate.
  unfold transpose01. simpl. f_equal. apply tabulate_ext.
  intros idx Hb. pose proof (in_bounds_length _ _ Hb) as Hlen.
  destruct idx as [|i [|j [|? ?]]]; try discriminate. simpl in *.
  rewrite get_tabulate
    by (simpl; apply andb_prop in Hb; destruct Hb as [-> Hb];
        apply andb_prop in Hb; destruct Hb as [-> _]; reflexivity).
  simpl. destruct (j <=? i); assumption.
Qed.

Lemma mask_closed_form {LW AW : Type} (self : TFT.t A LW AW) (sz : nat) :
  TFT._generate_square_subsequent_mask self sz =
  Ok (tabulate [sz; sz] (fun idx =>
        if nth 0 idx 0 <? nth 1 idx 0 then NegInf else Finite fzero)).
Proof.
  unfold TFT._generate_square_subsequent_mask.
  pose proof (lower_triangle sz) as Hlow.
  destruct (triu (ones [sz; sz])) as [upper|e]; simpl in Hlow; [|discriminate].
  simpl. rewrite Hlow. simpl.
  unfold bool_to_float, bool_eq_int. rewrite !tmap_tabulate.
  rewrite masked_fill_same by reflexivity. simpl.
  rewrite masked_fill_same by reflexivity. simpl.
  f_equal. apply tabulate_ext. intros idx Hb.
  rewrite !get_tabulate by exact Hb.
  pose proof (in_bounds_length _ _ Hb) as Hlen.
  destruct idx as [|i [|j [|? ?]]]; try discriminate. simpl.
  destruct (Nat.leb_spec j i), (Nat.ltb_spec i j); simpl; try reflexivity; lia.
Qed.

End MaskFacts.

(** ** Shape inference of [view] *)

Lemma numel_app (s1 s2 : list nat) : numel (s1 ++ s2) = numel s1 * numel s2.
Proof.
  induction s1 as [|d s1 IH]; simpl; [lia|]. rewrite IH. lia.
Qed.

Lemma existsb_below_of_nat (l : list nat) :
  existsb (fun d => (d <? -1)%Z) (map Z.of_nat l) = false.
Proof.
  induction l as [|d l IH]; simpl; [reflexivity|].
  rewrite IH. destruct (Z.ltb_spec (Z.of_nat d) (-1)); [lia|reflexivity].
Qed.

Lemma filter_known_of_nat (l : list nat) :
  filter (fun d => negb (d =? -1)%Z) (map Z.of_nat l) = map Z.of_nat l.
Proof.
  induction l as [|d l IH]; simpl; [reflexivity|].
  rewrite IH. destruct (Z.eqb_spec (Z.of_nat d) (-1)); [lia|reflexivity].
Qed.

Lemma count_inferred_of_nat (l : list nat) :
  count_occ Z.eq_dec (map Z.of_nat l) (-1)%Z = 0.
Proof.
  induction l as [|d l IH]; simpl; [reflexivity|].
  destruct (Z.eq_dec (Z.of_nat d) (-1)); [lia|exact IH].
Qed.

Lemma to_nat_of_nat (l : list nat) : map Z.to_nat (map Z.of_nat l) = l.
Proof.
  induction l as [|d l IH]; simpl; [reflexivity|].
  rewrite IH, Nat2Z.id. reflexivity.
Qed.

Lemma fill_inferred_of_nat (l : list nat) (v : nat) :
  map (fun d => if (d =? -1)%Z then v else Z.to_nat d) (map Z.of_nat l) = l.
Proof.
  induction l as [|d l IH]; simpl; [reflexivity|].
  rewrite IH, Nat2Z.id.
  destruct (Z.eqb_spec (Z.of_nat d) (-1)); [lia|reflexivity].
Qed.

(** A request without [-1] succeeds exactly when it announces the right
    number of elements. *)
Lemma infer_size_exact (s : list nat) (n : nat) :
  infer_size (map Z.of_nat s) n =
  if n =? numel s then Ok s else Raise RuntimeError.
Proof.
  unfold infer_size.
  rewrite existsb_below_of_nat, count_inferred_of_nat.
  rewrite filter_known_of_nat, !to_nat_of_nat. reflexivity.
Qed.

(** A request with one [-1] succeeds exactly when the product of the other
    sizes is positive and divides the number of elements. *)
Lemma infer_size_one (pre post : list nat) (n : nat) :
  infer_size (map Z.of_nat pre ++ (-1)%Z :: map Z.of_nat post) n =
  if (0 <? numel pre * numel post) && (n mod (numel pre * numel post) =? 0)
  then Ok (pre ++ n / (numel pre * numel post) :: post)
  else Raise RuntimeError.
Proof.
  unfold infer_size.
  rewrite existsb_app, existsb_below_of_nat. simpl.
  rewrite existsb_below_of_nat.
  rewrite count_occ_app, count_inferred_of_nat. simpl.
  rewrite count_inferred_of_nat.
  rewrite filter_app, filter_known_of_nat. simpl.
  rewrite filter_known_of_nat.
  rewrite <- map_app, to_nat_of_nat, numel_app.
  destruct ((0 <? numel pre * numel post)
            && (n mod (numel pre * numel post) =? 0)); [|reflexivity].
  rewrite map_app. simpl. rewrite !fill_inferred_of_nat. reflexivity.
Qed.

Lemma view_flatten {X : Type} (t : Tensor X) (f : nat) :
  view t [(-1)%Z; Z.of_nat f] =
  if (0 <? f) && (numel (shape t) mod f =? 0)
  then Ok (mkTensor [numel (shape t) / f; f] (data t))
  else Raise RuntimeError.
Proof.
  unfold view.
  pose proof (infer_size_one [] [f] (numel (shape t))) as E.
  simpl in E. rewrite Nat.add_0_r, Nat.mul_1_r in E. rewrite E.
  destruct ((0 <? f) && (numel (shape t) mod f =? 0)); reflexivity.
Qed.

Lemma view_batch_first {X : Type} (t : Tensor X) (a f : nat) :
  view t [Z.of_nat a; (-1)%Z; Z.of_nat f] =
  if (0 <? a * f) && (numel (shape t) mod (a * f) =? 0)
  then Ok (mkTensor [a; numel (shape t) / (a * f); f] (data t))
  else Raise RuntimeError.
Proof.
  unfold view.
  pose proof (infer_size_one [a] [f] (numel (shape t))) as E.
  simpl in E. rewrite !Nat.mul_1_r in E. rewrite E.
  destruct ((0 <? a * f) && (numel (shape t) mod (a * f) =? 0)); reflexivity.
Qed.

Lemma view_time_first {X : Type} (t : Tensor X) (a f : nat) :
  view t [(-1)%Z; Z.of_nat a; Z.of_nat f] =
  if (0 <? a * f) && (numel (shape t) mod (a * f) =? 0)
  then Ok (mkTensor [numel (shape t) / (a * f); a; f] (data t))
  else Raise RuntimeError.
Proof.
  unfold view.
  pose proof (infer_size_one [] [a; f] (numel (shape t))) as E.
  simpl in E. rewrite Nat.add_0_r, !Nat.mul_1_r in E. rewrite E.
  destruct ((0 <? a * f) && (numel (shape t) mod (a * f) =? 0)); reflexivity.
Qed.

Lemma view_last {X : Type} (t : Tensor X) (a b : nat) :
  view t [Z.of_nat a; Z.of_nat b; (-1)%Z] =
  if (0 <? a * b) && (numel (shape t) mod (a * b) =? 0)
  then Ok (mkTensor [a; b; numel (shape t) / (a * b)] (data t))
  else Raise RuntimeError.
Proof.
  unfold view.
  pose proof (infer_size_one [a; b] [] (numel (shape t))) as E.
  simpl in E. rewrite !Nat.mul_1_r in E. rewrite E.
  destruct ((0 <? a * b) && (numel (shape t) mod (a * b) =? 0)); reflexivity.
Qed.

Lemma size_rank3 {X : Type} (t : Tensor X) (a b c : nat) :
  shape t = [a; b; c] ->
  size t 0 = Ok a /\ size t 1 = Ok b /\ size t 2 = Ok c /\ size t (-1) = Ok c.
Proof. intros Hs. unfold size, dim. rewrite Hs. simpl. auto. Qed.

Lemma size_rank2 {X : Type} (t : Tensor X) (a b : nat) :
  shape t = [a; b] ->
  size t 0 = Ok a /\ size t 1 = Ok b /\ size t (-1) = Ok b.
Proof. intros Hs. unfold size, dim. rewrite Hs. simpl. auto. Qed.

(** ** The time-distributed wrapper *)

Lemma TimeDistributed_rank3 {M X Y : Type} `{NNModule M X Y}
    (self : TimeDistributed.t M) (x : Tensor X) (a0 a1 f : nat) :
  shape x = [a0; a1; f] ->
  TimeDistributed.forward self x =
  (x_reshape <- view x [(-1)%Z; Z.of_nat f] ;;
   y <- call (TimeDistributed.module self) x_reshape ;;
   m <- size y (-1) ;;
   if TimeDistributed.batch_first self
   then view y [Z.of_nat a0; (-1)%Z; Z.of_nat m]
   else view y [(-1)%Z; Z.of_nat a1; Z.of_nat m]).
Proof.
  intros Hs. unfold TimeDistributed.forward, contiguous.
  destruct (size_rank3 x Hs) as (E0 & E1 & _ & E3).
  unfold dim. rewrite Hs, E0, E1, E3. simpl.
  destruct (view x [(-1)%Z; Z.of_nat f]) as [xr|e]; simpl; [|reflexivity].
  destruct (call (TimeDistributed.module self) xr) as [y|e]; simpl; [|reflexivity].
  destruct (TimeDistributed.batch_first self); reflexivity.
Qed.

Lemma numel_rank3 (a b c : nat) : numel [a; b; c] = a * b * c.
Proof. simpl. lia. Qed.

Lemma numel_rank2 (a b : nat) : numel [a; b] = a * b.
Proof. simpl. lia. Qed.

Lemma div_exact (n k : nat) : 0 < k -> n * k / k = n /\ (n * k) mod k = 0.
Proof.
  intros Hk. split.
  - apply Nat.div_mul. lia.
  - apply Nat.Div0.mod_mul.
Qed.

(** Flattening a rank-3 tensor on its last axis. *)
Lemma view_flatten_rank3 {X : Type} (x : Tensor X) (a0 a1 f : nat) :
  shape x = [a0; a1; f] ->
  view x [(-1)%Z; Z.of_nat f] =
  if 0 <? f then Ok (mkTensor [a0 * a1; f] (data x)) else Raise RuntimeError.
Proof.
  intros Hs. rewrite view_flatten, Hs, numel_rank3.
  destruct (Nat.ltb_spec 0 f) as [Hf|Hf]; simpl; [|reflexivity].
  destruct (div_exact (a0 * a1) Hf) as [-> ->]. reflexivity.
Qed.

(** Restoring three axes from a matrix of [a0 * a1] rows. *)
Lemma view_restore_batch_first {X : Type} (y : Tensor X) (a0 a1 m : nat) :
  shape y = [a0 * a1; m] ->
  view y [Z.of_nat a0; (-1)%Z; Z.of_nat m] =
  if (0 <? a0) && (0 <? m) then Ok (mkTensor [a0; a1; m] (data y))
  else Raise RuntimeError.
Proof.
  intros Hs. rewrite view_batch_first, Hs, numel_rank2.
  destruct (Nat.ltb_spec 0 a0) as [Ha|Ha], (Nat.ltb_spec 0 m) as [Hm|Hm];
    simpl;
    try (replace (a0 * m) with 0 by nia; reflexivity).
  assert (Hk : 0 < a0 * m) by nia.
  replace (a0 * a1 * m) with (a1 * (a0 * m)) by lia.
  destruct (div_exact a1 Hk) as [-> ->].
  destruct (Nat.ltb_spec 0 (a0 * m)); [reflexivity|lia].
Qed.

Lemma view_restore_time_first {X : Type} (y : Tensor X) (a0 a1 m : nat) :
  shape y = [a0 * a1; m] ->
  view y [(-1)%Z; Z.of_nat a1; Z.of_nat m] =
  if (0 <? a1) && (0 <? m) then Ok (mkTensor [a0; a1; m] (data y))
  else Raise RuntimeError.
Proof.
  intros Hs. rewrite view_time_first, Hs, numel_rank2.
  destruct (Nat.ltb_spec 0 a1) as [Ha|Ha], (Nat.ltb_spec 0 m) as [Hm|Hm];
    simpl;
    try (replace (a1 * m) with 0 by nia; reflexivity).
  assert (Hk : 0 < a1 * m) by nia.
  replace (a0 * a1 * m) with (a0 * (a1 * m)) by lia.
  destruct (div_exact a0 Hk) as [-> ->].
  destruct (Nat.ltb_spec 0 (a1 * m)); [reflexivity|lia].
Qed.

(** C9 (as amended): on a rank-3 input of shape [(a0, a1, f)] the
    time-distributed wrapper around the identity returns its input, same
    shape and same values, in batch-first mode exactly when [a0] and [f] are
    positive and in default mode exactly when [a1] and [f] are positive;
    in the remaining cases a reshape with an inferred size is rejected. *)
Theorem C9_time_distributed_identity {X : Type} (x : Tensor X) (a0 a1 f : nat) :
  shape x = [a0; a1; f] ->
  TimeDistributed.forward (TimeDistributed.mk Identity.mk true) x =
    (if (0 <? a0) && (0 <? f) then Ok x else Raise RuntimeError) /\
  TimeDistributed.forward (TimeDistributed.init Identity.mk) x =
    (if (0 <? a1) && (0 <? f) then Ok x else Raise RuntimeError).
Proof.
  intros Hs.
  assert (Hx : x = mkTensor [a0; a1; f] (data x))
    by (destruct x; simpl in *; congruence).
  split.
  - rewrite (TimeDistributed_rank3 _ x Hs), (view_flatten_rank3 x Hs).
    destruct (Nat.ltb_spec 0 f) as [Hf|Hf]; simpl;
      [|rewrite andb_false_r; reflexivity].
    unfold call, NNModule_Identity, Identity.forward, size, dim. simpl.
    rewrite (@view_restore_batch_first _ (mkTensor [a0 * a1; f] (data x))
               a0 a1 f eq_refl).
    destruct (Nat.ltb_spec 0 f); [|lia]. simpl.
    destruct (0 <? a0); simpl; congruence.
  - rewrite (TimeDistributed_rank3 _ x Hs), (view_flatten_rank3 x Hs).
    destruct (Nat.ltb_spec 0 f) as [Hf|Hf]; simpl;
      [|rewrite andb_false_r; reflexivity].
    unfold call, NNModule_Identity, Identity.forward, size, dim. simpl.
    rewrite (@view_restore_time_first _ (mkTensor [a0 * a1; f] (data x))
               a0 a1 f eq_refl).
    destruct (Nat.ltb_spec 0 f); [|lia]. simpl.
    destruct (0 <? a1); simpl; congruence.
Qed.

Lemma C9_time_distributed_identity_witness :
  TimeDistributed.forward (TimeDistributed.mk Identity.mk true)
    (mkTensor [2; 3; 1] [1; 2; 3; 4; 5; 6]%Z) =
    Ok (mkTensor [2; 3; 1] [1; 2; 3; 4; 5; 6]%Z) /\
  TimeDistributed.forward (TimeDistributed.init Identity.mk)
    (mkTensor [2; 3; 1] [1; 2; 3; 4; 5; 6]%Z) =
    Ok (mkTensor [2; 3; 1] [1; 2; 3; 4; 5; 6]%Z).
Proof.
  exact (C9_time_distributed_identity
           (mkTensor [2; 3; 1] [1; 2; 3; 4; 5; 6]%Z) eq_refl).
Defined.

(** C9 as stated fails on an empty tensor: with a zero-length first axis
    the batch-first restoration asks [view] to infer a size among zero
    elements and is rejected. *)
Lemma C9_counterexample :
  let x : Tensor Z := mkTensor [0; 1; 1] [] in
  dim x = 3 /\
  TimeDistributed.forward (TimeDistributed.mk Identity.mk true) x
    = Raise RuntimeError /\
  TimeDistributed.forward (TimeDistributed.mk Identity.mk true) x <> Ok x.
Proof.
  simpl. split; [reflexivity|]. split; [reflexivity|]. discriminate.
Qed.

(** ** Data flow of the forward pass *)

Lemma for_each_ext {X Y : Type} (f g : X -> result Y) (l : list X) :
  (forall x, In x l -> f x = g x) -> for_each f l = for_each g l.
Proof.
  induction l as [|x l IH]; intros Hfg; simpl; [reflexivity|].
  rewrite (Hfg x) by (left; reflexivity).
  rewrite IH by (intros y Hy; apply Hfg; right; exact Hy).
  reflexivity.
Qed.

Lemma bind_assoc {X Y W : Type} (c : result X) (k : X -> result Y)
    (k' : Y -> result W) :
  bind (bind c k) k' = bind c (fun x => bind (k x) k').
Proof. destruct c; reflexivity. Qed.

Lemma bind_ext {X Y : Type} (c : result X) (k k' : X -> result Y) :
  (forall x, k x = k' x) -> bind c k = bind c k'.
Proof. intros Hk. destruct c; simpl; auto. Qed.

Section ForwardFacts.
Context {A : Type} {S : Scalar A} {An : Analytic A}.
Context {LW AW : Type}.

(** [forward] is the embedding stage, the encoder started from
    [(init_hidden, init_hidden)], the decoder started from the encoder's
    final hidden state in both positions, and the attention stage. *)
Lemma forward_stages {RT : Runtime A LW AW} (self : TFT.t A LW AW)
    (x : TFT.batch A) :
  TFT.forward self x =
  (e <- embed_windows self x ;;
   let '(static_embedding, embeddings_encoder, embeddings_decoder) := e in
   r <- lstm_forward (TFT.lstm_encoder self) embeddings_encoder
          (TFT.init_hidden self, TFT.init_hidden self) ;;
   let '(encoder_output, (hidden, _)) := r in
   r <- lstm_forward (TFT.lstm_decoder self) embeddings_decoder
          (hidden, hidden) ;;
   let '(decoder_output, _) := r in
   attend self static_embedding encoder_output decoder_output).
Proof.
  unfold TFT.forward, embed_windows, attend, TFT.encode, TFT.decode.
  rewrite !bind_assoc. apply bind_ext. intros vectors.
  rewrite !bind_assoc. apply bind_ext. intros static_embedding.
  rewrite !bind_assoc. apply bind_ext. intros window_e.
  rewrite !bind_assoc. apply bind_ext. intros emb_e.
  rewrite !bind_assoc. apply bind_ext. intros window_d.
  rewrite !bind_assoc. apply bind_ext. intros emb_d.
  simpl.
  rewrite !bind_assoc. apply bind_ext. intros [eo [h c]]. simpl.
  rewrite !bind_assoc. apply bind_ext. intros [dout [h' c']]. simpl.
  reflexivity.
Qed.

(** C5: the position-wise feed-forward sub-module is built but never
    called: replacing it, parameters and all, by any other leaves the
    five results of the forward pass (or the exception it raises)
    unchanged, for every input batch. *)
Theorem C5_pos_wise_ff_unused {RT : Runtime A LW AW} (self : TFT.t A LW AW)
    (p : TimeDistributed.t (GatedResidualNetwork.t A)) (x : TFT.batch A) :
  TFT.forward (with_pos_wise_ff self p) x = TFT.forward self x.
Proof. destruct self. reflexivity. Qed.

(** C10: the recurrent layers are always started from a state whose cell
    component is its hidden component.  The forward pass runs the encoder
    from [(zeros, zeros)] and the decoder from [(h, h)], [h] being the
    final hidden state of the encoder; it is unchanged when the recurrent
    primitive only ever sees the hidden component of the initial state,
    and when the final cell state it returns is rewritten arbitrarily. *)
Theorem C10_cell_state_is_hidden_state {RT : Runtime A LW AW}
    (self : TFT.t A LW AW) (x : TFT.batch A) :
  TFT.init_hidden self =
    zeros [TFT.lstm_layers self; TFT.batch_size self; TFT.hidden_size self] /\
  TFT.forward self x =
    (e <- embed_windows self x ;;
     let '(static_embedding, embeddings_encoder, embeddings_decoder) := e in
     r <- lstm_forward (TFT.lstm_encoder self) embeddings_encoder
            (TFT.init_hidden self, TFT.init_hidden self) ;;
     let '(encoder_output, (h, _)) := r in
     r <- lstm_forward (TFT.lstm_decoder self) embeddings_decoder (h, h) ;;
     let '(decoder_output, _) := r in
     attend self static_embedding encoder_output decoder_output) /\
  TFT.forward (RT := cell_from_hidden RT) self x = TFT.forward self x /\
  (forall g : Tensor A -> Tensor A,
     TFT.forward (RT := cell_rewritten RT g) self x = TFT.forward self x).
Proof.
  split; [reflexivity|]. split; [apply forward_stages|]. split.
  - rewrite !forward_stages. reflexivity.
  - intros g. rewrite !forward_stages.
    apply bind_ext. intros [[se ee] ed]. simpl.
    destruct (lstm_forward (TFT.lstm_encoder self) ee
                (TFT.init_hidden self, TFT.init_hidden self))
      as [[eo [h c]]|e]; simpl; [|reflexivity].
    destruct (lstm_forward (TFT.lstm_decoder self) ed (h, h))
      as [[dout [h' c']]|e]; simpl; reflexivity.
Qed.

End ForwardFacts.

(** ** Indexing *)

Lemma normalize_index_of_nat (i n : nat) :
  normalize_index (Z.of_nat i) n = if i <? n then Ok i else Raise IndexError.
Proof.
  unfold normalize_index.
  destruct (Z.ltb_spec (Z.of_nat i) 0); [lia|].
  destruct (Z.leb_spec 0 (Z.of_nat i)); [|lia]. simpl.
  destruct (Z.ltb_spec (Z.of_nat i) (Z.of_nat n)), (Nat.ltb_spec i n);
    try lia; [rewrite Nat2Z.id|]; reflexivity.
Qed.

(** [t[:, 0, i]] on a rank-3 tensor. *)
Lemma getitem_first_step {X : Type} `{Inhabitant X} (t : Tensor X)
    (b tm s i : nat) :
  shape t = [b; tm; s] ->
  getitem t [Full; At 0%Z; At (Z.of_nat i)] =
  if (0 <? tm) && (i <? s)
  then Ok (tabulate [b] (fun idx => get t [nth 0 idx 0; 0; i]))
  else Raise IndexError.
Proof.
  intros Hs. unfold getitem. rewrite Hs. simpl.
  change 0%Z with (Z.of_nat 0). rewrite !normalize_index_of_nat.
  destruct (0 <? tm); simpl; [|reflexivity].
  destruct (i <? s); simpl; [|reflexivity].
  apply f_equal. apply (tabulate_ext [b]). intros idx Hb.
  pose proof (in_bounds_length _ _ Hb) as Hlen.
  destruct idx as [|k [|? ?]]; try discriminate. reflexivity.
Qed.

Section IdentifierFacts.
Context {A : Type} {S : Scalar A} {An : Analytic A}.
Context {LW AW : Type} {RT : Runtime A LW AW}.

(** C6: the forward pass reads the identifier array at time index 0
    only.  Two batches with the same [inputs] whose identifier arrays
    have the same batch-by-time-by-feature shape and agree at time index 0
    give the same result, whatever the identifiers hold at later time
    indices. *)
Theorem C6_identifier_first_step_only (self : TFT.t A LW AW)
    (x x' : TFT.batch A) (b tm s : nat) :
  TFT.inputs x = TFT.inputs x' ->
  shape (TFT.identifier x) = [b; tm; s] ->
  shape (TFT.identifier x') = [b; tm; s] ->
  (forall n i, n < b -> i < s ->
     get (TFT.identifier x) [n; 0; i] = get (TFT.identifier x') [n; 0; i]) ->
  TFT.forward self x = TFT.forward self x'.
Proof.
  intros Hin Hs Hs' Hid. unfold TFT.forward. rewrite Hin.
  f_equal. apply for_each_ext. intros i _.
  apply bind_ext. intros layer.
  rewrite (getitem_first_step _ i Hs), (getitem_first_step _ i Hs').
  destruct (0 <? tm); simpl; [|reflexivity].
  destruct (Nat.ltb_spec i s) as [Hi|Hi]; simpl; [|reflexivity].
  f_equal. f_equal. apply tabulate_ext. intros idx Hb.
  pose proof (in_bounds_length _ _ Hb) as Hlen.
  destruct idx as [|k [|? ?]]; try discriminate. simpl in *.
  apply Hid; [|exact Hi].
  apply Nat.ltb_lt. destruct (k <? b); [reflexivity|discriminate].
Qed.

End IdentifierFacts.

(** ** The quantile loss *)

Lemma broadcast2_raises {X Y W : Type} `{Inhabitant X} `{Inhabitant Y}
    (f : X -> Y -> W) (a : Tensor X) (b : Tensor Y) (e : exn) :
  broadcast2 f a b = Raise e -> e = RuntimeError.
Proof.
  unfold broadcast2, broadcast_shapes.
  assert (Hrev : forall r1 r2 e', broadcast_rev r1 r2 = Raise e' -> e' = RuntimeError).
  { induction r1 as [|d1 r1 IH]; intros [|d2 r2] e' Hr; simpl in Hr;
      try discriminate.
    destruct (broadcast_rev r1 r2) as [rest|e''] eqn:Erest; simpl in Hr.
    - destruct (d1 =? d2); [discriminate|].
      destruct (d1 =? 1); [discriminate|].
      destruct (d2 =? 1); [discriminate|]. congruence.
    - inversion Hr; subst. eapply IH. exact Erest. }
  destruct (broadcast_rev (rev (shape a)) (rev (shape b))) as [r|e'] eqn:Er;
    simpl; [discriminate|].
  intros Hr. inversion Hr; subst. eapply Hrev. exact Er.
Qed.

Section QuantileLossFacts.
Context {A : Type} {S : Scalar A}.

(** With a quantile that passes the check, the loss stops at the first
    [torch.max(..., 0.)]: it raises [TypeError], unless the subtraction
    before it already failed on incompatible shapes. *)
Lemma pytorch_quantile_loss_in_range (y y_pred : Tensor A) (quantile : A) :
  fltb quantile fzero = false -> fltb fone quantile = false ->
  pytorch_quantile_loss y y_pred quantile = Raise TypeError \/
  pytorch_quantile_loss y y_pred quantile = Raise RuntimeError.
Proof.
  intros Hlo Hhi. unfold pytorch_quantile_loss. rewrite Hlo, Hhi. simpl.
  destruct (tsub y y_pred) as [u|e] eqn:Eu; simpl.
  - left. reflexivity.
  - right. unfold tsub in Eu. apply broadcast2_raises in Eu. congruence.
Qed.

Lemma pytorch_quantile_loss_same_shape (y y_pred : Tensor A) (quantile : A) :
  fltb quantile fzero = false -> fltb fone quantile = false ->
  shape y_pred = shape y ->
  pytorch_quantile_loss y y_pred quantile = Raise TypeError.
Proof.
  intros Hlo Hhi Hs. unfold pytorch_quantile_loss. rewrite Hlo, Hhi. simpl.
  unfold tsub. rewrite broadcast2_same by exact Hs. reflexivity.
Qed.

(** The loss never returns a value. *)
Lemma pytorch_quantile_loss_never_returns (y y_pred : Tensor A) (quantile : A) :
  forall loss, pytorch_quantile_loss y y_pred quantile <> Ok loss.
Proof.
  intros loss. unfold pytorch_quantile_loss.
  destruct (fltb quantile fzero || fltb fone quantile); [discriminate|].
  destruct (tsub y y_pred); simpl; discriminate.
Qed.

End QuantileLossFacts.

(** C3 (the code departs from it): on the targets [[1, 3]], the
    predictions [[2, 1]] and the quantile 1/2 the specification asks for
    the row sum [1/2 * 0 + 1/2 * 1 + 1/2 * 2 + 1/2 * 0 = 3/2]; the function
    raises [TypeError] at [torch.max(prediction_underflow, 0.)] and returns
    nothing. *)
Theorem C3_quantile_loss_type_error :
  let y : Tensor Q := mkTensor [1; 2] [1; 3]%Q in
  let y_pred : Tensor Q := mkTensor [1; 2] [2; 1]%Q in
  pytorch_quantile_loss y y_pred (1 # 2)%Q = Raise TypeError /\
  Forall2 Qeq (data (quantile_loss_spec y y_pred (1 # 2)%Q)) [(3 # 2)%Q].
Proof.
  simpl. split; [reflexivity|].
  repeat constructor.
Qed.

(** C4: the loss raises the input-validation error, [ValueError], exactly
    when the quantile lies outside [[0, 1]]; it does so for [-0.1] and for
    [1.1], and for no quantile of [[0, 1]]. *)
Theorem C4_quantile_validation (y y_pred : Tensor R) :
  (forall quantile : R,
     pytorch_quantile_loss y y_pred quantile = Raise ValueError <->
     ~ (0 <= quantile <= 1)%R) /\
  pytorch_quantile_loss y y_pred (- (1 / 10))%R = Raise ValueError /\
  pytorch_quantile_loss y y_pred (11 / 10)%R = Raise ValueError /\
  (forall quantile : R, (0 <= quantile <= 1)%R ->
     pytorch_quantile_loss y y_pred quantile <> Raise ValueError).
Proof.
  assert (Hout : forall q : R, (q < 0 \/ 1 < q)%R ->
            pytorch_quantile_loss y y_pred q = Raise ValueError).
  { intros q Hq. unfold pytorch_quantile_loss. simpl.
    destruct (Rlt_dec q 0); [reflexivity|].
    destruct (Rlt_dec 1 q); [reflexivity|]. lra. }
  assert (Hin : forall q : R, (0 <= q <= 1)%R ->
            pytorch_quantile_loss y y_pred q <> Raise ValueError).
  { intros q Hq.
    destruct (@pytorch_quantile_loss_in_range R _ y y_pred q) as [E|E];
      try (rewrite E; discriminate);
      simpl; [destruct (Rlt_dec q 0)|destruct (Rlt_dec 1 q)];
      try reflexivity; lra. }
  split; [|split; [|split]].
  - intros q. split.
    + intros E Hq. exact (Hin q Hq E).
    + intros Hq. apply Hout.
      destruct (Rlt_dec q 0); [left; assumption|].
      destruct (Rlt_dec 1 q); [right; assumption|].
      exfalso. apply Hq. lra.
  - apply Hout. lra.
  - apply Hout. lra.
  - exact Hin.
Qed.

(** ** The causal mask, entry by entry *)

(** C8: for a positive size [sz] the mask is an [sz x sz] matrix whose entry
    [(i, j)] is minus infinity when [j > i] and zero when [j <= i].  The
    scalars only have to tell one from zero when compared with one. *)
Theorem C8_causal_mask {A : Type} {S : Scalar A} {LW AW : Type}
    (self : TFT.t A LW AW) (sz : nat) :
  feqb fone fone = true -> feqb fzero fone = false -> 0 < sz ->
  exists mask,
    TFT._generate_square_subsequent_mask self sz = Ok mask /\
    shape mask = [sz; sz] /\ wf mask /\
    forall i j, i < sz -> j < sz ->
      get mask [i; j] = if i <? j then NegInf else Finite fzero.
Proof.
  intros H11 H01 Hsz. eexists. split; [apply mask_closed_form; assumption|].
  split; [reflexivity|]. split; [apply wf_tabulate|].
  intros i j Hi Hj. rewrite get_tabulate; [reflexivity|].
  simpl. apply Nat.ltb_lt in Hi, Hj. rewrite Hi, Hj. reflexivity.
Qed.

Lemma C8_causal_mask_witness :
  exists mask,
    TFT._generate_square_subsequent_mask
      (toy_model inject_Z (1 # 100000)%Q 1 5) 4 = Ok mask /\
    shape mask = [4; 4] /\ wf mask /\
    forall i j, i < 4 -> j < 4 ->
      get mask [i; j] = if i <? j then NegInf else Finite 0%Q.
Proof.
  exact (C8_causal_mask (toy_model inject_Z (1 # 100000)%Q 1 5) (sz := 4)
           eq_refl eq_refl (Nat.lt_0_succ 3)).
Defined.

(** ** The fused embedding *)

(** C1 (the code departs from it): on two series of two steps the entry at
    time 0 of the second series must hold the embeddings of that series at
    time 0, code 2 and value 30; [apply_embedding] puts there the embeddings
    of the first series at time 1, code 1 and value 20.  The static part,
    [8], is the one the specification asks for. *)
Theorem C1_apply_embedding_mixes_series :
  let self := toy_model inject_Z (1 # 100000)%Q 2 1 in
  TFT.apply_embedding self two_by_two two_static =
    Ok (mkTensor [2; 2; 3]
          [7; 100; 10;  8; 101; 20;
           7; 102; 30;  8; 103; 40]%Q) /\
  Forall2 Qeq
    (data (fused_embedding_spec self two_by_two two_static))
    [7; 100; 10;  8; 102; 30;
     7; 101; 20;  8; 103; 40]%Q /\
  shape (fused_embedding_spec self two_by_two two_static) = [2; 2; 3] /\
  forall r, TFT.apply_embedding self two_by_two two_static = Ok r ->
    ~ Qeq (get r [0; 1; 2])
          (get (fused_embedding_spec self two_by_two two_static) [0; 1; 2]).
Proof.
  simpl. split; [vm_compute; reflexivity|].
  split; [vm_compute; repeat constructor|].
  split; [reflexivity|].
  intros r Hr. vm_compute in Hr. inversion Hr; subst r.
  vm_compute. discriminate.
Qed.

(** ** Linear layers under the time-distributed wrapper *)

Lemma tabulate_get {X : Type} `{Inhabitant X} (t : Tensor X) :
  wf t -> tabulate (shape t) (get t) = t.
Proof.
  intros Hwf. destruct t as [s d]. unfold wf in Hwf. simpl in *.
  unfold tabulate, get. simpl. f_equal.
  rewrite <- Hwf.
  rewrite (map_ext_in _ (fun k => nth k d inhabitant)).
  - clear Hwf. induction d as [|v d IH]; [reflexivity|].
    simpl. f_equal. rewrite <- seq_shift, map_map. exact IH.
  - intros k Hk. apply in_seq in Hk. rewrite ravel_unravel; [reflexivity|].
    rewrite <- Hwf. lia.
Qed.

Section LinearFacts.
Context {A : Type} {S : Scalar A}.

Lemma Linear_forward_rank2 (l : Linear.t A) (x : Tensor A) (n f : nat) :
  shape x = [n; f] ->
  Linear.forward l x =
  if f =? Linear.in_features l
  then Ok (tabulate [n; Linear.out_features l] (Linear.entry l x))
  else Raise RuntimeError.
Proof. intros Hs. unfold Linear.forward. rewrite Hs. reflexivity. Qed.

End LinearFacts.

Lemma size_last_app {X : Type} (t : Tensor X) (pre : list nat) (f : nat) :
  shape t = pre ++ [f] -> size t (-1) = Ok f.
Proof.
  intros Hs. unfold size, dim, normalize_index. rewrite Hs, length_app.
  cbn [length Z.ltb Z.compare]. 
  replace (Z.of_nat (length pre + 1)) with (Z.of_nat (length pre) + 1)%Z by lia.
  destruct (Z.leb_spec 0 (-1 + (Z.of_nat (length pre) + 1))); [|lia].
  destruct (Z.ltb_spec (-1 + (Z.of_nat (length pre) + 1)) (Z.of_nat (length pre) + 1)); [|lia].
  cbn [andb bind].
  replace (Z.to_nat (-1 + (Z.of_nat (length pre) + 1))) with (length pre) by lia.
  rewrite nth_middle. reflexivity.
Qed.

Lemma size_second_app {X : Type} (t : Tensor X) (pre : list nat) (f : nat) :
  shape t = pre ++ [f] -> 2 <= length pre -> size t 1 = Ok (nth 1 pre 0).
Proof.
  intros Hs Hlen. unfold size, dim. rewrite Hs, length_app.
  change 1%Z with (Z.of_nat 1). rewrite normalize_index_of_nat.
  replace (1 <? length pre + length [f]) with true
    by (symmetry; apply Nat.ltb_lt; simpl; lia).
  cbn [bind]. rewrite app_nth1 by lia. reflexivity.
Qed.

Section LinearAnyRank.
Context {A : Type} {S : Scalar A}.

Lemma Linear_forward_app (l : Linear.t A) (x : Tensor A) (pre : list nat) (f : nat) :
  shape x = pre ++ [f] ->
  Linear.forward l x =
  if f =? Linear.in_features l
  then Ok (tabulate (pre ++ [Linear.out_features l]) (Linear.entry l x))
  else Raise RuntimeError.
Proof.
  intros Hs. unfold Linear.forward. rewrite Hs, rev_app_distr.
  cbn [rev app]. rewrite rev_involutive. reflexivity.
Qed.

(** A linear layer under the wrapper in default mode, on an input of any
    rank above two. *)
Lemma TimeDistributed_Linear_default (self : TimeDistributed.t (Linear.t A))
    (x : Tensor A) (pre : list nat) (f : nat) :
  TimeDistributed.batch_first self = false ->
  shape x = pre ++ [f] -> 2 <= length pre ->
  let l := TimeDistributed.module self in
  TimeDistributed.forward self x =
  if (0 <? f) && (f =? Linear.in_features l)
  then view (tabulate [numel pre; Linear.out_features l]
               (Linear.entry l (mkTensor [numel pre; f] (data x))))
            [(-1)%Z; Z.of_nat (nth 1 pre 0); Z.of_nat (Linear.out_features l)]
  else Raise RuntimeError.
Proof.
  intros Hbf Hs Hlen l. unfold TimeDistributed.forward, contiguous.
  replace (dim x <=? 2) with false
    by (symmetry; apply Nat.leb_gt; unfold dim; rewrite Hs, length_app;
        simpl; lia).
  rewrite (size_last_app x pre f Hs). cbn [bind].
  rewrite view_flatten, Hs, numel_app. cbn [numel fold_right].
  rewrite Nat.mul_1_r.
  destruct (Nat.ltb_spec 0 f) as [Hf|Hf]; cbn [andb bind]; [|reflexivity].
  destruct (div_exact (numel pre) Hf) as [-> ->]. cbn [Nat.eqb bind].
  unfold call, NNModule_Linear.
  rewrite (@Linear_forward_rank2 _ _ _ (mkTensor [numel pre; f] (data x))
             (numel pre) f eq_refl).
  fold l. destruct (f =? Linear.in_features l); cbn [bind]; [|reflexivity].
  rewrite Hbf. rewrite (size_second_app x pre f Hs Hlen). cbn [bind].
  unfold size, dim. cbn [shape tabulate length normalize_index].
  reflexivity.
Qed.

End LinearAnyRank.

(** ** The gated residual network and its context *)

Lemma fold_left_Rplus_zeros (l : list R) :
  Forall (fun v => v = 0%R) l -> fold_left Rplus l 0%R = 0%R.
Proof.
  induction 1 as [|v l Hv _ IH]; simpl; [reflexivity|].
  subst v. rewrite Rplus_0_l. exact IH.
Qed.

Lemma nth_zeros (s : list nat) (k : nat) :
  nth k (data (zeros (A := R) s)) 0%R = 0%R.
Proof. unfold zeros, full. simpl. apply nth_repeat. Qed.

(** A linear layer maps an all-zero input to its bias. *)
Lemma Linear_entry_zero_input (l : Linear.t R) (z : Tensor R) (idx : list nat) :
  (forall k, nth k (data z) 0%R = 0%R) ->
  Linear.entry l z idx = get (Linear.bias l) [last idx 0].
Proof.
  intros Hz. unfold Linear.entry, Linear.dot. simpl.
  rewrite fold_left_Rplus_zeros; [apply Rplus_0_l|].
  apply Forall_forall. intros v Hv. apply in_map_iff in Hv.
  destruct Hv as (k & <- & _). unfold get.
  change (@inhabitant R _) with 0%R. rewrite Hz. apply Rmult_0_l.
Qed.

Lemma last_unravel_rank2 (n m k : nat) :
  0 < m -> last (unravel [n; m] k) 0 < m.
Proof.
  intros Hm. cbn [unravel last numel fold_right].
  rewrite Nat.mul_1_r, Nat.div_1_r.
  apply Nat.mod_upper_bound. lia.
Qed.

(** Adding a tensor of zeros of the same shape changes nothing. *)
Lemma tadd_zero_r (v c : Tensor R) :
  wf v -> shape c = shape v ->
  (forall idx, in_bounds (shape v) idx = true -> get c idx = 0%R) ->
  tadd v c = Ok v.
Proof.
  intros Hwf Hs Hc. unfold tadd. rewrite broadcast2_same by exact Hs.
  f_equal. rewrite <- (tabulate_get Hwf) at 2.
  apply tabulate_ext. intros idx Hb. rewrite (Hc idx Hb). apply Rplus_0_r.
Qed.

Lemma Ok_inj {X : Type} (a b : X) : Ok a = Ok b -> a = b.
Proof. intros E. injection E as E. exact E. Qed.

Lemma in_bounds_last (pre : list nat) (m : nat) :
  forall idx, in_bounds (pre ++ [m]) idx = true -> last idx 0 < m.
Proof.
  induction pre as [|d pre IH]; intros [|i idx] Hb; simpl in Hb;
    try discriminate.
  - destruct idx; [|rewrite andb_false_r in Hb; discriminate].
    apply andb_prop in Hb. destruct Hb as [Hi _]. apply Nat.ltb_lt in Hi.
    exact Hi.
  - apply andb_prop in Hb. destruct Hb as [_ Hb].
    specialize (IH idx Hb).
    destruct idx as [|j idx]; [|exact IH].
    destruct pre; simpl in Hb; discriminate.
Qed.

Lemma TimeDistributed_low_rank {M X Y : Type} `{NNModule M X Y}
    (self : TimeDistributed.t M) (x : Tensor X) :
  dim x <= 2 ->
  TimeDistributed.forward self x = call (TimeDistributed.module self) x.
Proof.
  intros Hd. unfold TimeDistributed.forward.
  replace (dim x <=? 2) with true by (symmetry; apply Nat.leb_le; exact Hd).
  reflexivity.
Qed.

(** What the zero context adds to the output of the first layer. *)
Lemma zero_context_adds_nothing (fc1 layer : TimeDistributed.t (Linear.t R))
    (x v : Tensor R) (i o c : nat) :
  is_linear false i o fc1 -> is_linear false c o layer -> 0 < c ->
  (forall k, k < o ->
     get (Linear.bias (TimeDistributed.module layer)) [k] = 0%R) ->
  TimeDistributed.forward fc1 x = Ok v ->
  (cv <- TimeDistributed.forward layer
           (zeros (removelast (shape x) ++ [c])) ;;
   tadd v cv) = Ok v.
Proof.
  intros (Hbf1 & Hin1 & Hout1) (Hbfc & Hinc & Houtc) Hc Hbias Hv.
  set (l1 := TimeDistributed.module fc1) in *.
  set (lc := TimeDistributed.module layer) in *.
  destruct (list_eq_dec Nat.eq_dec (shape x) []) as [Hs|Hne].
  - (* rank 0: the first layer rejects the input *)
    rewrite TimeDistributed_low_rank in Hv by (unfold dim; rewrite Hs; simpl; lia).
    unfold call, NNModule_Linear, Linear.forward in Hv. rewrite Hs in Hv.
    discriminate.
  - destruct (exists_last Hne) as (pre & f & Hs).
    rewrite Hs, removelast_last.
    set (z := zeros (A := R) (pre ++ [c])).
    assert (Hz : shape z = pre ++ [c]) by reflexivity.
    assert (Hzero : forall k, nth k (data z) 0%R = 0%R)
      by (intros k; apply nth_zeros).
    destruct (Nat.le_gt_cases (length pre) 1) as [Hlow|Hhigh].
    + (* ranks 1 and 2: the layers are applied directly *)
      rewrite TimeDistributed_low_rank in Hv
        by (unfold dim; rewrite Hs, length_app; simpl; lia).
      rewrite TimeDistributed_low_rank
        by (unfold dim; rewrite Hz, length_app; simpl; lia).
      unfold call, NNModule_Linear in *.
      rewrite (Linear_forward_app _ x pre f Hs) in Hv.
      rewrite (Linear_forward_app _ z pre c Hz).
      fold l1 in Hv. fold lc. rewrite Hinc, Nat.eqb_refl. cbn [bind].
      destruct (f =? Linear.in_features l1); [|discriminate].
      apply Ok_inj in Hv. subst v. rewrite Houtc, Hout1.
      apply tadd_zero_r; [apply wf_tabulate|reflexivity|].
      cbn [shape tabulate]. intros idx Hb. rewrite get_tabulate by exact Hb.
      rewrite Linear_entry_zero_input by exact Hzero.
      apply Hbias. apply (in_bounds_last _ _ _ Hb).
    + (* higher ranks: both layers flatten and restore *)
      rewrite (TimeDistributed_Linear_default fc1 x pre f Hbf1 Hs Hhigh) in Hv.
      rewrite (TimeDistributed_Linear_default layer z pre c Hbfc Hz Hhigh).
      fold l1 in Hv. fold lc. rewrite Hinc, Nat.eqb_refl.
      replace (0 <? c) with true by (symmetry; apply Nat.ltb_lt; exact Hc).
      cbn [andb].
      destruct ((0 <? f) && (f =? Linear.in_features l1)); [|discriminate].
      rewrite Houtc. rewrite Hout1 in Hv.
      rewrite view_time_first in Hv |- *. cbn [shape tabulate] in Hv |- *.
      destruct ((0 <? nth 1 pre 0 * o)
                && (numel [numel pre; o] mod (nth 1 pre 0 * o) =? 0))
        eqn:Hcond; [|discriminate].
      apply Ok_inj in Hv. subst v. cbn [bind].
      apply andb_prop in Hcond. destruct Hcond as [Hpos Hmod].
      apply Nat.ltb_lt in Hpos. apply Nat.eqb_eq in Hmod.
      assert (Hnumel : numel [numel [numel pre; o] / (nth 1 pre 0 * o);
                              nth 1 pre 0; o] = numel [numel pre; o]).
      { pose proof (Nat.div_mod_eq (numel [numel pre; o]) (nth 1 pre 0 * o)) as E.
        rewrite Hmod in E. cbn [numel fold_right] in *. nia. }
      apply tadd_zero_r.
      * unfold wf. cbn [shape data tabulate].
        rewrite length_map, length_seq. symmetry. exact Hnumel.
      * reflexivity.
      * cbn [shape]. intros idx Hb. unfold get. cbn [shape].
        change (@inhabitant R _) with 0%R.
        pose proof (ravel_lt _ _ Hb) as Hlt. rewrite Hnumel in Hlt.
        pose proof (@nth_tabulate R _ [numel pre; o]
                      (Linear.entry lc (mkTensor [numel pre; c] (data z)))
                      _ Hlt) as Hnth.
        change (@inhabitant R _) with 0%R in Hnth.
        cbn [data] in Hnth |- *. rewrite Hnth.
        rewrite Linear_entry_zero_input by exact Hzero.
        apply Hbias. apply last_unravel_rank2. nia.
Qed.


(** C2 (as amended): a network built with a context layer of positive
    width whose bias is zero gives, on every input [x], the same result with
    the all-zero context that has the leading axes of [x] as with no
    context. *)
Theorem C2_zero_context_with_zero_bias (grn : GatedResidualNetwork.t R)
    (i o c : nat) (x : Tensor R) :
  grn_constructed i o (Some c) grn -> 0 < c ->
  (forall layer, GatedResidualNetwork.context grn = Some layer ->
     forall k, k < o ->
       get (Linear.bias (TimeDistributed.module layer)) [k] = 0%R) ->
  GatedResidualNetwork.forward grn x
    (Some (zeros (removelast (shape x) ++ [c]))) =
  GatedResidualNetwork.forward grn x None.
Proof.
  intros (_ & _ & _ & Hfc1 & Hctx & _) Hc Hbias.
  unfold GatedResidualNetwork.forward.
  destruct (GatedResidualNetwork.context grn) as [layer|]; [|contradiction].
  unfold call at 1 6, NNModule_TimeDistributed.
  destruct (TimeDistributed.forward (GatedResidualNetwork.fc1 grn) x)
    as [v|e] eqn:Hv; cbn [bind]; [|reflexivity].
  unfold call at 1, NNModule_TimeDistributed.
  rewrite (zero_context_adds_nothing x Hfc1 Hctx Hc (Hbias layer eq_refl) Hv).
  reflexivity.
Qed.

Lemma C2_zero_context_with_zero_bias_witness :
  let grn := toy_grn IZR (1 / 100000)%R
               (Some (TimeDistributed.init (toy_linear IZR 1 0))) in
  GatedResidualNetwork.forward grn (mkTensor [1; 1; 1] [1%R])
    (Some (zeros [1; 1; 1])) =
  GatedResidualNetwork.forward grn (mkTensor [1; 1; 1] [1%R]) None.
Proof.
  intros grn.
  apply (@C2_zero_context_with_zero_bias grn 1 1 1 (mkTensor [1; 1; 1] [1%R])).
  - unfold grn_constructed, is_linear. cbn -[IZR Rdiv].
    repeat split; reflexivity.
  - apply Nat.lt_0_1.
  - intros layer E k Hk. apply (f_equal (fun o => match o with
                                                  | Some l => l
                                                  | None => layer
                                                  end)) in E.
    cbn in E. subst layer.
    destruct k as [|k]; [reflexivity|].
    exfalso. exact (Nat.nlt_0_r _ (proj2 (Nat.succ_lt_mono _ _) Hk)).
Defined.

(** C2 as stated fails: the context layer is affine, so an all-zero context
    still contributes the bias of that layer.  With weight 1 and bias 1 in
    the context layer, the input [1] gives [2 / sqrt (1 + eps)] with the
    zero context and [(3/2) / sqrt (1 + eps)] without context. *)
Lemma C2_counterexample :
  let grn := toy_enrichment IZR (1 / 100000)%R in
  let x := mkTensor [1; 1; 1] [1%R] in
  GatedResidualNetwork.forward grn x (Some (zeros [1; 1; 1])) <>
  GatedResidualNetwork.forward grn x None.
Proof.
  cbv -[Rplus Rmult Ropp Rminus Rdiv Rinv exp sqrt IZR Rlt_dec Req_dec_T].
  intros E. injection E as E.
  destruct (Rlt_dec 0 (0 + 1 * 1 + 0 + (0 + 0 * 1 + 1))) as [_|Hn]; [|lra].
  destruct (Rlt_dec 0 (0 + 1 * 1 + 0)) as [_|Hn]; [|lra].
  repeat match type of E with
  | context [exp ?a] => replace a with 0%R in E by lra; rewrite exp_0 in E
  end.
  assert (Hs : (0 < / sqrt (1 + 1 / 100000))%R).
  { apply Rinv_0_lt_compat. apply sqrt_lt_R0. lra. }
  unfold Rdiv in *.
  set (i := (/ sqrt (1 + 1 * / 100000))%R) in *. clearbody i.
  replace (/ (1 + 1))%R with (/ 2)%R in E by (f_equal; lra).
  lra.
Qed.

(** ** Shapes through the forward pass *)

Lemma for_each_Forall {X Y : Type} (body : X -> result Y) (P : Y -> Prop)
    (l : list X) :
  (forall x, In x l -> exists y, body x = Ok y /\ P y) ->
  exists ys, for_each body l = Ok ys /\ Forall P ys /\ length ys = length l.
Proof.
  induction l as [|x l IH]; intros Hbody; simpl.
  - exists []. auto.
  - destruct (Hbody x (or_introl eq_refl)) as (y & Ey & Py).
    destruct IH as (ys & Eys & Pys & Hlen);
      [intros x' Hx'; apply Hbody; right; exact Hx'|].
    rewrite Ey, Eys. simpl. exists (y :: ys).
    split; [reflexivity|]. split; [constructor; assumption|].
    simpl. congruence.
Qed.

Lemma list_item_lt {X : Type} (l : list X) (i : nat) :
  i < length l -> exists x, list_item l i = Ok x /\ nth_error l i = Some x.
Proof.
  intros Hi. unfold list_item.
  destruct (nth_error l i) as [x|] eqn:E.
  - exists x. auto.
  - apply nth_error_None in E. lia.
Qed.

Lemma forallb_tabulate {X : Type} (p : X -> bool) (s : list nat)
    (F : list nat -> X) :
  (forall idx, in_bounds s idx = true -> p (F idx) = true) ->
  forallb p (data (tabulate s F)) = true.
Proof.
  intros Hp. unfold tabulate. cbn [data]. apply forallb_forall.
  intros v Hv. apply in_map_iff in Hv. destruct Hv as (k & <- & Hk).
  apply in_seq in Hk. apply Hp. apply unravel_in_bounds. lia.
Qed.

(** *** Concatenation *)

Lemma cat_total_uniform {X : Type} (ts : list (Tensor X)) (s : list nat) (d : nat) :
  Forall (fun t => shape t = s) ts ->
  fold_right (fun t acc => nth d (shape t) 0 + acc) 0 ts
  = length ts * nth d s 0.
Proof.
  induction 1 as [|t ts Ht _ IH]; simpl; [reflexivity|].
  rewrite IH, Ht. reflexivity.
Qed.

Lemma cat_uniform {X : Type} `{Inhabitant X} (ts : list (Tensor X))
    (s : list nat) (d : nat) :
  ts <> [] -> d < length s -> Forall (fun t => shape t = s) ts ->
  exists r, cat ts d = Ok r /\
            shape r = replace_nth s d (length ts * nth d s 0).
Proof.
  intros Hne Hd Hall. destruct ts as [|t0 rest]; [congruence|].
  pose proof (Forall_inv Hall) as H0. unfold cat, dim.
  rewrite H0. replace (d <? length s) with true
    by (symmetry; apply Nat.ltb_lt; exact Hd).
  replace (forallb (cat_compatible d t0) (t0 :: rest)) with true.
  - cbn [andb]. eexists. split; [reflexivity|].
    rewrite shape_tabulate. f_equal. apply cat_total_uniform. exact Hall.
  - symmetry. apply forallb_forall. intros t Ht.
    unfold cat_compatible. rewrite Forall_forall in Hall.
    rewrite (Hall t Ht), H0. apply list_eqb_refl.
Qed.

Lemma cat_repeat {X : Type} `{Inhabitant X} (t : Tensor X) (n a b : nat) :
  0 < n -> shape t = [a; b] ->
  exists r, cat (repeat t n) 0 = Ok r /\ shape r = [n * a; b].
Proof.
  intros Hn Hs.
  destruct (@cat_uniform X _ (repeat t n) [a; b] 0) as (r & Er & Sr).
  - destruct n; [lia|discriminate].
  - simpl. lia.
  - apply Forall_forall. intros t' Ht'. apply repeat_spec in Ht'. congruence.
  - exists r. split; [exact Er|]. rewrite Sr, repeat_length. reflexivity.
Qed.

Lemma cat_last3 {X : Type} `{Inhabitant X} (t1 t2 t3 : Tensor X)
    (a b c1 c2 c3 : nat) :
  shape t1 = [a; b; c1] -> shape t2 = [a; b; c2] -> shape t3 = [a; b; c3] ->
  exists r, cat [t1; t2; t3] 2 = Ok r /\ shape r = [a; b; c1 + (c2 + (c3 + 0))].
Proof.
  intros H1 H2 H3. unfold cat, cat_compatible, dim.
  cbn [forallb]. rewrite H1, H2, H3.
  cbn [length Nat.ltb Nat.leb replace_nth].
  rewrite list_eqb_refl. cbn [andb].
  eexists. split; [reflexivity|].
  rewrite shape_tabulate. cbn [fold_right nth]. rewrite H1, H2, H3. reflexivity.
Qed.

Lemma cat_first2 {X : Type} `{Inhabitant X} (t1 t2 : Tensor X)
    (n1 n2 b h : nat) :
  shape t1 = [n1; b; h] -> shape t2 = [n2; b; h] ->
  exists r, cat [t1; t2] 0 = Ok r /\ shape r = [n1 + (n2 + 0); b; h].
Proof.
  intros H1 H2. unfold cat, cat_compatible, dim.
  cbn [forallb]. rewrite H1, H2.
  cbn [length Nat.ltb Nat.leb replace_nth].
  rewrite list_eqb_refl. cbn [andb].
  eexists. split; [reflexivity|].
  rewrite shape_tabulate. cbn [fold_right nth]. rewrite H1, H2. reflexivity.
Qed.

(** *** Slices *)

Lemma clamp_slice_of_nat (i d : nat) : clamp_slice (Z.of_nat i) d = Nat.min i d.
Proof.
  unfold clamp_slice. destruct (Z.ltb_spec (Z.of_nat i) 0); lia.
Qed.

(** [t[:, :, i]] *)
Lemma getitem_column {X : Type} `{Inhabitant X} (t : Tensor X) (a b c i : nat) :
  shape t = [a; b; c] -> i < c ->
  getitem t [Full; Full; At (Z.of_nat i)] =
  Ok (tabulate [a; b] (fun idx => get t [nth 0 idx 0; nth 1 idx 0; i])).
Proof.
  intros Hs Hi. unfold getitem. rewrite Hs.
  cbn [select_axes select_axis bind]. rewrite normalize_index_of_nat.
  replace (i <? c) with true by (symmetry; apply Nat.ltb_lt; exact Hi).
  cbn [bind]. apply f_equal. apply (tabulate_ext [a; b]). intros idx Hb.
  pose proof (in_bounds_length _ _ Hb) as Hlen.
  destruct idx as [|i0 [|i1 [|? ?]]]; try discriminate. reflexivity.
Qed.

(** [t[:, :n, :]] and [t[:, n:, :]] *)
Lemma getitem_steps_upto {X : Type} `{Inhabitant X} (t : Tensor X)
    (a b c n : nat) :
  shape t = [a; b; c] -> n <= b ->
  getitem t [Full; UpTo (Z.of_nat n); Full] =
  Ok (tabulate [a; n; c] (fun idx =>
        get t [nth 0 idx 0; nth 1 idx 0; nth 2 idx 0])).
Proof.
  intros Hs Hn. unfold getitem. rewrite Hs.
  cbn [select_axes select_axis bind]. rewrite clamp_slice_of_nat.
  rewrite Nat.min_l by exact Hn.
  apply f_equal. apply (tabulate_ext [a; n; c]). intros idx Hb.
  pose proof (in_bounds_length _ _ Hb) as Hlen.
  destruct idx as [|i0 [|i1 [|i2 [|? ?]]]]; try discriminate. reflexivity.
Qed.

Lemma getitem_steps_from {X : Type} `{Inhabitant X} (t : Tensor X)
    (a b c n : nat) :
  shape t = [a; b; c] -> n <= b ->
  getitem t [Full; From (Z.of_nat n); Full] =
  Ok (tabulate [a; b - n; c] (fun idx =>
        get t [nth 0 idx 0; n + nth 1 idx 0; nth 2 idx 0])).
Proof.
  intros Hs Hn. unfold getitem. rewrite Hs.
  cbn [select_axes select_axis bind]. rewrite clamp_slice_of_nat.
  rewrite Nat.min_l by exact Hn.
  apply f_equal. apply (tabulate_ext [a; b - n; c]). intros idx Hb.
  pose proof (in_bounds_length _ _ Hb) as Hlen.
  destruct idx as [|i0 [|i1 [|i2 [|? ?]]]]; try discriminate. reflexivity.
Qed.

(** [t[n:, :, :]] *)
Lemma getitem_rows_from {X : Type} `{Inhabitant X} (t : Tensor X)
    (a b c n : nat) :
  shape t = [a; b; c] -> n <= a ->
  exists r, getitem t [From (Z.of_nat n); Full; Full] = Ok r /\
            shape r = [a - n; b; c].
Proof.
  intros Hs Hn. unfold getitem. rewrite Hs.
  cbn [select_axes select_axis bind]. rewrite clamp_slice_of_nat.
  rewrite Nat.min_l by exact Hn.
  eexists. split; reflexivity.
Qed.

(** *** Layers under the time-distributed wrapper *)

Lemma view_regroup_batch_first {X : Type} (y : Tensor X) (a0 a1 m : nat) :
  numel (shape y) = a0 * a1 * m -> 0 < a0 -> 0 < m ->
  view y [Z.of_nat a0; (-1)%Z; Z.of_nat m] = Ok (mkTensor [a0; a1; m] (data y)).
Proof.
  intros Hn Ha Hm. rewrite view_batch_first, Hn.
  assert (Hk : 0 < a0 * m) by nia.
  replace (a0 * a1 * m) with (a1 * (a0 * m)) by lia.
  destruct (div_exact a1 Hk) as [-> ->].
  destruct (Nat.ltb_spec 0 (a0 * m)); [reflexivity|lia].
Qed.

Lemma view_regroup_time_first {X : Type} (y : Tensor X) (a0 a1 m : nat) :
  numel (shape y) = a0 * a1 * m -> 0 < a1 -> 0 < m ->
  view y [(-1)%Z; Z.of_nat a1; Z.of_nat m] = Ok (mkTensor [a0; a1; m] (data y)).
Proof.
  intros Hn Ha Hm. rewrite view_time_first, Hn.
  assert (Hk : 0 < a1 * m) by nia.
  replace (a0 * a1 * m) with (a0 * (a1 * m)) by lia.
  destruct (div_exact a0 Hk) as [-> ->].
  destruct (Nat.ltb_spec 0 (a1 * m)); [reflexivity|lia].
Qed.

Lemma view_regroup_last {X : Type} (y : Tensor X) (a0 a1 m : nat) :
  numel (shape y) = a0 * a1 * m -> 0 < a0 -> 0 < a1 ->
  view y [Z.of_nat a0; Z.of_nat a1; (-1)%Z] = Ok (mkTensor [a0; a1; m] (data y)).
Proof.
  intros Hn Ha0 Ha1. rewrite view_last, Hn.
  assert (Hk : 0 < a0 * a1) by nia.
  replace (a0 * a1 * m) with (m * (a0 * a1)) by lia.
  destruct (div_exact m Hk) as [-> ->].
  destruct (Nat.ltb_spec 0 (a0 * a1)); [reflexivity|lia].
Qed.

(** A wrapped layer that turns the [a0 * a1] flattened rows into
    [a0 * a1 * m] elements with a last axis of length [m] yields a tensor of
    shape [(a0, a1, m)], in both restoration modes. *)
Lemma TimeDistributed_shape {M X Y : Type} `{NNModule M X Y}
    (self : TimeDistributed.t M) (x : Tensor X) (a0 a1 f m : nat) :
  shape x = [a0; a1; f] -> 0 < a0 -> 0 < a1 -> 0 < f -> 0 < m ->
  (exists y, call (TimeDistributed.module self) (mkTensor [a0 * a1; f] (data x)) = Ok y /\
             size y (-1) = Ok m /\ numel (shape y) = a0 * a1 * m) ->
  exists r, TimeDistributed.forward self x = Ok r /\ shape r = [a0; a1; m].
Proof.
  intros Hs Ha0 Ha1 Hf Hm (y & Ey & Sy & Ny).
  rewrite (TimeDistributed_rank3 self x Hs), (view_flatten_rank3 x Hs).
  replace (0 <? f) with true by (symmetry; apply Nat.ltb_lt; exact Hf).
  cbn [bind]. rewrite Ey. cbn [bind]. rewrite Sy. cbn [bind].
  destruct (TimeDistributed.batch_first self).
  - rewrite (view_regroup_batch_first y a1 Ny Ha0 Hm). eexists. split; reflexivity.
  - rewrite (view_regroup_time_first y a0 Ny Ha1 Hm). eexists. split; reflexivity.
Qed.

Lemma size_last_rank2 {X : Type} (t : Tensor X) (a b : nat) :
  shape t = [a; b] -> size t (-1) = Ok b.
Proof. intros Hs. unfold size, dim. rewrite Hs. reflexivity. Qed.

Lemma size_last_rank3 {X : Type} (t : Tensor X) (a b c : nat) :
  shape t = [a; b; c] -> size t (-1) = Ok c.
Proof. intros Hs. unfold size, dim. rewrite Hs. reflexivity. Qed.

Section LayerShapes.
Context {A : Type} {S : Scalar A}.

Lemma TimeDistributed_Linear_shape (self : TimeDistributed.t (Linear.t A))
    (x : Tensor A) (bf : bool) (a0 a1 f m : nat) :
  is_linear bf f m self ->
  shape x = [a0; a1; f] -> 0 < a0 -> 0 < a1 -> 0 < f -> 0 < m ->
  exists r, call self x = Ok r /\ shape r = [a0; a1; m].
Proof.
  intros (_ & Hin & Hout) Hs Ha0 Ha1 Hf Hm.
  apply (TimeDistributed_shape self x Hs Ha0 Ha1 Hf Hm).
  unfold call, NNModule_Linear.
  rewrite (@Linear_forward_rank2 _ _ _ (mkTensor [a0 * a1; f] (data x))
             (a0 * a1) f eq_refl).
  rewrite Hin, Nat.eqb_refl, Hout. eexists. split; [reflexivity|].
  split; [reflexivity|]. rewrite shape_tabulate. simpl. lia.
Qed.

(** An embedding table applied to every position of a column of codes. *)
Lemma TimeDistributed_Embedding_shape
    (self : TimeDistributed.t (Embedding.t A)) (x : Tensor Z) (a0 a1 : nat) :
  shape x = [a0; a1; 1] -> 0 < a0 -> 0 < a1 ->
  0 < Embedding.embedding_dim (TimeDistributed.module self) ->
  forallb (Embedding.valid_code (TimeDistributed.module self)) (data x) = true ->
  exists r, call self x = Ok r /\
            shape r = [a0; a1; Embedding.embedding_dim (TimeDistributed.module self)].
Proof.
  intros Hs Ha0 Ha1 He Hvalid.
  apply (TimeDistributed_shape self x Hs Ha0 Ha1 Nat.lt_0_1 He).
  unfold call, NNModule_Embedding, Embedding.forward.
  cbn [data shape]. rewrite Hvalid. eexists. split; [reflexivity|].
  rewrite shape_tabulate. split.
  - unfold size, dim. rewrite shape_tabulate. reflexivity.
  - simpl. lia.
Qed.

End LayerShapes.

Lemma tadd_same_shape {A : Type} {S : Scalar A} (a b : Tensor A) :
  shape b = shape a -> exists r, tadd a b = Ok r /\ shape r = shape a.
Proof.
  intros Hs. unfold tadd. rewrite broadcast2_same by exact Hs.
  eexists. split; reflexivity.
Qed.

Section NetworkShapes.
Context {A : Type} {S : Scalar A} {An : Analytic A}.

Lemma GLU_forward_rank2 (glu : GLU.t A) (x : Tensor A) (n h : nat) :
  shape x = [n; h] ->
  Linear.in_features (GLU.fc1 glu) = h -> Linear.out_features (GLU.fc1 glu) = h ->
  Linear.in_features (GLU.fc2 glu) = h -> Linear.out_features (GLU.fc2 glu) = h ->
  exists y, GLU.forward glu x = Ok y /\ shape y = [n; h].
Proof.
  intros Hs Hi1 Ho1 Hi2 Ho2. unfold GLU.forward, call, NNModule_Linear.
  rewrite !(Linear_forward_rank2 _ x Hs).
  rewrite Hi1, Hi2, Ho1, Ho2, Nat.eqb_refl. cbn [bind].
  unfold tmul. rewrite broadcast2_same by reflexivity.
  eexists. split; reflexivity.
Qed.

Lemma BatchNorm1d_forward_rank2 (bn : BatchNorm1d.t A) (x : Tensor A) (n h : nat) :
  shape x = [n; h] -> BatchNorm1d.num_features bn = h ->
  exists y, BatchNorm1d.forward bn x = Ok y /\ shape y = [n; h].
Proof.
  intros Hs Hf. unfold BatchNorm1d.forward, dim. rewrite Hs, Hf.
  cbn [length nth Nat.eqb orb]. rewrite Nat.eqb_refl.
  eexists. split; reflexivity.
Qed.

(** The static-enrichment network keeps the shape of its input. *)
Lemma GatedResidualNetwork_shape (grn : GatedResidualNetwork.t A)
    (x ctx : Tensor A) (h c a0 a1 : nat) :
  grn_constructed h h (Some c) grn ->
  shape x = [a0; a1; h] -> shape ctx = [a0; a1; c] ->
  0 < a0 -> 0 < a1 -> 0 < h -> 0 < c ->
  exists r, GatedResidualNetwork.forward grn x (Some ctx) = Ok r /\
            shape r = [a0; a1; h].
Proof.
  intros (_ & _ & _ & Hfc1 & Hctx & Hfc2 & _ & Hbn & _ & Hg1 & Hg2 & Hg3 & Hg4)
         Hx Hc Ha0 Ha1 Hh Hcpos.
  unfold GatedResidualNetwork.forward.
  destruct (TimeDistributed_Linear_shape x Hfc1 Hx Ha0 Ha1 Hh Hh)
    as (v & -> & Sv).
  cbn [bind].
  destruct (GatedResidualNetwork.context grn) as [layer|]; [|contradiction].
  destruct (TimeDistributed_Linear_shape ctx Hctx Hc Ha0 Ha1 Hcpos Hh)
    as (cv & -> & Scv).
  cbn [bind].
  destruct (@tadd_same_shape _ _ v cv) as (s1 & -> & Ss1); [congruence|].
  cbn [bind].
  assert (Se : shape (ELU.forward (GatedResidualNetwork.elu1 grn) s1)
               = [a0; a1; h]) by (unfold ELU.forward, tmap; simpl; congruence).
  destruct (TimeDistributed_Linear_shape _ Hfc2 Se Ha0 Ha1 Hh Hh)
    as (v2 & -> & Sv2).
  cbn [bind]. unfold Dropout.forward.
  destruct (@TimeDistributed_shape _ _ _ _ (GatedResidualNetwork.gate grn)
              v2 a0 a1 h h Sv2 Ha0 Ha1 Hh Hh) as (g & Eg & Sg).
  { destruct (@GLU_forward_rank2
                (TimeDistributed.module (GatedResidualNetwork.gate grn))
                (mkTensor [a0 * a1; h] (data v2)) (a0 * a1) h eq_refl
                Hg1 Hg2 Hg3 Hg4) as (y & Ey & Sy).
    exists y. split; [exact Ey|]. split.
    - apply (size_last_rank2 _ Sy).
    - rewrite Sy. simpl. lia. }
  unfold call at 1, NNModule_TimeDistributed. rewrite Eg. cbn [bind].
  destruct (@tadd_same_shape _ _ g x) as (s2 & -> & Ss2); [congruence|].
  cbn [bind].
  assert (Ss2' : shape s2 = [a0; a1; h]) by congruence.
  destruct (@TimeDistributed_shape _ _ _ _ (GatedResidualNetwork.bn grn)
              s2 a0 a1 h h Ss2' Ha0 Ha1 Hh Hh) as (r & Er & Sr).
  { destruct (@BatchNorm1d_forward_rank2
                (TimeDistributed.module (GatedResidualNetwork.bn grn))
                (mkTensor [a0 * a1; h] (data s2)) (a0 * a1) h eq_refl Hbn)
      as (y & Ey & Sy).
    exists y. split; [exact Ey|]. split.
    - apply (size_last_rank2 _ Sy).
    - rewrite Sy. simpl. lia. }
  exists r. split; [exact Er|exact Sr].
Qed.

Lemma mask_shape {LW AW : Type} (self : TFT.t A LW AW) (sz : nat) :
  exists mask, TFT._generate_square_subsequent_mask self sz = Ok mask /\
               shape mask = [sz; sz].
Proof.
  unfold TFT._generate_square_subsequent_mask, triu, ones, dim.
  cbn [shape full length Nat.leb bind].
  unfold eq_one. rewrite tmap_tabulate. unfold transpose01, dim.
  cbn [shape tabulate length Nat.leb swap01 bind].
  rewrite masked_fill_same by reflexivity. cbn [bind].
  rewrite masked_fill_same by reflexivity.
  eexists. split; reflexivity.
Qed.

End NetworkShapes.

Section ForwardShapes.
Context {A : Type} {S : Scalar A} {An : Analytic A}.
Context {LW AW : Type}.

Lemma in_bounds_rank2 (a b : nat) (idx : list nat) :
  in_bounds [a; b] idx = true -> nth 0 idx 0 < a /\ nth 1 idx 0 < b.
Proof.
  intros Hb. pose proof (in_bounds_length _ _ Hb) as Hlen.
  destruct idx as [|i0 [|i1 [|? ?]]]; try discriminate.
  simpl in Hb. apply andb_prop in Hb. destruct Hb as [H0 Hb].
  apply andb_prop in Hb. destruct Hb as [H1 _].
  apply Nat.ltb_lt in H0, H1. simpl. auto.
Qed.

(** One column of a window, as the time-varying layers receive it. *)
Lemma column_view (w : Tensor A) (b tw f i : nat) :
  shape w = [b; tw; f] -> 0 < b -> i < f ->
  (column <- getitem w [Full; Full; At (Z.of_nat i)] ;;
   n0 <- size w 0 ;;
   view column [Z.of_nat n0; (-1)%Z; 1%Z]) =
  Ok (mkTensor [b; tw; 1]
        (data (tabulate [b; tw] (fun idx =>
                 get w [nth 0 idx 0; nth 1 idx 0; i])))).
Proof.
  intros Hs Hb Hi. rewrite (getitem_column w Hs Hi). cbn [bind].
  destruct (size_rank3 w Hs) as (-> & _). cbn [bind].
  change 1%Z with (Z.of_nat 1).
  rewrite (@view_regroup_batch_first _ (tabulate [b; tw] _) b tw 1);
    [reflexivity| |exact Hb|apply Nat.lt_0_1].
  rewrite shape_tabulate. simpl. lia.
Qed.

Lemma apply_embedding_shape (cfg : TFT.config A) (self : TFT.t A LW AW)
    (w st : Tensor A) (b tw f : nat) :
  constructed cfg self -> usable cfg ->
  shape w = [b; tw; f] -> 0 < b -> 0 < tw ->
  TFT.time_varying_real_variables self
    + TFT.time_varying_categoical_variables self <= f ->
  shape st = [b; TFT.cfg_static_variables cfg * TFT.cfg_embedding_dim cfg] ->
  (forall i layer n t,
     nth_error (TFT.time_varying_embedding_layers self) i = Some layer ->
     n < b -> t < tw ->
     Embedding.valid_code (TimeDistributed.module layer)
       (ftrunc (get w [n; t; TFT.time_varying_real_variables self + i])) = true) ->
  exists r, TFT.apply_embedding self w st = Ok r /\
            shape r = [tw; b; TFT.lstm_input_size self].
Proof.
  intros Hc Hu Hw Hb Htw Hf Hst Hvalid.
  destruct Hc as (_ & _ & _ & Encat & Enreal & _ & _ & _ & _ & _ &
                  Lcat & Hcat & Lreal & Hreal & Hsize & _).
  destruct Hu as (_ & Hs & _ & Hncat & Hnreal & _ & _ & _ & _ & He).
  set (e := TFT.cfg_embedding_dim cfg) in *.
  unfold TFT.apply_embedding.
  (* real variables *)
  destruct (@for_each_Forall nat (Tensor A)
    (fun i =>
       layer <- list_item (TFT.time_varying_linear_layers self) i ;;
       column <- getitem w [Full; Full; At (Z.of_nat i)] ;;
       n0 <- size w 0 ;;
       column <- view column [Z.of_nat n0; (-1)%Z; 1%Z] ;;
       call layer column)
    (fun y => shape y = [b; tw; e])
    (seq 0 (TFT.time_varying_real_variables self)))
    as (reals & -> & Preals & Lreals).
  { intros i Hi. apply in_seq in Hi.
    destruct (@list_item_lt _ (TFT.time_varying_linear_layers self) i)
      as (layer & -> & Hnth); [lia|].
    cbn [bind].
    pose proof (@column_view w b tw f i Hw Hb ltac:(lia)) as Hcol.
    destruct (getitem w [Full; Full; At (Z.of_nat i)]) as [col|];
      cbn [bind] in Hcol |- *; [|discriminate].
    destruct (size w 0) as [n0|]; cbn [bind] in Hcol |- *; [|discriminate].
    rewrite Hcol. cbn [bind].
    eapply TimeDistributed_Linear_shape;
      [exact (Hreal i layer Hnth)|reflexivity|exact Hb|exact Htw
      |apply Nat.lt_0_1|exact He]. }
  cbn [bind]. rewrite length_seq in Lreals.
  destruct (@cat_uniform _ _ reals [b; tw; e] 2) as (rcat & -> & Srcat);
    [destruct reals; [simpl in Lreals; lia|discriminate]
    |simpl; lia|exact Preals|].
  cbn [bind].
  (* categorical variables *)
  destruct (@for_each_Forall nat (Tensor A)
    (fun i =>
       layer <- list_item (TFT.time_varying_embedding_layers self) i ;;
       column <- getitem w
         [Full; Full; At (Z.of_nat (TFT.time_varying_real_variables self + i))] ;;
       n0 <- size w 0 ;;
       column <- view column [Z.of_nat n0; (-1)%Z; 1%Z] ;;
       call layer (long column))
    (fun y => shape y = [b; tw; e])
    (seq 0 (TFT.time_varying_categoical_variables self)))
    as (cats & -> & Pcats & Lcats).
  { intros i Hi. apply in_seq in Hi.
    destruct (@list_item_lt _ (TFT.time_varying_embedding_layers self) i)
      as (layer & -> & Hnth); [lia|].
    cbn [bind].
    pose proof (@column_view w b tw f
                  (TFT.time_varying_real_variables self + i) Hw Hb
                  ltac:(lia)) as Hcol.
    destruct (getitem w [Full; Full;
                At (Z.of_nat (TFT.time_varying_real_variables self + i))])
      as [col|]; cbn [bind] in Hcol |- *; [|discriminate].
    destruct (size w 0) as [n0|]; cbn [bind] in Hcol |- *; [|discriminate].
    rewrite Hcol. cbn [bind].
    destruct (Hcat i layer Hnth) as (_ & Hdim & _).
    rewrite <- Hdim.
    apply TimeDistributed_Embedding_shape;
      [reflexivity|exact Hb|exact Htw|rewrite Hdim; exact He|].
    unfold long, tmap. cbn [data].
    apply forallb_forall. intros v Hv.
    apply in_map_iff in Hv. destruct Hv as (u & <- & Hu).
    unfold tabulate in Hu. cbn [data] in Hu.
    apply in_map_iff in Hu. destruct Hu as (k & <- & Hk).
    apply in_seq in Hk.
    destruct (@in_bounds_rank2 b tw (unravel [b; tw] k)) as [H0 H1];
      [apply unravel_in_bounds; lia|].
    apply (Hvalid i layer _ _ Hnth H0 H1). }
  cbn [bind]. rewrite length_seq in Lcats.
  destruct (@cat_uniform _ _ cats [b; tw; e] 2) as (ccat & -> & Sccat);
    [destruct cats; [simpl in Lcats; lia|discriminate]
    |simpl; lia|exact Pcats|].
  cbn [bind]. cbn [replace_nth nth] in Srcat, Sccat.
  (* static vector *)
  destruct (size_rank3 ccat Sccat) as (E0 & E1 & _).
  rewrite E0, E1. cbn [bind].
  destruct (@cat_repeat _ _ st tw b _ Htw Hst) as (rep & -> & Srep).
  cbn [bind].
  rewrite (@view_regroup_last _ rep b tw (TFT.cfg_static_variables cfg * e));
    [|rewrite Srep; simpl; lia|exact Hb|exact Htw].
  cbn [bind].
  destruct (@cat_last3 _ _
              (mkTensor [b; tw; TFT.cfg_static_variables cfg * e] (data rep))
              ccat rcat b tw _ _ _ eq_refl Sccat Srcat) as (emb & -> & Semb).
  cbn [bind].
  destruct (size_rank3 w Hw) as (-> & _).
  destruct (size_rank3 emb Semb) as (_ & _ & -> & _).
  cbn [bind].
  rewrite (@view_regroup_time_first _ emb tw b _);
    [|rewrite Semb; simpl; lia|exact Hb|].
  - eexists. split; [reflexivity|]. cbn [shape]. f_equal. f_equal. f_equal.
    rewrite Hsize, Lreals, Lcats, Encat, Enreal. fold e. ring.
  - rewrite Lreals, Enreal. fold e. nia.
Qed.

End ForwardShapes.

Section ForecastLength.
Context {A : Type} {S : Scalar A} {An : Analytic A}.
Context {LW AW : Type} {RT : Runtime A LW AW}.

Lemma in_bounds_rank3 (a b c : nat) (n t k : nat) :
  n < a -> t < b -> k < c -> in_bounds [a; b; c] [n; t; k] = true.
Proof.
  intros Hn Ht Hk. simpl.
  apply Nat.ltb_lt in Hn, Ht, Hk. rewrite Hn, Ht, Hk. reflexivity.
Qed.

Lemma embed_windows_shape (cfg : TFT.config A) (self : TFT.t A LW AW)
    (x : TFT.batch A) (steps features : nat) :
  constructed cfg self -> usable cfg -> valid_batch self x steps features ->
  exists st ee ed,
    embed_windows self x = Ok (st, ee, ed) /\
    shape st = [TFT.batch_size self;
                TFT.cfg_static_variables cfg * TFT.cfg_embedding_dim cfg] /\
    shape ee = [TFT.encode_length self; TFT.batch_size self;
                TFT.lstm_input_size self] /\
    shape ed = [steps - TFT.encode_length self; TFT.batch_size self;
                TFT.lstm_input_size self].
Proof.
  intros Hc Hu (Hin & Hsteps & Hfeat & (ids & statics & Hid & Hids & Hstat)
                & Vstatic & Vcat).
  pose proof Hc as (Ebatch & Estatic & Eenc & _ & _ & _ & _ & _ &
                    Lstatic & Hstatic & _).
  pose proof Hu as (Hb & Hs & Henc & _ & _ & _ & _ & _ & _ & He).
  set (e := TFT.cfg_embedding_dim cfg) in *.
  set (b := TFT.batch_size self) in *.
  assert (Hbpos : 0 < b) by (rewrite Ebatch; exact Hb).
  unfold embed_windows.
  destruct (@for_each_Forall nat (Tensor A)
    (fun i =>
       layer <- list_item (TFT.static_embedding_layers self) i ;;
       codes <- getitem (TFT.identifier x) [Full; At 0%Z; At (Z.of_nat i)] ;;
       call layer (long codes))
    (fun y => shape y = [b; e])
    (seq 0 (TFT.static_variables self)))
    as (vectors & -> & Pvec & Lvec).
  { intros i Hi. apply in_seq in Hi.
    destruct (@list_item_lt _ (TFT.static_embedding_layers self) i)
      as (table & -> & Hnth); [lia|].
    cbn [bind]. rewrite (getitem_first_step _ i Hid).
    replace (0 <? ids) with true by (symmetry; apply Nat.ltb_lt; exact Hids).
    replace (i <? statics) with true by (symmetry; apply Nat.ltb_lt; lia).
    cbn [andb bind].
    unfold call, NNModule_Embedding, Embedding.forward, long.
    rewrite tmap_tabulate.
    rewrite forallb_tabulate.
    - eexists. split; [reflexivity|]. rewrite !shape_tabulate.
      destruct (Hstatic i table Hnth) as (-> & _). reflexivity.
    - intros idx Hidx. apply (Vstatic i table _ Hnth).
      pose proof (in_bounds_length _ _ Hidx) as Hlen.
      destruct idx as [|n [|? ?]]; try discriminate.
      simpl in Hidx |- *. apply Nat.ltb_lt.
      destruct (n <? b); [reflexivity|discriminate]. }
  cbn [bind]. rewrite length_seq in Lvec.
  destruct (@cat_uniform _ _ vectors [b; e] 1) as (st & -> & Sst);
    [destruct vectors; [simpl in Lvec; lia|discriminate]
    |simpl; lia|exact Pvec|].
  cbn [bind]. cbn [replace_nth nth] in Sst.
  rewrite Lvec, Estatic in Sst.
  unfold float.
  rewrite (@getitem_steps_upto _ _ (TFT.inputs x) b steps features
             (TFT.encode_length self) Hin ltac:(lia)).
  cbn [bind].
  assert (Hee : exists r,
            TFT.apply_embedding self
              (tabulate [b; TFT.encode_length self; features]
                 (fun idx => get (TFT.inputs x)
                               [nth 0 idx 0; nth 1 idx 0; nth 2 idx 0]))
              st = Ok r /\
            shape r = [TFT.encode_length self; b; TFT.lstm_input_size self]).
  { eapply apply_embedding_shape;
      [exact Hc|exact Hu|reflexivity|exact Hbpos|lia|exact Hfeat|exact Sst|].
    intros i layer n t Hnth Hn Ht.
    assert (Hi : i < TFT.time_varying_categoical_variables self).
    { destruct Hc as (_ & _ & _ & -> & _ & _ & _ & _ & _ & _ & <- & _).
      apply nth_error_Some. congruence. }
    rewrite get_tabulate by (apply in_bounds_rank3; lia).
    apply (Vcat i layer n t Hnth Hn). lia. }
  destruct Hee as (ee & -> & See).
  cbn [bind].
  rewrite (@getitem_steps_from _ _ (TFT.inputs x) b steps features
             (TFT.encode_length self) Hin ltac:(lia)).
  cbn [bind].
  assert (Hed : exists r,
            TFT.apply_embedding self
              (tabulate [b; steps - TFT.encode_length self; features]
                 (fun idx => get (TFT.inputs x)
                               [nth 0 idx 0;
                                TFT.encode_length self + nth 1 idx 0;
                                nth 2 idx 0]))
              st = Ok r /\
            shape r = [steps - TFT.encode_length self; b;
                       TFT.lstm_input_size self]).
  { eapply apply_embedding_shape;
      [exact Hc|exact Hu|reflexivity|exact Hbpos|lia|exact Hfeat|exact Sst|].
    intros i layer n t Hnth Hn Ht.
    assert (Hi : i < TFT.time_varying_categoical_variables self).
    { destruct Hc as (_ & _ & _ & -> & _ & _ & _ & _ & _ & _ & <- & _).
      apply nth_error_Some. congruence. }
    rewrite get_tabulate by (apply in_bounds_rank3; lia).
    apply (Vcat i layer n _ Hnth Hn). cbn [nth]. lia. }
  destruct Hed as (ed & -> & Sed).
  cbn [bind]. exists st, ee, ed. auto.
Qed.

Lemma attend_shape (cfg : TFT.config A) (self : TFT.t A LW AW)
    (st eo dout : Tensor A) (steps : nat) :
  constructed cfg self -> usable cfg -> attention_contract RT ->
  TFT.encode_length self < steps ->
  shape st = [TFT.batch_size self;
              TFT.cfg_static_variables cfg * TFT.cfg_embedding_dim cfg] ->
  shape eo = [TFT.encode_length self; TFT.batch_size self;
              TFT.hidden_size self] ->
  shape dout = [steps - TFT.encode_length self; TFT.batch_size self;
                TFT.hidden_size self] ->
  exists output attn_output attn_output_weights,
    attend self st eo dout =
      Ok (output, eo, dout, attn_output, attn_output_weights) /\
    shape attn_output = [steps - TFT.encode_length self;
                         TFT.batch_size self; TFT.hidden_size self] /\
    shape output = [TFT.batch_size self; steps - TFT.encode_length self; 1].
Proof.
  intros Hc Hu Hattn Hsteps Sst Seo Sdo.
  pose proof Hc as (Ebatch & _ & Eenc & _ & _ & Ehid & _ & _ & _ & _ & _ & _
                    & _ & _ & _ & _ & _ & Hgrn & _ & _ & Edim & Eheads & Hout).
  pose proof Hu as (Hb & Hs & Henc & _ & _ & Hh & _ & Hheads & Hdiv & He).
  unfold attend.
  set (e := TFT.cfg_embedding_dim cfg) in *.
  set (b := TFT.batch_size self) in *.
  set (h := TFT.hidden_size self) in *.
  set (enc := TFT.encode_length self) in *.
  assert (Hbpos : 0 < b) by (rewrite Ebatch; exact Hb).
  assert (Hhpos : 0 < h) by (rewrite Ehid; exact Hh).
  destruct (cat_first2 eo dout Seo Sdo) as (lstm_output & -> & Slo).
  replace (enc + (steps - enc + 0)) with steps in Slo by lia.
  cbn [bind].
  destruct (size_rank3 lstm_output Slo) as (E0 & E1 & _).
  rewrite E0, E1. cbn [bind].
  destruct (@cat_repeat _ _ st steps b _ ltac:(lia) Sst) as (rep & -> & Srep).
  cbn [bind].
  rewrite (@view_regroup_last _ rep steps b (TFT.cfg_static_variables cfg * e));
    [|rewrite Srep; simpl; lia|lia|exact Hbpos].
  cbn [bind].
  assert (Hgrn' : exists r,
            GatedResidualNetwork.forward (TFT.static_enrichment self)
              lstm_output
              (Some (mkTensor [steps; b; TFT.cfg_static_variables cfg * e]
                       (data rep))) = Ok r /\
            shape r = [steps; b; h]).
  { eapply GatedResidualNetwork_shape with (c := e * TFT.cfg_static_variables cfg);
      [rewrite <- Ehid in Hgrn; exact Hgrn|exact Slo
      |cbn [shape]; rewrite (Nat.mul_comm e); reflexivity
      |lia|exact Hbpos|exact Hhpos|nia]. }
  destruct Hgrn' as (attn_input & -> & Sai).
  cbn [bind].
  destruct (size_rank3 attn_input Sai) as (-> & _).
  cbn [bind].
  destruct (mask_shape self steps) as (mask & -> & Smask).
  cbn [bind].
  assert (Hatt : exists ao aw,
            attention_forward (TFT.multihead_attn self)
              attn_input attn_input lstm_output mask = Ok (ao, aw) /\
            shape ao = [steps; b; h]).
  { destruct (Hattn (TFT.multihead_attn self) attn_input attn_input
                lstm_output mask steps steps b) as (ao & aw & E & Sao & _).
    - lia.
    - lia.
    - exact Hbpos.
    - rewrite Eheads. exact Hheads.
    - rewrite Edim. exact Hh.
    - rewrite Edim, Eheads. exact Hdiv.
    - rewrite Edim, <- Ehid. exact Sai.
    - rewrite Edim, <- Ehid. exact Sai.
    - rewrite Edim, <- Ehid. exact Slo.
    - exact Smask.
    - exists ao, aw. split; [exact E|].
      rewrite Edim, <- Ehid in Sao. exact Sao. }
  destruct Hatt as (ao & aw & -> & Sao).
  cbn [bind].
  destruct (@getitem_rows_from _ _ ao steps b h enc Sao ltac:(lia))
    as (sliced & -> & Ssl).
  cbn [bind].
  rewrite (@view_regroup_batch_first _ sliced b (steps - enc) h);
    [|rewrite Ssl; simpl; lia|exact Hbpos|exact Hhpos].
  cbn [bind].
  assert (Hproj : exists r,
            call (TFT.output_layer self)
              (mkTensor [b; steps - enc; h] (data sliced)) = Ok r /\
            shape r = [b; steps - enc; 1]).
  { eapply TimeDistributed_Linear_shape;
      [rewrite <- Ehid in Hout; exact Hout|reflexivity|exact Hbpos|lia
      |exact Hhpos|apply Nat.lt_0_1]. }
  destruct Hproj as (output & -> & Sout).
  cbn [bind]. exists output, sliced, aw. auto.
Qed.

(** The attention layer is called on the whole sequence: the attended
    sequence has one position per time step of the input. *)
Lemma attention_stage_shape (cfg : TFT.config A) (self : TFT.t A LW AW)
    (st eo dout : Tensor A) (steps : nat) :
  constructed cfg self -> usable cfg -> attention_contract RT ->
  TFT.encode_length self < steps ->
  shape st = [TFT.batch_size self;
              TFT.cfg_static_variables cfg * TFT.cfg_embedding_dim cfg] ->
  shape eo = [TFT.encode_length self; TFT.batch_size self;
              TFT.hidden_size self] ->
  shape dout = [steps - TFT.encode_length self; TFT.batch_size self;
                TFT.hidden_size self] ->
  exists attended attn_output_weights,
    attention_stage self st eo dout = Ok (attended, attn_output_weights) /\
    shape attended = [steps; TFT.batch_size self; TFT.hidden_size self] /\
    shape attn_output_weights = [TFT.batch_size self; steps; steps].
Proof.
  intros Hc Hu Hattn Hsteps Sst Seo Sdo.
  pose proof Hc as (Ebatch & _ & Eenc & _ & _ & Ehid & _ & _ & _ & _ & _ & _
                    & _ & _ & _ & _ & _ & Hgrn & _ & _ & Edim & Eheads & Hout).
  pose proof Hu as (Hb & Hs & Henc & _ & _ & Hh & _ & Hheads & Hdiv & He).
  unfold attention_stage.
  set (e := TFT.cfg_embedding_dim cfg) in *.
  set (b := TFT.batch_size self) in *.
  set (h := TFT.hidden_size self) in *.
  set (enc := TFT.encode_length self) in *.
  assert (Hbpos : 0 < b) by (rewrite Ebatch; exact Hb).
  assert (Hhpos : 0 < h) by (rewrite Ehid; exact Hh).
  destruct (cat_first2 eo dout Seo Sdo) as (lstm_output & -> & Slo).
  replace (enc + (steps - enc + 0)) with steps in Slo by lia.
  cbn [bind].
  destruct (size_rank3 lstm_output Slo) as (E0 & E1 & _).
  rewrite E0, E1. cbn [bind].
  destruct (@cat_repeat _ _ st steps b _ ltac:(lia) Sst) as (rep & -> & Srep).
  cbn [bind].
  rewrite (@view_regroup_last _ rep steps b (TFT.cfg_static_variables cfg * e));
    [|rewrite Srep; simpl; lia|lia|exact Hbpos].
  cbn [bind].
  assert (Hgrn' : exists r,
            GatedResidualNetwork.forward (TFT.static_enrichment self)
              lstm_output
              (Some (mkTensor [steps; b; TFT.cfg_static_variables cfg * e]
                       (data rep))) = Ok r /\
            shape r = [steps; b; h]).
  { eapply GatedResidualNetwork_shape with (c := e * TFT.cfg_static_variables cfg);
      [rewrite <- Ehid in Hgrn; exact Hgrn|exact Slo
      |cbn [shape]; rewrite (Nat.mul_comm e); reflexivity
      |lia|exact Hbpos|exact Hhpos|nia]. }
  destruct Hgrn' as (attn_input & -> & Sai).
  cbn [bind].
  destruct (size_rank3 attn_input Sai) as (-> & _).
  cbn [bind].
  destruct (mask_shape self steps) as (mask & -> & Smask).
  cbn [bind].
  assert (Hatt : exists ao aw,
            attention_forward (TFT.multihead_attn self)
              attn_input attn_input lstm_output mask = Ok (ao, aw) /\
            shape ao = [steps; b; h] /\ shape aw = [b; steps; steps]).
  { destruct (Hattn (TFT.multihead_attn self) attn_input attn_input
                lstm_output mask steps steps b) as (ao & aw & E & Sao & Saw).
    - lia.
    - lia.
    - exact Hbpos.
    - rewrite Eheads. exact Hheads.
    - rewrite Edim. exact Hh.
    - rewrite Edim, Eheads. exact Hdiv.
    - rewrite Edim, <- Ehid. exact Sai.
    - rewrite Edim, <- Ehid. exact Sai.
    - rewrite Edim, <- Ehid. exact Slo.
    - exact Smask.
    - exists ao, aw. split; [exact E|]. split; [|exact Saw].
      rewrite Edim, <- Ehid in Sao. exact Sao. }
  exact Hatt.
Qed.

(** [attend] is the attention stage, the cut at [encode_length] and the
    output projection. *)
Lemma attend_stages (self : TFT.t A LW AW) (st eo dout : Tensor A) :
  attend self st eo dout =
  (r <- attention_stage self st eo dout ;;
   let '(attended, attn_output_weights) := r in
   attn_output <- getitem attended
                    [From (Z.of_nat (TFT.encode_length self)); Full; Full] ;;
   projected <- view attn_output
                  [Z.of_nat (TFT.batch_size self); (-1)%Z;
                   Z.of_nat (TFT.hidden_size self)] ;;
   output <- call (TFT.output_layer self) projected ;;
   Ok (output, eo, dout, attn_output, attn_output_weights)).
Proof.
  unfold attend, attention_stage.
  rewrite !bind_assoc. apply bind_ext. intros lstm_output.
  rewrite !bind_assoc. apply bind_ext. intros n0.
  rewrite !bind_assoc. apply bind_ext. intros repeated.
  rewrite !bind_assoc. apply bind_ext. intros n0'.
  rewrite !bind_assoc. apply bind_ext. intros n1.
  rewrite !bind_assoc. apply bind_ext. intros context.
  rewrite !bind_assoc. apply bind_ext. intros attn_input.
  rewrite !bind_assoc. apply bind_ext. intros sz.
  rewrite !bind_assoc. apply bind_ext. intros mask.
  reflexivity.
Qed.

(** [t[n:, :, :]], entry by entry. *)
Lemma getitem_rows_from_entries {X : Type} `{Inhabitant X} (t : Tensor X)
    (a b c n : nat) :
  shape t = [a; b; c] -> n <= a ->
  getitem t [From (Z.of_nat n); Full; Full] =
  Ok (tabulate [a - n; b; c] (fun idx =>
        get t [n + nth 0 idx 0; nth 1 idx 0; nth 2 idx 0])).
Proof.
  intros Hs Hn. unfold getitem. rewrite Hs.
  cbn [select_axes select_axis bind]. rewrite clamp_slice_of_nat.
  rewrite Nat.min_l by exact Hn.
  apply f_equal. apply (tabulate_ext [a - n; b; c]). intros idx Hb.
  pose proof (in_bounds_length _ _ Hb) as Hlen.
  destruct idx as [|i0 [|i1 [|i2 [|? ?]]]]; try discriminate. reflexivity.
Qed.

(** C7: on a model built from a usable configuration and an input batch
    it accepts, with [steps] time steps, [steps > encode_length], the
    forward pass returns, and the forecast has shape
    (batch, [steps - encode_length], 1).  The attention layer is called on
    the two recurrent outputs of the batch and attends to all the [steps]
    positions; the attended output that the forward pass returns holds its
    positions from [encode_length] on, position [i] being position
    [encode_length + i] of the attended sequence: the first [encode_length]
    positions are discarded.  The forecast is the output layer applied to
    what is kept.  The recurrent and attention primitives are assumed to
    produce the shapes their documentation states. *)
Theorem C7_forecast_length (cfg : TFT.config A) (self : TFT.t A LW AW)
    (x : TFT.batch A) (steps features : nat) :
  constructed cfg self -> usable cfg ->
  lstm_contract RT -> attention_contract RT ->
  valid_batch self x steps features ->
  exists output encoder_output decoder_output attn_output attn_output_weights,
    TFT.forward self x =
      Ok (output, encoder_output, decoder_output, attn_output,
          attn_output_weights) /\
    shape attn_output = [steps - TFT.encode_length self;
                         TFT.batch_size self; TFT.hidden_size self] /\
    shape output = [TFT.batch_size self; steps - TFT.encode_length self; 1] /\
    nth 1 (shape output) 0 = steps - TFT.encode_length self /\
    exists static_embedding embeddings_encoder embeddings_decoder
           hidden cell state attended,
      embed_windows self x =
        Ok (static_embedding, embeddings_encoder, embeddings_decoder) /\
      lstm_forward (TFT.lstm_encoder self) embeddings_encoder
        (TFT.init_hidden self, TFT.init_hidden self) =
        Ok (encoder_output, (hidden, cell)) /\
      lstm_forward (TFT.lstm_decoder self) embeddings_decoder
        (hidden, hidden) = Ok (decoder_output, state) /\
      attention_stage self static_embedding encoder_output decoder_output =
        Ok (attended, attn_output_weights) /\
      shape attended = [steps; TFT.batch_size self; TFT.hidden_size self] /\
      (forall i n k,
         i < steps - TFT.encode_length self ->
         n < TFT.batch_size self -> k < TFT.hidden_size self ->
         get attn_output [i; n; k] =
         get attended [TFT.encode_length self + i; n; k]) /\
      (projected <- view attn_output
                      [Z.of_nat (TFT.batch_size self); (-1)%Z;
                       Z.of_nat (TFT.hidden_size self)] ;;
       call (TFT.output_layer self) projected) = Ok output.
Proof.
  intros Hc Hu Hlstm Hattn Hvalid.
  destruct (embed_windows_shape Hc Hu Hvalid) as (st & ee & ed & Ew & Sst & See & Sed).
  pose proof Hvalid as (_ & Hsteps & _).
  pose proof Hc as (Ebatch & _ & Eenc & _ & _ & Ehid & Elayers & _ & _ & _ & _
                    & _ & _ & _ & Hsize & (Ei1 & Eh1 & El1) & (Ei2 & Eh2 & El2)
                    & _ & _ & _ & _ & _ & Hout).
  pose proof Hu as (Hb & Hs & Henc & _ & Hnreal & Hh & Hl & _ & _ & He).
  assert (Hinput : 0 < TFT.lstm_input_size self) by (rewrite Hsize; nia).
  assert (Hbpos : 0 < TFT.batch_size self) by (rewrite Ebatch; exact Hb).
  assert (Hhpos : 0 < TFT.hidden_size self) by (rewrite Ehid; exact Hh).
  destruct (Hlstm (TFT.lstm_encoder self) ee (TFT.init_hidden self)
              (TFT.init_hidden self) (TFT.encode_length self)
              (TFT.batch_size self))
    as (eo & hn & cn & Eenc_run & Seo & Shn & _);
    try (rewrite ?Ei1, ?Eh1, ?El1; lia);
    try (rewrite ?Ei1, ?Eh1, ?El1; exact See);
    try (unfold TFT.init_hidden, zeros, full; cbn [shape];
         rewrite Eh1, El1, Ehid, Elayers; reflexivity).
  destruct (Hlstm (TFT.lstm_decoder self) ed hn hn
              (steps - TFT.encode_length self) (TFT.batch_size self))
    as (dout & hn' & cn' & Edec_run & Sdo & _);
    try (rewrite ?Ei2, ?Eh2, ?El2; lia);
    try (rewrite ?Ei2, ?Eh2, ?El2; exact Sed);
    try (rewrite Eh2, El2, <- Eh1, <- El1; exact Shn).
  rewrite Eh1, <- Ehid in Seo. rewrite Eh2, <- Ehid in Sdo.
  destruct (@attention_stage_shape cfg self st eo dout steps
              Hc Hu Hattn Hsteps Sst Seo Sdo)
    as (attended & aw & Estage & Satt & Saw).
  pose proof (@getitem_rows_from_entries _ _ attended steps
                (TFT.batch_size self) (TFT.hidden_size self)
                (TFT.encode_length self) Satt (Nat.lt_le_incl _ _ Hsteps))
    as Ecut.
  set (ao := tabulate [steps - TFT.encode_length self; TFT.batch_size self;
                       TFT.hidden_size self]
               (fun idx => get attended
                             [TFT.encode_length self + nth 0 idx 0;
                              nth 1 idx 0; nth 2 idx 0])) in *.
  assert (Eview : view ao [Z.of_nat (TFT.batch_size self); (-1)%Z;
                           Z.of_nat (TFT.hidden_size self)] =
                  Ok (mkTensor [TFT.batch_size self;
                                steps - TFT.encode_length self;
                                TFT.hidden_size self] (data ao))).
  { apply view_regroup_batch_first;
      [unfold ao; rewrite shape_tabulate; simpl; lia|exact Hbpos|exact Hhpos]. }
  assert (Hproj : exists r,
            call (TFT.output_layer self)
              (mkTensor [TFT.batch_size self; steps - TFT.encode_length self;
                         TFT.hidden_size self] (data ao)) = Ok r /\
            shape r = [TFT.batch_size self;
                       steps - TFT.encode_length self; 1]).
  { eapply TimeDistributed_Linear_shape;
      [rewrite <- Ehid in Hout; exact Hout|reflexivity|exact Hbpos|lia
      |exact Hhpos|apply Nat.lt_0_1]. }
  destruct Hproj as (output & Eproj & Sout).
  assert (Hforward : TFT.forward self x = Ok (output, eo, dout, ao, aw)).
  { rewrite forward_stages, Ew. cbn [bind].
    rewrite Eenc_run. cbn [bind]. rewrite Edec_run. cbn [bind].
    rewrite attend_stages, Estage. cbn [bind].
    rewrite Ecut. cbn [bind]. rewrite Eview. cbn [bind].
    rewrite Eproj. reflexivity. }
  exists output, eo, dout, ao, aw.
  split; [exact Hforward|]. split; [reflexivity|]. split; [exact Sout|].
  split; [rewrite Sout; reflexivity|].
  exists st, ee, ed, hn, cn, (hn', cn'), attended.
  split; [exact Ew|]. split; [exact Eenc_run|]. split; [exact Edec_run|].
  split; [exact Estage|]. split; [exact Satt|]. split.
  - intros i n k Hi Hn Hk. unfold ao.
    rewrite get_tabulate by (apply in_bounds_rank3; assumption).
    reflexivity.
  - rewrite Eview. cbn [bind]. exact Eproj.
Qed.

End ForecastLength.

(** ** The statements on the small model *)

Lemma shape_runtime_lstm_contract {A : Type} {S : Scalar A} {An : Analytic A} :
  lstm_contract (A := A) shape_runtime.
Proof.
  intros m x h c len n Hlen Hn Hi Hh Hl Sx Sh Sc.
  cbn [lstm_forward shape_runtime]. unfold shape_lstm.
  rewrite Sx. cbn [fst snd]. rewrite Sh, Sc, Nat.eqb_refl, list_eqb_refl.
  replace (0 <? len) with true by (symmetry; apply Nat.ltb_lt; exact Hlen).
  cbn [andb]. do 3 eexists. split; [reflexivity|]. repeat split.
Qed.

Lemma shape_runtime_attention_contract {A : Type} {S : Scalar A}
    {An : Analytic A} :
  attention_contract (A := A) shape_runtime.
Proof.
  intros m q k v mask len src n Hlen Hsrc Hn Hheads Hdim Hdiv Sq Sk Sv Sm.
  cbn [attention_forward shape_runtime]. unfold shape_attention.
  rewrite Sq, Sk, Sv, Sm, !list_eqb_refl.
  cbn [andb]. do 2 eexists. split; [reflexivity|]. split; reflexivity.
Qed.

Lemma Rtrunc_IZR (z : Z) : (0 <= z)%Z -> Rtrunc (IZR z) = z.
Proof.
  intros Hz. unfold Rtrunc.
  destruct (Rlt_dec (IZR z) 0) as [Hneg|_].
  - apply lt_IZR in Hneg. lia.
  - symmetry. apply Int_part_spec. lra.
Qed.

Lemma nth_error_singleton {X : Type} (v x : X) (i : nat) :
  nth_error [v] i = Some x -> i = 0 /\ x = v.
Proof.
  destruct i as [|[|i]]; simpl; intros E; inversion E; auto.
Qed.

Lemma toy_model_constructed :
  constructed toy_config (toy_model IZR (1 / 100000)%R 1 5).
Proof.
  unfold constructed, grn_constructed, is_linear, is_lstm.
  cbn -[IZR Rdiv nth_error].
  repeat split; try reflexivity;
    intros;
    match goal with
    | E : nth_error _ _ = Some _ |- _ =>
        apply nth_error_singleton in E; destruct E as [-> ->]
    end;
    reflexivity.
Qed.

Lemma toy_config_usable : usable toy_config.
Proof. unfold usable, toy_config. cbn. repeat split; lia. Qed.

Lemma toy_batch_valid (later : R) :
  valid_batch (toy_model IZR (1 / 100000)%R 1 5) (toy_batch later) 8 2.
Proof.
  unfold valid_batch. cbn -[IZR Rdiv nth_error get Embedding.valid_code].
  split; [reflexivity|]. split; [lia|]. split; [lia|].
  split; [exists 8, 1; repeat split; lia|].
  split.
  - intros i table n E Hn. apply nth_error_singleton in E.
    destruct E as [-> ->].
    assert (n = 0) by lia. subst n.
    change (get (static_codes later) [0; 0; 0]) with (IZR 2).
    change (@ftrunc R Scalar_R) with Rtrunc.
    rewrite Rtrunc_IZR by lia. reflexivity.
  - intros i layer n t E Hn Ht. apply nth_error_singleton in E.
    destruct E as [-> ->].
    assert (n = 0) by lia. subst n.
    change (@ftrunc R Scalar_R) with Rtrunc.
    do 8 (destruct t as [|t];
          [match goal with
           | |- context [get eight_steps ?idx] =>
               let v := eval cbv -[IZR] in (get eight_steps idx) in
               change (get eight_steps idx) with v
           end;
           rewrite Rtrunc_IZR by lia; reflexivity|]).
    lia.
Qed.

Lemma C7_forecast_length_witness :
  let self := toy_model IZR (1 / 100000)%R 1 5 in
  exists output encoder_output decoder_output attn_output attn_output_weights,
    TFT.forward (RT := shape_runtime) self (toy_batch 2%R) =
      Ok (output, encoder_output, decoder_output, attn_output,
          attn_output_weights) /\
    shape attn_output = [8 - 5; 1; 1] /\
    shape output = [1; 8 - 5; 1] /\
    nth 1 (shape output) 0 = 8 - 5 /\
    exists static_embedding embeddings_encoder embeddings_decoder
           hidden cell state attended,
      embed_windows self (toy_batch 2%R) =
        Ok (static_embedding, embeddings_encoder, embeddings_decoder) /\
      lstm_forward (Runtime := shape_runtime) (TFT.lstm_encoder self)
        embeddings_encoder (TFT.init_hidden self, TFT.init_hidden self) =
        Ok (encoder_output, (hidden, cell)) /\
      lstm_forward (Runtime := shape_runtime) (TFT.lstm_decoder self)
        embeddings_decoder (hidden, hidden) = Ok (decoder_output, state) /\
      attention_stage (RT := shape_runtime) self static_embedding
        encoder_output decoder_output =
        Ok (attended, attn_output_weights) /\
      shape attended = [8; 1; 1] /\
      (forall i n k, i < 8 - 5 -> n < 1 -> k < 1 ->
         get attn_output [i; n; k] = get attended [5 + i; n; k]) /\
      (projected <- view attn_output [1%Z; (-1)%Z; 1%Z] ;;
       call (TFT.output_layer self) projected) = Ok output.
Proof.
  exact (C7_forecast_length (RT := shape_runtime)
           toy_model_constructed toy_config_usable
           shape_runtime_lstm_contract shape_runtime_attention_contract
           (toy_batch_valid 2%R)).
Defined.

Lemma C6_identifier_first_step_only_witness :
  TFT.forward (RT := shape_runtime) (toy_model IZR (1 / 100000)%R 1 5)
    (toy_batch 0%R) =
  TFT.forward (RT := shape_runtime) (toy_model IZR (1 / 100000)%R 1 5)
    (toy_batch 1%R).
Proof.
  apply (@C6_identifier_first_step_only R _ _ unit unit shape_runtime
           (toy_model IZR (1 / 100000)%R 1 5) (toy_batch 0%R) (toy_batch 1%R)
           1 8 1).
  - reflexivity.
  - reflexivity.
  - reflexivity.
  - intros n i Hn Hi.
    destruct n as [|n]; [|exfalso; apply (Nat.nlt_0_r n); apply Nat.succ_lt_mono; exact Hn].
    destruct i as [|i]; [|exfalso; apply (Nat.nlt_0_r i); apply Nat.succ_lt_mono; exact Hi].
    reflexivity.
Defined.

(* ================================================================== *)
(** * Further properties of the module *)
(* ================================================================== *)

(** ** [TimeDistributed.forward] on inputs of any rank *)

Lemma infer_size_length (spec : list Z) (n : nat) (s : list nat) :
  infer_size spec n = Ok s -> length s = length spec.
Proof.
  unfold infer_size.
  destruct (existsb (fun d => (d <? -1)%Z) spec); [discriminate|].
  destruct (count_occ Z.eq_dec spec (-1)%Z) as [|[|k]].
  - destruct (n =? _); [|discriminate].
    intros E. apply Ok_inj in E. subst s. apply length_map.
  - destruct ((0 <? _) && _); [|discriminate].
    intros E. apply Ok_inj in E. subst s. apply length_map.
  - discriminate.
Qed.

Lemma view_rank {X : Type} (t r : Tensor X) (spec : list Z) :
  view t spec = Ok r -> dim r = length spec /\ data r = data t.
Proof.
  unfold view.
  destruct (infer_size spec (numel (shape t))) as [s|e] eqn:E; [|discriminate].
  cbn [bind]. intros Hr. apply Ok_inj in Hr. subst r.
  split; [exact (infer_size_length _ _ E)|reflexivity].
Qed.

(** X1: whatever the wrapped module and the rank of the input, a call of
    the wrapper that goes through the reshaping path (input of rank 3 or
    more) and returns, returns a tensor of rank exactly 3: the axes between
    the first two and the last are not restored. *)
Theorem X1_time_distributed_returns_rank3 {M X Y : Type} `{NNModule M X Y}
    (self : TimeDistributed.t M) (x : Tensor X) (r : Tensor Y) :
  3 <= dim x -> TimeDistributed.forward self x = Ok r -> dim r = 3.
Proof.
  intros Hd. unfold TimeDistributed.forward.
  replace (dim x <=? 2) with false by (symmetry; apply Nat.leb_gt; lia).
  destruct (size x (-1)) as [n|]; cbn [bind]; [|discriminate].
  destruct (view (contiguous x) [(-1)%Z; Z.of_nat n]) as [xr|];
    cbn [bind]; [|discriminate].
  destruct (call (TimeDistributed.module self) xr) as [y|];
    cbn [bind]; [|discriminate].
  destruct (TimeDistributed.batch_first self).
  - destruct (size x 0) as [n0|]; cbn [bind]; [|discriminate].
    destruct (size y (-1)) as [m|]; cbn [bind]; [|discriminate].
    intros Hr. apply view_rank in Hr. tauto.
  - destruct (size x 1) as [n1|]; cbn [bind]; [|discriminate].
    destruct (size y (-1)) as [m|]; cbn [bind]; [|discriminate].
    intros Hr. apply view_rank in Hr. tauto.
Qed.

Lemma X1_time_distributed_returns_rank3_witness :
  dim (mkTensor [4; 3; 2] (map Z.of_nat (seq 0 24))) = 3.
Proof.
  apply (@X1_time_distributed_returns_rank3 _ _ _ _
           (TimeDistributed.init Identity.mk)
           (mkTensor [2; 3; 2; 2] (map Z.of_nat (seq 0 24)))).
  - apply le_S. apply le_n.
  - reflexivity.
Defined.

(** X2: around the identity, a rank-4 input of shape [(a, b, c, f)] with
    no empty axis comes back with its values in the same order but
    regrouped on three axes: [(a, b * c, f)] in batch-first mode and
    [(a * c, b, f)] in default mode. *)
Theorem X2_time_distributed_identity_rank4 {X : Type} (x : Tensor X)
    (a b c f : nat) :
  shape x = [a; b; c; f] -> 0 < a -> 0 < b -> 0 < c -> 0 < f ->
  TimeDistributed.forward (TimeDistributed.mk Identity.mk true) x =
    Ok (mkTensor [a; b * c; f] (data x)) /\
  TimeDistributed.forward (TimeDistributed.init Identity.mk) x =
    Ok (mkTensor [a * c; b; f] (data x)).
Proof.
  intros Hs Ha Hb Hc Hf.
  assert (Hflat : view x [(-1)%Z; Z.of_nat f] =
                  Ok (mkTensor [a * b * c; f] (data x))).
  { rewrite view_flatten, Hs.
    replace (numel [a; b; c; f]) with (a * b * c * f) by (simpl; lia).
    destruct (div_exact (a * b * c) Hf) as [-> ->].
    replace (0 <? f) with true by (symmetry; apply Nat.ltb_lt; exact Hf).
    reflexivity. }
  assert (Hlast : size x (-1) = Ok f)
    by (unfold size, dim; rewrite Hs; reflexivity).
  assert (Hfirst : size x 0 = Ok a)
    by (unfold size, dim; rewrite Hs; reflexivity).
  assert (Hsecond : size x 1 = Ok b)
    by (unfold size, dim; rewrite Hs; reflexivity).
  assert (Hylast : size (mkTensor [a * b * c; f] (data x)) (-1) = Ok f)
    by reflexivity.
  unfold TimeDistributed.forward, TimeDistributed.init, contiguous.
  cbn [TimeDistributed.batch_first TimeDistributed.module].
  replace (dim x <=? 2) with false
    by (symmetry; apply Nat.leb_gt; unfold dim; rewrite Hs; simpl; lia).
  rewrite Hlast, Hfirst, Hsecond. cbn [bind]. rewrite Hflat. cbn [bind].
  unfold call, NNModule_Identity, Identity.forward. cbn [bind].
  rewrite Hylast. cbn [bind].
  split.
  - apply (@view_regroup_batch_first _ (mkTensor [a * b * c; f] (data x))
             a (b * c) f); [simpl; lia|exact Ha|exact Hf].
  - apply (@view_regroup_time_first _ (mkTensor [a * b * c; f] (data x))
             (a * c) b f); [simpl; lia|exact Hb|exact Hf].
Qed.

Lemma X2_time_distributed_identity_rank4_witness :
  TimeDistributed.forward (TimeDistributed.mk Identity.mk true)
    (mkTensor [2; 3; 2; 2] (map Z.of_nat (seq 0 24))) =
    Ok (mkTensor [2; 3 * 2; 2] (map Z.of_nat (seq 0 24))) /\
  TimeDistributed.forward (TimeDistributed.init Identity.mk)
    (mkTensor [2; 3; 2; 2] (map Z.of_nat (seq 0 24))) =
    Ok (mkTensor [2 * 2; 3; 2] (map Z.of_nat (seq 0 24))).
Proof.
  apply (@X2_time_distributed_identity_rank4 _
           (mkTensor [2; 3; 2; 2] (map Z.of_nat (seq 0 24))) 2 3 2 2 eq_refl).
  - apply Nat.lt_0_succ.
  - apply Nat.lt_0_succ.
  - apply Nat.lt_0_succ.
  - apply Nat.lt_0_succ.
Defined.

(** ** Layers that act on every position under [TimeDistributed] *)

Lemma unravel_rank2 (n m k : nat) :
  unravel [n; m] k = [k / m; k mod m].
Proof.
  cbn [unravel numel fold_right]. rewrite !Nat.mul_1_r, !Nat.div_1_r.
  reflexivity.
Qed.

Lemma unravel_rank3 (a b c k : nat) :
  unravel [a; b; c] k = [k / (b * c); k mod (b * c) / c; k mod (b * c) mod c].
Proof.
  cbn [unravel numel fold_right]. rewrite !Nat.mul_1_r, !Nat.div_1_r.
  reflexivity.
Qed.

(** Row [i * b + t] of the flattened array is position [(i, t)] of the
    array of rank 3. *)
Lemma unravel_regroup (b c k : nat) :
  0 < b -> 0 < c ->
  k / c = k / (b * c) * b + k mod (b * c) / c /\
  k mod c = k mod (b * c) mod c.
Proof.
  intros Hb Hc.
  rewrite (Nat.mul_comm b c).
  rewrite Nat.Div0.mod_mul_r.
  rewrite <- Nat.Div0.div_div.
  split.
  - rewrite (Nat.mul_comm c (k / c mod b)), Nat.div_add by lia.
    rewrite (Nat.div_small (k mod c) c) by (apply Nat.mod_upper_bound; lia).
    rewrite (Nat.div_mod_eq (k / c) b) at 1. lia.
  - rewrite (Nat.mul_comm c (k / c mod b)), Nat.Div0.mod_add.
    rewrite Nat.Div0.mod_mod. reflexivity.
Qed.

Lemma get_flatten_rank3 {X : Type} `{Inhabitant X} (x : Tensor X)
    (a b f i t j : nat) :
  shape x = [a; b; f] ->
  get (mkTensor [a * b; f] (data x)) [i * b + t; j] = get x [i; t; j].
Proof.
  intros Hs. unfold get. rewrite Hs.
  cbn [shape data ravel numel fold_right]. f_equal. lia.
Qed.

(** The elements of a tabulated array, read under another shape. *)
Lemma reshape_tabulate {X : Type} (s s' : list nat) (F G : list nat -> X) :
  numel s = numel s' ->
  (forall k, k < numel s' -> F (unravel s k) = G (unravel s' k)) ->
  mkTensor s' (data (tabulate s F)) = tabulate s' G.
Proof.
  intros Hn HFG. unfold tabulate. cbn [data]. f_equal. rewrite Hn.
  apply map_ext_in. intros k Hk. apply in_seq in Hk. apply HFG. lia.
Qed.

(** A wrapped layer whose result on the flattened rows is known entry by
    entry. *)
Lemma TimeDistributed_pointwise {M X Y : Type} `{NNModule M X Y}
    (self : TimeDistributed.t M) (x : Tensor X) (a0 a1 f m : nat)
    (s : list nat) (F G : list nat -> Y) :
  shape x = [a0; a1; f] -> 0 < a0 -> 0 < a1 -> 0 < f -> 0 < m ->
  call (TimeDistributed.module self) (mkTensor [a0 * a1; f] (data x))
    = Ok (tabulate s F) ->
  size (tabulate s F) (-1) = Ok m -> numel s = a0 * a1 * m ->
  (forall k, k < a0 * a1 * m -> F (unravel s k) = G (unravel [a0; a1; m] k)) ->
  TimeDistributed.forward self x = Ok (tabulate [a0; a1; m] G).
Proof.
  intros Hs Ha0 Ha1 Hf Hm Ey Sy Ny HFG.
  rewrite (TimeDistributed_rank3 self x Hs), (view_flatten_rank3 x Hs).
  replace (0 <? f) with true by (symmetry; apply Nat.ltb_lt; exact Hf).
  cbn [bind]. rewrite Ey. cbn [bind]. rewrite Sy. cbn [bind].
  assert (Hn : numel s = numel [a0; a1; m]) by (rewrite Ny; simpl; lia).
  assert (HFG' : forall k, k < numel [a0; a1; m] ->
                 F (unravel s k) = G (unravel [a0; a1; m] k))
    by (intros k Hk; apply HFG; simpl in Hk; lia).
  destruct (TimeDistributed.batch_first self).
  - rewrite (@view_regroup_batch_first _ (tabulate s F) a0 a1 m Ny Ha0 Hm).
    f_equal. apply reshape_tabulate; assumption.
  - rewrite (@view_regroup_time_first _ (tabulate s F) a0 a1 m Ny Ha1 Hm).
    f_equal. apply reshape_tabulate; assumption.
Qed.

Section LinearPointwise.
Context {A : Type} {S : Scalar A}.

Lemma Linear_entry_flatten (l : Linear.t A) (x : Tensor A) (a b f m k : nat) :
  shape x = [a; b; f] -> 0 < b -> 0 < m ->
  Linear.entry l (mkTensor [a * b; f] (data x)) (unravel [a * b; m] k) =
  Linear.entry l x (unravel [a; b; m] k).
Proof.
  intros Hs Hb Hm.
  rewrite unravel_rank2, unravel_rank3.
  destruct (unravel_regroup k Hb Hm) as [Hq Hr].
  unfold Linear.entry, Linear.dot.
  cbn [last removelast]. rewrite <- Hr.
  f_equal. f_equal. apply map_ext. intros j.
  f_equal. cbn [app]. rewrite Hq.
  apply get_flatten_rank3. exact Hs.
Qed.

Lemma TimeDistributed_Linear_pointwise
    (self : TimeDistributed.t (Linear.t A)) (x : Tensor A) (a0 a1 f : nat) :
  shape x = [a0; a1; f] -> 0 < a0 -> 0 < a1 -> 0 < f ->
  Linear.in_features (TimeDistributed.module self) = f ->
  0 < Linear.out_features (TimeDistributed.module self) ->
  TimeDistributed.forward self x =
  Ok (tabulate [a0; a1; Linear.out_features (TimeDistributed.module self)]
        (Linear.entry (TimeDistributed.module self) x)).
Proof.
  intros Hs Ha0 Ha1 Hf Hin Hout.
  set (l := TimeDistributed.module self) in *.
  set (m := Linear.out_features l) in *.
  apply (@TimeDistributed_pointwise _ _ _ _ self x a0 a1 f m [a0 * a1; m]
           (Linear.entry l (mkTensor [a0 * a1; f] (data x))));
    try assumption.
  - fold l. unfold call, NNModule_Linear.
    rewrite (@Linear_forward_rank2 _ _ l (mkTensor [a0 * a1; f] (data x))
               (a0 * a1) f eq_refl), Hin, Nat.eqb_refl.
    reflexivity.
  - reflexivity.
  - simpl. lia.
  - intros k _. exact (@Linear_entry_flatten l x a0 a1 f m k Hs Ha1 Hout).
Qed.

(** X3: on an input of shape (a0, a1, f) with no empty axis, the wrapper
    around a linear layer of [f] input features returns what the linear
    layer returns when it is called on the input directly, in batch-first
    mode and in default mode alike: the layer acts on the last axis of
    every position [(i, t)], and flattening and regrouping the first two
    axes changes nothing. *)
Theorem X3_time_distributed_linear_pointwise
    (self : TimeDistributed.t (Linear.t A)) (x : Tensor A) (a0 a1 f : nat) :
  shape x = [a0; a1; f] -> 0 < a0 -> 0 < a1 -> 0 < f ->
  Linear.in_features (TimeDistributed.module self) = f ->
  0 < Linear.out_features (TimeDistributed.module self) ->
  TimeDistributed.forward self x =
    Linear.forward (TimeDistributed.module self) x /\
  Linear.forward (TimeDistributed.module self) x =
    Ok (tabulate [a0; a1; Linear.out_features (TimeDistributed.module self)]
          (Linear.entry (TimeDistributed.module self) x)).
Proof.
  intros Hs Ha0 Ha1 Hf Hin Hout.
  assert (Hdirect : Linear.forward (TimeDistributed.module self) x =
    Ok (tabulate [a0; a1; Linear.out_features (TimeDistributed.module self)]
          (Linear.entry (TimeDistributed.module self) x))).
  { rewrite (@Linear_forward_app _ _ _ x [a0; a1] f Hs), Hin, Nat.eqb_refl.
    reflexivity. }
  split; [|exact Hdirect].
  rewrite Hdirect.
  exact (@TimeDistributed_Linear_pointwise self x a0 a1 f Hs Ha0 Ha1 Hf Hin Hout).
Qed.

End LinearPointwise.

Lemma X3_time_distributed_linear_pointwise_witness :
  let self := TimeDistributed.mk (toy_linear inject_Z 2 1) true in
  let x := mkTensor [2; 2; 1] [1; 2; 3; 4]%Q in
  TimeDistributed.forward self x =
    Linear.forward (TimeDistributed.module self) x /\
  Linear.forward (TimeDistributed.module self) x =
    Ok (tabulate [2; 2; Linear.out_features (TimeDistributed.module self)]
          (Linear.entry (TimeDistributed.module self) x)).
Proof.
  intros self x.
  apply (@X3_time_distributed_linear_pointwise Q _ self x 2 2 1 eq_refl).
  - apply Nat.lt_0_succ.
  - apply Nat.lt_0_succ.
  - apply Nat.lt_0_succ.
  - reflexivity.
  - apply Nat.lt_0_succ.
Defined.

(** ** [TimeDistributed] around [nn.BatchNorm1d] *)

Section BatchNormPointwise.
Context {A : Type} {S : Scalar A} {An : Analytic A}.

Lemma get_unravel {X : Type} `{Inhabitant X} (x : Tensor X) (s : list nat)
    (k : nat) :
  shape x = s -> k < numel s -> get x (unravel s k) = nth k (data x) inhabitant.
Proof.
  intros Hs Hk. unfold get. rewrite Hs, ravel_unravel by exact Hk.
  reflexivity.
Qed.

Lemma TimeDistributed_BatchNorm1d_pointwise
    (self : TimeDistributed.t (BatchNorm1d.t A)) (x : Tensor A)
    (a0 a1 h : nat) :
  shape x = [a0; a1; h] -> 0 < a0 -> 0 < a1 -> 0 < h ->
  BatchNorm1d.num_features (TimeDistributed.module self) = h ->
  TimeDistributed.forward self x =
  Ok (tabulate [a0; a1; h] (fun idx =>
        BatchNorm1d.normalize (TimeDistributed.module self)
          (nth 2 idx 0) (get x idx))).
Proof.
  intros Hs Ha0 Ha1 Hh Hbn.
  set (bn := TimeDistributed.module self) in *.
  apply (@TimeDistributed_pointwise _ _ _ _ self x a0 a1 h h [a0 * a1; h]
           (fun idx => BatchNorm1d.normalize bn (nth 1 idx 0)
                         (get (mkTensor [a0 * a1; h] (data x)) idx)));
    try assumption.
  - fold bn. unfold call, NNModule_BatchNorm1d, BatchNorm1d.forward, dim.
    cbn [shape length Nat.eqb orb nth]. rewrite Hbn, Nat.eqb_refl.
    reflexivity.
  - reflexivity.
  - simpl. lia.
  - intros k Hk.
    rewrite (@get_unravel _ _ (mkTensor [a0 * a1; h] (data x)) [a0 * a1; h] k
               eq_refl) by (simpl; lia).
    rewrite (@get_unravel _ _ x [a0; a1; h] k Hs) by (simpl; lia).
    cbn [data]. rewrite unravel_rank2, unravel_rank3. cbn [nth].
    destruct (unravel_regroup k Ha1 Hh) as [_ <-]. reflexivity.
Qed.

(** X4: the normalisation layer of the gated residual network sits in
    a wrapper, so on an input of shape (a0, a1, h) it sees [a0 * a1] rows of
    [h] channels: the channel of an element is its index on the last axis,
    where [nn.BatchNorm1d] applied to the same input directly would take
    the middle axis.  Every element is normalised with the running
    statistics of that channel, in either mode of the wrapper. *)
Theorem X4_time_distributed_batch_norm
    (self : TimeDistributed.t (BatchNorm1d.t A)) (x : Tensor A)
    (a0 a1 h : nat) :
  shape x = [a0; a1; h] -> 0 < a0 -> 0 < a1 -> 0 < h ->
  BatchNorm1d.num_features (TimeDistributed.module self) = h ->
  TimeDistributed.forward self x =
  Ok (tabulate [a0; a1; h] (fun idx =>
        BatchNorm1d.normalize (TimeDistributed.module self)
          (nth 2 idx 0) (get x idx))).
Proof.
  exact (@TimeDistributed_BatchNorm1d_pointwise self x a0 a1 h).
Qed.

End BatchNormPointwise.

Lemma X4_time_distributed_batch_norm_witness :
  let self := TimeDistributed.init (toy_batch_norm IZR (1 / 100000)%R) in
  let x := mkTensor [2; 3; 1] [1; 2; 3; 4; 5; 6]%R in
  TimeDistributed.forward self x =
  Ok (tabulate [2; 3; 1] (fun idx =>
        BatchNorm1d.normalize (TimeDistributed.module self)
          (nth 2 idx 0) (get x idx))).
Proof.
  intros self x.
  apply (@X4_time_distributed_batch_norm R _ _ self x 2 3 1 eq_refl).
  - apply Nat.lt_0_succ.
  - apply Nat.lt_0_succ.
  - apply Nat.lt_0_succ.
  - reflexivity.
Defined.

(** ** The [batch_first] flag *)

Section WrappedLayers.
Context {A : Type} {S : Scalar A}.

Lemma TimeDistributed_Embedding_rejects
    (self : TimeDistributed.t (Embedding.t A)) (x : Tensor Z) (a0 a1 : nat) :
  shape x = [a0; a1; 1] ->
  forallb (Embedding.valid_code (TimeDistributed.module self)) (data x) = false ->
  TimeDistributed.forward self x = Raise IndexError.
Proof.
  intros Hs Hcodes.
  rewrite (TimeDistributed_rank3 self x Hs), (view_flatten_rank3 x Hs).
  cbn [Nat.ltb Nat.leb bind].
  unfold call, NNModule_Embedding, Embedding.forward. cbn [data].
  rewrite Hcodes. reflexivity.
Qed.

Lemma TimeDistributed_Embedding_accepts
    (self : TimeDistributed.t (Embedding.t A)) (x : Tensor Z) (a0 a1 : nat) :
  shape x = [a0; a1; 1] -> 0 < a0 -> 0 < a1 ->
  0 < Embedding.embedding_dim (TimeDistributed.module self) ->
  forallb (Embedding.valid_code (TimeDistributed.module self)) (data x) = true ->
  TimeDistributed.forward self x =
  Ok (mkTensor [a0; a1; Embedding.embedding_dim (TimeDistributed.module self)]
        (data (tabulate
                 [a0 * a1; 1;
                  Embedding.embedding_dim (TimeDistributed.module self)]
                 (fun idx =>
                    get (Embedding.weight (TimeDistributed.module self))
                        [Z.to_nat (get (mkTensor [a0 * a1; 1] (data x))
                                     (removelast idx));
                         last idx 0])))).
Proof.
  intros Hs Ha0 Ha1 He Hcodes.
  rewrite (TimeDistributed_rank3 self x Hs), (view_flatten_rank3 x Hs).
  cbn [Nat.ltb Nat.leb bind].
  unfold call, NNModule_Embedding, Embedding.forward. cbn [data shape app].
  rewrite Hcodes. cbn [bind].
  set (e := Embedding.embedding_dim (TimeDistributed.module self)) in *.
  set (y := tabulate [a0 * a1; 1; e] _).
  rewrite (@size_last_rank3 _ y (a0 * a1) 1 e eq_refl). cbn [bind].
  assert (Hn : numel (shape y) = a0 * a1 * e) by (simpl; lia).
  destruct (TimeDistributed.batch_first self).
  - apply (@view_regroup_batch_first _ y a0 a1 e Hn Ha0 He).
  - apply (@view_regroup_time_first _ y a0 a1 e Hn Ha1 He).
Qed.

(** X5: the constructor of the model passes [batch_first=True] for the
    layers it wraps around [nn.Linear] and around [nn.Embedding].  For
    these two layers the flag makes no difference on an input of rank 3
    with no empty axis: a linear layer of [f] input features on an input of
    shape (a0, a1, f), and an embedding table on codes of shape (a0, a1, 1),
    give the same result, or the same exception, in batch-first mode and in
    default mode. *)
Theorem X5_batch_first_irrelevant_for_wrapped_layers
    (l : Linear.t A) (table : Embedding.t A)
    (x : Tensor A) (codes : Tensor Z) (a0 a1 f : nat) :
  shape x = [a0; a1; f] -> shape codes = [a0; a1; 1] ->
  0 < a0 -> 0 < a1 -> 0 < f ->
  Linear.in_features l = f -> 0 < Linear.out_features l ->
  0 < Embedding.embedding_dim table ->
  TimeDistributed.forward (TimeDistributed.mk l true) x =
    TimeDistributed.forward (TimeDistributed.mk l false) x /\
  TimeDistributed.forward (TimeDistributed.mk table true) codes =
    TimeDistributed.forward (TimeDistributed.mk table false) codes.
Proof.
  intros Hx Hcodes Ha0 Ha1 Hf Hin Hout He. split.
  - rewrite (@TimeDistributed_Linear_pointwise _ _
               (TimeDistributed.mk l true) x a0 a1 f Hx Ha0 Ha1 Hf Hin Hout).
    rewrite (@TimeDistributed_Linear_pointwise _ _
               (TimeDistributed.mk l false) x a0 a1 f Hx Ha0 Ha1 Hf Hin Hout).
    reflexivity.
  - destruct (forallb (Embedding.valid_code table) (data codes)) eqn:Hvalid.
    + rewrite (@TimeDistributed_Embedding_accepts
                 (TimeDistributed.mk table true) codes a0 a1
                 Hcodes Ha0 Ha1 He Hvalid).
      rewrite (@TimeDistributed_Embedding_accepts
                 (TimeDistributed.mk table false) codes a0 a1
                 Hcodes Ha0 Ha1 He Hvalid).
      reflexivity.
    + rewrite (@TimeDistributed_Embedding_rejects
                 (TimeDistributed.mk table true) codes a0 a1 Hcodes Hvalid).
      rewrite (@TimeDistributed_Embedding_rejects
                 (TimeDistributed.mk table false) codes a0 a1 Hcodes Hvalid).
      reflexivity.
Qed.

End WrappedLayers.

Lemma X5_batch_first_irrelevant_for_wrapped_layers_witness :
  let l := toy_linear inject_Z 2 1 in
  let table := toy_table inject_Z [7; 8; 9]%Z in
  let x := mkTensor [2; 3; 1] [1; 2; 3; 4; 5; 6]%Q in
  let codes := mkTensor [2; 3; 1] [0; 1; 2; 2; 1; 0]%Z in
  TimeDistributed.forward (TimeDistributed.mk l true) x =
    TimeDistributed.forward (TimeDistributed.mk l false) x /\
  TimeDistributed.forward (TimeDistributed.mk table true) codes =
    TimeDistributed.forward (TimeDistributed.mk table false) codes.
Proof.
  intros l table x codes.
  apply (@X5_batch_first_irrelevant_for_wrapped_layers Q _ l table x codes
           2 3 1 eq_refl eq_refl).
  - apply Nat.lt_0_succ.
  - apply Nat.lt_0_succ.
  - apply Nat.lt_0_succ.
  - reflexivity.
  - apply Nat.lt_0_succ.
  - apply Nat.lt_0_succ.
Defined.

(** ** The gated linear unit *)

Lemma sigmoid_between (z : R) :
  (0 < Sigmoid.sigmoid z < 1)%R.
Proof.
  unfold Sigmoid.sigmoid. cbn [fdiv fone fadd fexp fneg Analytic_R Scalar_R].
  pose proof (exp_pos (- z)) as He.
  unfold Rdiv. rewrite Rmult_1_l. split.
  - apply Rinv_0_lt_compat. lra.
  - rewrite <- Rinv_1 at 2. apply Rinv_lt_contravar; lra.
Qed.

(** X6: a gated linear unit whose two linear layers map [h] features to
    [h] features keeps the shape of an input whose last axis has size [h];
    every entry of the result is the entry of the second layer scaled by the
    sigmoid of the entry of the first.  Over the reals the gate lies
    strictly between 0 and 1, so the result is never larger in absolute
    value than the second layer's entry and never of the opposite sign. *)
Theorem X6_glu_gate_bounded (glu : GLU.t R) (x : Tensor R)
    (pre : list nat) (h : nat) :
  shape x = pre ++ [h] ->
  Linear.in_features (GLU.fc1 glu) = h -> Linear.out_features (GLU.fc1 glu) = h ->
  Linear.in_features (GLU.fc2 glu) = h -> Linear.out_features (GLU.fc2 glu) = h ->
  exists y,
    GLU.forward glu x = Ok y /\ shape y = shape x /\
    forall idx, in_bounds (shape x) idx = true ->
      get y idx = (Sigmoid.sigmoid (Linear.entry (GLU.fc1 glu) x idx)
                   * Linear.entry (GLU.fc2 glu) x idx)%R /\
      (Rabs (get y idx) <= Rabs (Linear.entry (GLU.fc2 glu) x idx))%R /\
      (0 <= get y idx * Linear.entry (GLU.fc2 glu) x idx)%R.
Proof.
  intros Hs Hi1 Ho1 Hi2 Ho2. unfold GLU.forward, call, NNModule_Linear.
  rewrite !(Linear_forward_app _ x pre h Hs).
  rewrite Hi1, Hi2, Ho1, Ho2, Nat.eqb_refl. cbn [bind].
  unfold Sigmoid.forward. rewrite tmap_tabulate.
  unfold tmul. rewrite broadcast2_same by reflexivity.
  eexists. split; [reflexivity|]. rewrite Hs.
  split; [reflexivity|]. intros idx Hidx.
  cbn [shape tabulate]. rewrite !get_tabulate by exact Hidx.
  cbn [fmul Scalar_R].
  set (g := Sigmoid.sigmoid (Linear.entry (GLU.fc1 glu) x idx)).
  set (v := Linear.entry (GLU.fc2 glu) x idx).
  pose proof (sigmoid_between (Linear.entry (GLU.fc1 glu) x idx)) as Hg.
  fold g in Hg.
  split; [reflexivity|]. split.
  - rewrite Rabs_mult, (Rabs_pos_eq g) by lra.
    pose proof (Rabs_pos v). nra.
  - pose proof (Rle_0_sqr v) as Hsq. unfold Rsqr in Hsq.
    replace (g * v * v)%R with (g * (v * v))%R by ring.
    apply Rmult_le_pos; lra.
Qed.

Lemma X6_glu_gate_bounded_witness :
  let glu := GLU.mk (toy_linear IZR 0 0) (toy_linear IZR 1 0) in
  let x := mkTensor [2; 1] [3; -4]%R in
  exists y,
    GLU.forward glu x = Ok y /\ shape y = shape x /\
    forall idx, in_bounds (shape x) idx = true ->
      get y idx = (Sigmoid.sigmoid (Linear.entry (GLU.fc1 glu) x idx)
                   * Linear.entry (GLU.fc2 glu) x idx)%R /\
      (Rabs (get y idx) <= Rabs (Linear.entry (GLU.fc2 glu) x idx))%R /\
      (0 <= get y idx * Linear.entry (GLU.fc2 glu) x idx)%R.
Proof.
  intros glu x.
  apply (@X6_glu_gate_bounded glu x [2] 1); reflexivity.
Defined.

(** ** The gated residual network *)

Section NetworkEdges.
Context {A : Type} {S : Scalar A} {An : Analytic A}.

Lemma shape_ELU_forward (e : ELU.t A) (x : Tensor A) :
  shape (ELU.forward e x) = shape x.
Proof. reflexivity. Qed.

(** X7: a network built without [hidden_context_size] has no context
    layer; when it is nevertheless called with a context, the first linear
    layer is applied and the call then stops with [AttributeError],
    whatever the context holds. *)
Theorem X7_grn_context_without_layer (grn : GatedResidualNetwork.t A)
    (x c : Tensor A) (i o a0 a1 : nat) :
  grn_constructed i o None grn ->
  shape x = [a0; a1; i] -> 0 < a0 -> 0 < a1 -> 0 < i -> 0 < o ->
  GatedResidualNetwork.forward grn x (Some c) = Raise AttributeError.
Proof.
  intros (_ & _ & _ & Hfc1 & Hctx & _) Hx Ha0 Ha1 Hi Ho.
  unfold GatedResidualNetwork.forward.
  destruct (TimeDistributed_Linear_shape x Hfc1 Hx Ha0 Ha1 Hi Ho)
    as (v & -> & Sv).
  cbn [bind].
  destruct (GatedResidualNetwork.context grn) as [layer|]; [contradiction|].
  reflexivity.
Qed.

(** X8: the second linear layer is built with [input_size] input
    features but receives the [output_size] features produced by the first
    one.  A network built with two different sizes therefore never gets
    past its second layer: the call raises [RuntimeError]. *)
Theorem X8_grn_needs_equal_sizes (grn : GatedResidualNetwork.t A)
    (x : Tensor A) (i o : nat) (hc : option nat) (a0 a1 : nat) :
  grn_constructed i o hc grn -> i <> o ->
  shape x = [a0; a1; i] -> 0 < a0 -> 0 < a1 -> 0 < i -> 0 < o ->
  GatedResidualNetwork.forward grn x None = Raise RuntimeError.
Proof.
  intros (_ & _ & _ & Hfc1 & _ & (_ & Hin2 & _) & _) Hio Hx Ha0 Ha1 Hi Ho.
  unfold GatedResidualNetwork.forward.
  destruct (TimeDistributed_Linear_shape x Hfc1 Hx Ha0 Ha1 Hi Ho)
    as (v & -> & Sv).
  cbn [bind].
  assert (Se : shape (ELU.forward (GatedResidualNetwork.elu1 grn) v)
               = [a0; a1; o]) by (rewrite shape_ELU_forward; exact Sv).
  unfold call at 1, NNModule_TimeDistributed.
  rewrite (TimeDistributed_rank3 _ _ Se), (view_flatten_rank3 _ Se).
  replace (0 <? o) with true by (symmetry; apply Nat.ltb_lt; exact Ho).
  cbn [bind]. unfold call at 1, NNModule_Linear.
  rewrite (@Linear_forward_rank2 _ _ _ (mkTensor [a0 * a1; o] _)
             (a0 * a1) o eq_refl).
  rewrite Hin2.
  replace (o =? i) with false
    by (symmetry; apply Nat.eqb_neq; intro E; apply Hio; symmetry; exact E).
  reflexivity.
Qed.


End NetworkEdges.

Lemma toy_grn_constructed :
  grn_constructed 1 1 None (toy_grn IZR (1 / 100000)%R None).
Proof.
  unfold grn_constructed, is_linear. cbn -[IZR Rdiv].
  repeat split; reflexivity.
Qed.

Lemma widening_grn_constructed : grn_constructed 1 2 None widening_grn.
Proof.
  unfold grn_constructed, is_linear. cbn -[IZR Rdiv].
  repeat split; reflexivity.
Qed.

Lemma X7_grn_context_without_layer_witness :
  GatedResidualNetwork.forward (toy_grn IZR (1 / 100000)%R None)
    (mkTensor [1; 1; 1] [1%R]) (Some (zeros [1; 1; 1])) =
  Raise AttributeError.
Proof.
  apply (@X7_grn_context_without_layer R _ _
           (toy_grn IZR (1 / 100000)%R None)
           (mkTensor [1; 1; 1] [1%R]) (zeros [1; 1; 1]) 1 1 1 1
           toy_grn_constructed eq_refl);
    apply Nat.lt_0_succ.
Defined.

Lemma X8_grn_needs_equal_sizes_witness :
  GatedResidualNetwork.forward widening_grn (mkTensor [1; 1; 1] [1%R]) None =
  Raise RuntimeError.
Proof.
  apply (@X8_grn_needs_equal_sizes R _ _ widening_grn
           (mkTensor [1; 1; 1] [1%R]) 1 2 None 1 1 widening_grn_constructed).
  - discriminate.
  - reflexivity.
  - apply Nat.lt_0_succ.
  - apply Nat.lt_0_succ.
  - apply Nat.lt_0_succ.
  - apply Nat.lt_0_succ.
Defined.


(** ** Models without a variable of some kind *)

Lemma bind_never_ok {X Y : Type} (c : result X) (k : X -> result Y) :
  (forall x, c = Ok x -> forall r, k x <> Ok r) ->
  forall r, bind c k <> Ok r.
Proof.
  intros Hk r. destruct c as [x|e]; cbn [bind].
  - apply (Hk x eq_refl).
  - discriminate.
Qed.

Section VariableCounts.
Context {A : Type} {S : Scalar A} {An : Analytic A}.
Context {LW AW : Type} {RT : Runtime A LW AW}.

Lemma apply_embedding_no_variables (self : TFT.t A LW AW)
    (x static_embedding : Tensor A) :
  TFT.time_varying_real_variables self = 0 \/
  TFT.time_varying_categoical_variables self = 0 ->
  forall r, TFT.apply_embedding self x static_embedding <> Ok r.
Proof.
  intros [H0|H0]; unfold TFT.apply_embedding; rewrite H0.
  - intros r. cbn [seq for_each bind cat]. discriminate.
  - apply bind_never_ok. intros reals _.
    apply bind_never_ok. intros real_embedding _.
    intros r. cbn [seq for_each bind cat]. discriminate.
Qed.

(** X10: [apply_embedding] concatenates the embeddings of the real
    variables and those of the categorical variables with [torch.cat], which
    rejects an empty list.  A model with no time-varying real variable or no
    time-varying categorical variable therefore embeds nothing: the call
    returns for no input.  Which exception [torch.cat] raises is left
    open. *)
Theorem X10_apply_embedding_needs_both_kinds (self : TFT.t A LW AW)
    (x static_embedding : Tensor A) :
  TFT.time_varying_real_variables self = 0 \/
  TFT.time_varying_categoical_variables self = 0 ->
  forall r, TFT.apply_embedding self x static_embedding <> Ok r.
Proof.
  intros H0 r Hr. destruct H0 as [H0|H0].
  - exact (apply_embedding_no_variables self x static_embedding
             (or_introl H0) Hr).
  - exact (apply_embedding_no_variables self x static_embedding
             (or_intror H0) Hr).
Qed.

(** X11: the forward pass needs at least one variable of each of the
    three kinds.  With no static variable the concatenation of the static
    embeddings is given an empty list; with no time-varying real or
    categorical variable the embedding of the encoder window fails in the
    same way.  In each case the call returns for no input batch. *)
Theorem X11_forward_needs_every_kind (self : TFT.t A LW AW) (x : TFT.batch A) :
  TFT.static_variables self = 0 \/
  TFT.time_varying_real_variables self = 0 \/
  TFT.time_varying_categoical_variables self = 0 ->
  forall r, TFT.forward self x <> Ok r.
Proof.
  intros [H0|H0].
  - intros r. unfold TFT.forward. rewrite H0.
    cbn [seq for_each bind cat]. discriminate.
  - unfold TFT.forward.
    apply bind_never_ok. intros vectors _.
    apply bind_never_ok. intros static_embedding _.
    apply bind_never_ok. intros window _.
    apply bind_never_ok. intros embeddings Hemb.
    exfalso. exact (apply_embedding_no_variables _ _ _ H0 Hemb).
Qed.

End VariableCounts.

Lemma X10_apply_embedding_needs_both_kinds_witness :
  ~ exists r,
      TFT.apply_embedding (no_real_model inject_Z (1 # 100000)%Q)
        two_by_two two_static = Ok r.
Proof.
  intros [r Hr]. revert Hr.
  apply (@X10_apply_embedding_needs_both_kinds Q _ unit unit
           (no_real_model inject_Z (1 # 100000)%Q) two_by_two two_static).
  left. reflexivity.
Defined.

Lemma X11_forward_needs_every_kind_witness :
  ~ exists r,
      TFT.forward (RT := shape_runtime) (no_real_model IZR (1 / 100000)%R)
        (toy_batch 2%R) = Ok r.
Proof.
  intros [r Hr]. revert Hr.
  apply (@X11_forward_needs_every_kind R _ _ unit unit shape_runtime
           (no_real_model IZR (1 / 100000)%R) (toy_batch 2%R)).
  right. left. reflexivity.
Defined.

(** ** Static codes outside their table *)


Section StaticCodes.
Context {A : Type} {S : Scalar A} {An : Analytic A}.
Context {LW AW : Type} {RT : Runtime A LW AW}.



End StaticCodes.



(** ** The feature columns the forward pass reads *)

Lemma bind_cong {X Y : Type} (c c' : result X) (k k' : X -> result Y) :
  c = c' -> (forall x, k x = k' x) -> bind c k = bind c' k'.
Proof. intros -> Hk. apply bind_ext. exact Hk. Qed.

(** [t[:, :n, :]] and [t[:, n:, :]] for any [n]: Python clamps the bound
    to the length of the axis. *)
Lemma getitem_steps_upto_clamped {X : Type} `{Inhabitant X} (t : Tensor X)
    (a b c n : nat) :
  shape t = [a; b; c] ->
  getitem t [Full; UpTo (Z.of_nat n); Full] =
  Ok (tabulate [a; Nat.min n b; c] (fun idx =>
        get t [nth 0 idx 0; nth 1 idx 0; nth 2 idx 0])).
Proof.
  intros Hs. unfold getitem. rewrite Hs.
  cbn [select_axes select_axis bind]. rewrite clamp_slice_of_nat.
  apply f_equal. apply (tabulate_ext [a; Nat.min n b; c]). intros idx Hb.
  pose proof (in_bounds_length _ _ Hb) as Hlen.
  destruct idx as [|i0 [|i1 [|i2 [|? ?]]]]; try discriminate. reflexivity.
Qed.

Lemma getitem_steps_from_clamped {X : Type} `{Inhabitant X} (t : Tensor X)
    (a b c n : nat) :
  shape t = [a; b; c] ->
  getitem t [Full; From (Z.of_nat n); Full] =
  Ok (tabulate [a; b - Nat.min n b; c] (fun idx =>
        get t [nth 0 idx 0; Nat.min n b + nth 1 idx 0; nth 2 idx 0])).
Proof.
  intros Hs. unfold getitem. rewrite Hs.
  cbn [select_axes select_axis bind]. rewrite clamp_slice_of_nat.
  apply f_equal. apply (tabulate_ext [a; b - Nat.min n b; c]). intros idx Hb.
  pose proof (in_bounds_length _ _ Hb) as Hlen.
  destruct idx as [|i0 [|i1 [|i2 [|? ?]]]]; try discriminate. reflexivity.
Qed.

(** Two arrays of the same shape that agree on column [i] have the same
    [t[:, :, i]]; when the column does not exist both lookups fail. *)
Lemma getitem_column_agree {X : Type} `{Inhabitant X} (t t' : Tensor X)
    (a b c i : nat) :
  shape t = [a; b; c] -> shape t' = [a; b; c] ->
  (i < c -> forall n k, n < a -> k < b -> get t [n; k; i] = get t' [n; k; i]) ->
  getitem t [Full; Full; At (Z.of_nat i)] =
  getitem t' [Full; Full; At (Z.of_nat i)].
Proof.
  intros Hs Hs' Hcol. destruct (Nat.ltb_spec i c) as [Hi|Hi].
  - rewrite (getitem_column t Hs Hi), (getitem_column t' Hs' Hi).
    apply f_equal. apply (tabulate_ext [a; b]). intros idx Hb.
    destruct (in_bounds_rank2 _ _ _ Hb) as [H0 H1].
    apply (Hcol Hi); assumption.
  - unfold getitem. rewrite Hs, Hs'.
    cbn [select_axes select_axis bind]. rewrite normalize_index_of_nat.
    replace (i <? c) with false by (symmetry; apply Nat.ltb_ge; exact Hi).
    reflexivity.
Qed.

Section FeatureColumns.
Context {A : Type} {S : Scalar A} {An : Analytic A}.
Context {LW AW : Type} {RT : Runtime A LW AW}.

Lemma apply_embedding_agree (self : TFT.t A LW AW) (w w' st : Tensor A)
    (a b c : nat) :
  shape w = [a; b; c] -> shape w' = [a; b; c] ->
  (forall n k i, n < a -> k < b -> i < c ->
     i < TFT.time_varying_real_variables self
         + TFT.time_varying_categoical_variables self ->
     get w [n; k; i] = get w' [n; k; i]) ->
  TFT.apply_embedding self w st = TFT.apply_embedding self w' st.
Proof.
  intros Hw Hw' Hagree.
  assert (Hsz : size w 0 = size w' 0)
    by (unfold size, dim; rewrite Hw, Hw'; reflexivity).
  assert (Hcol : forall i,
            i < TFT.time_varying_real_variables self
                + TFT.time_varying_categoical_variables self ->
            getitem w [Full; Full; At (Z.of_nat i)] =
            getitem w' [Full; Full; At (Z.of_nat i)]).
  { intros i Hi. apply (getitem_column_agree w w' Hw Hw').
    intros Hic n k Hn Hk. apply Hagree; assumption. }
  unfold TFT.apply_embedding. apply bind_cong.
  { apply for_each_ext. intros i Hin. apply in_seq in Hin.
    rewrite Hcol, Hsz by lia. reflexivity. }
  intros reals. apply bind_ext. intros real_embedding. apply bind_cong.
  { apply for_each_ext. intros i Hin. apply in_seq in Hin.
    rewrite Hcol, Hsz by lia. reflexivity. }
  intros cats. rewrite Hsz. reflexivity.
Qed.

(** X13: of the [inputs] array the forward pass reads the feature
    columns of the time-varying variables only, the columns below
    [time_varying_real_variables + time_varying_categoical_variables].  Two
    batches with the same identifiers whose inputs have the same
    batch-by-time-by-feature shape and agree on these columns give the same
    result, or raise the same exception, whatever the remaining columns
    hold. *)
Theorem X13_forward_reads_time_varying_columns (self : TFT.t A LW AW)
    (x x' : TFT.batch A) (b steps features : nat) :
  TFT.identifier x = TFT.identifier x' ->
  shape (TFT.inputs x) = [b; steps; features] ->
  shape (TFT.inputs x') = [b; steps; features] ->
  (forall n t i, n < b -> t < steps -> i < features ->
     i < TFT.time_varying_real_variables self
         + TFT.time_varying_categoical_variables self ->
     get (TFT.inputs x) [n; t; i] = get (TFT.inputs x') [n; t; i]) ->
  TFT.forward self x = TFT.forward self x'.
Proof.
  intros Hid Hs Hs' Hagree. unfold TFT.forward. rewrite Hid.
  apply bind_ext. intros vectors. apply bind_ext. intros static_embedding.
  rewrite (getitem_steps_upto_clamped _ (TFT.encode_length self) Hs).
  rewrite (getitem_steps_upto_clamped _ (TFT.encode_length self) Hs').
  rewrite (getitem_steps_from_clamped _ (TFT.encode_length self) Hs).
  rewrite (getitem_steps_from_clamped _ (TFT.encode_length self) Hs').
  cbn [bind]. unfold float.
  apply bind_cong.
  { apply (@apply_embedding_agree self _ _ static_embedding
             b (Nat.min (TFT.encode_length self) steps) features);
      [reflexivity|reflexivity|].
    intros n k i Hn Hk Hi Hcol.
    rewrite !get_tabulate by (apply in_bounds_rank3; assumption).
    cbn [nth]. apply Hagree; try assumption. lia. }
  intros embeddings_encoder. apply bind_cong; [|reflexivity].
  apply (@apply_embedding_agree self _ _ static_embedding
           b (steps - Nat.min (TFT.encode_length self) steps) features);
    [reflexivity|reflexivity|].
  intros n k i Hn Hk Hi Hcol.
  rewrite !get_tabulate by (apply in_bounds_rank3; assumption).
  cbn [nth]. apply Hagree; try assumption. lia.
Qed.

End FeatureColumns.

Lemma padded_steps_agree (extra extra' : R) (n t i : nat) :
  n < 1 -> t < 2 -> i < 3 -> i < 1 + 1 ->
  get (padded_steps extra) [n; t; i] = get (padded_steps extra') [n; t; i].
Proof.
  intros Hn Ht Hi3 Hi.
  assert (n = 0) by lia. subst n.
  destruct t as [|[|t]]; [| |lia];
    (destruct i as [|[|i]]; [reflexivity|reflexivity|lia]).
Qed.

Lemma X13_forward_reads_time_varying_columns_witness :
  TFT.forward (RT := shape_runtime) (toy_model IZR (1 / 100000)%R 1 1)
    (padded_batch 0%R) =
  TFT.forward (RT := shape_runtime) (toy_model IZR (1 / 100000)%R 1 1)
    (padded_batch 1%R).
Proof.
  apply (@X13_forward_reads_time_varying_columns R _ _ unit unit
           shape_runtime (toy_model IZR (1 / 100000)%R 1 1)
           (padded_batch 0%R) (padded_batch 1%R) 1 2 3).
  - reflexivity.
  - reflexivity.
  - reflexivity.
  - exact (padded_steps_agree 0%R 1%R).
Defined.

(** ** Windows without a time step *)

Lemma for_each_Ok_Forall {X Y : Type} (body : X -> result Y) (P : Y -> Prop)
    (l : list X) :
  (forall x y, In x l -> body x = Ok y -> P y) ->
  forall ys, for_each body l = Ok ys -> Forall P ys /\ length ys = length l.
Proof.
  induction l as [|x l IH]; intros HP ys E; cbn [for_each] in E.
  - apply Ok_inj in E. subst ys. split; [constructor|reflexivity].
  - destruct (body x) as [y|] eqn:Ey; cbn [bind] in E; [|discriminate].
    destruct (for_each body l) as [ys'|] eqn:El; cbn [bind] in E;
      [|discriminate].
    apply Ok_inj in E. subst ys.
    destruct (IH (fun x' y' Hin => HP x' y' (or_intror Hin)) ys' eq_refl)
      as [HF HL].
    split.
    + constructor; [apply (HP x y (or_introl eq_refl) Ey)|exact HF].
    + simpl. rewrite HL. reflexivity.
Qed.

Lemma getitem_column_missing {X : Type} `{Inhabitant X} (t : Tensor X)
    (a b c i : nat) :
  shape t = [a; b; c] -> c <= i ->
  getitem t [Full; Full; At (Z.of_nat i)] = Raise IndexError.
Proof.
  intros Hs Hi. unfold getitem. rewrite Hs.
  cbn [select_axes select_axis bind]. rewrite normalize_index_of_nat.
  replace (i <? c) with false by (symmetry; apply Nat.ltb_ge; exact Hi).
  reflexivity.
Qed.

Section EmptyWindow.
Context {A : Type} {S : Scalar A}.

(** A wrapped embedding table on a column without a time step: whenever
    the call returns, the result has no time step either. *)
Lemma TimeDistributed_Embedding_no_step
    (layer : TimeDistributed.t (Embedding.t A)) (x : Tensor Z) (b : nat)
    (y : Tensor A) :
  shape x = [b; 0; 1] -> call layer x = Ok y ->
  exists m, shape y = [b; 0; m].
Proof.
  intros Hx. unfold call, NNModule_TimeDistributed.
  rewrite (TimeDistributed_rank3 layer x Hx), (view_flatten_rank3 x Hx).
  cbn [Nat.ltb Nat.leb bind].
  unfold call, NNModule_Embedding, Embedding.forward.
  destruct (forallb _ _); cbn [bind]; [|discriminate].
  set (e := Embedding.embedding_dim (TimeDistributed.module layer)).
  set (y0 := tabulate _ _).
  assert (Sy0 : shape y0 = [b * 0; 1; e]) by reflexivity.
  rewrite (size_last_rank3 y0 Sy0). cbn [bind].
  assert (Hn : numel (shape y0) = 0) by (rewrite Sy0; simpl; lia).
  destruct (TimeDistributed.batch_first layer).
  - rewrite view_batch_first, Hn.
    destruct ((0 <? b * e) && (0 mod (b * e) =? 0)); [|discriminate].
    intros E. apply Ok_inj in E. subst y. exists e.
    cbn [shape]. rewrite Nat.Div0.div_0_l. reflexivity.
  - rewrite view_time_first. cbn [Nat.mul Nat.ltb Nat.leb andb].
    discriminate.
Qed.

Context {LW AW : Type}.

Lemma apply_embedding_no_step (self : TFT.t A LW AW)
    (w static_embedding : Tensor A) (b f : nat) :
  shape w = [b; 0; f] ->
  forall r, TFT.apply_embedding self w static_embedding <> Ok r.
Proof.
  intros Hw. unfold TFT.apply_embedding.
  apply bind_never_ok. intros reals _.
  apply bind_never_ok. intros real_embedding _.
  apply bind_never_ok. intros cats Hcats.
  apply bind_never_ok. intros ccat Hccat.
  assert (HP : Forall (fun y : Tensor A => exists m, shape y = [b; 0; m]) cats).
  { refine (proj1 (for_each_Ok_Forall _ _ _ _ Hcats)).
    intros i y _.
    destruct (list_item (TFT.time_varying_embedding_layers self) i)
      as [layer|]; cbn [bind]; [|discriminate].
    destruct (Nat.ltb_spec (TFT.time_varying_real_variables self + i) f)
      as [Hi|Hi].
    - rewrite (getitem_column w Hw Hi). cbn [bind].
      destruct (size_rank3 w Hw) as (-> & _). cbn [bind].
      change 1%Z with (Z.of_nat 1).
      rewrite view_batch_first. cbn [shape tabulate numel fold_right].
      rewrite Nat.mul_0_l, Nat.mul_0_r.
      destruct ((0 <? b * 1) && (0 mod (b * 1) =? 0)); cbn [bind];
        [|discriminate].
      rewrite Nat.Div0.div_0_l.
      apply TimeDistributed_Embedding_no_step. reflexivity.
    - rewrite (getitem_column_missing w Hw Hi). discriminate. }
  destruct cats as [|t0 cats]; [discriminate Hccat|].
  inversion HP as [|? ? [m Ht0] _]; subst.
  unfold cat in Hccat. unfold dim in Hccat. rewrite Ht0 in Hccat.
  cbn [length Nat.ltb Nat.leb] in Hccat.
  destruct (forallb _ _); [|discriminate Hccat].
  apply Ok_inj in Hccat. subst ccat.
  intros r. unfold size, dim. cbn [shape tabulate replace_nth length].
  cbn [normalize_index Z.ltb Z.leb Z.compare Z.of_nat andb bind Z.to_nat
       Pos.to_nat Pos.iter_op Nat.add nth Pos.of_succ_nat Pos.succ
       Pos.compare Pos.compare_cont repeat cat].
  discriminate.
Qed.

(** X14: a window without a time step cannot be embedded.  When the
    categorical embeddings come out, they have no time step, the static
    vector is repeated zero times and [torch.cat] is given an empty list: on
    an input of shape (b, 0, f) [apply_embedding] returns for no model and
    no static embedding. *)
Theorem X14_apply_embedding_empty_window (self : TFT.t A LW AW)
    (w static_embedding : Tensor A) (b f : nat) :
  shape w = [b; 0; f] ->
  forall r, TFT.apply_embedding self w static_embedding <> Ok r.
Proof. exact (@apply_embedding_no_step self w static_embedding b f). Qed.

Context {An : Analytic A} {RT : Runtime A LW AW}.

(** X15: the forward pass embeds the first [encode_length] time steps
    and the remaining ones separately, and neither window may be empty.  On
    inputs of shape (b, steps, features) with [steps <= encode_length], or
    with a model whose [encode_length] is 0, the call returns for no
    batch. *)
Theorem X15_forward_needs_both_windows (self : TFT.t A LW AW)
    (x : TFT.batch A) (b steps features : nat) :
  shape (TFT.inputs x) = [b; steps; features] ->
  steps <= TFT.encode_length self \/ TFT.encode_length self = 0 ->
  forall r, TFT.forward self x <> Ok r.
Proof.
  intros Hs Hshort. unfold TFT.forward.
  apply bind_never_ok. intros vectors _.
  apply bind_never_ok. intros static_embedding _.
  rewrite (getitem_steps_upto_clamped _ (TFT.encode_length self) Hs).
  rewrite (getitem_steps_from_clamped _ (TFT.encode_length self) Hs).
  cbn [bind]. unfold float.
  apply bind_never_ok. intros embeddings_encoder Hee.
  destruct (Nat.eq_dec (Nat.min (TFT.encode_length self) steps) 0) as [E0|E0].
  - exfalso. rewrite E0 in Hee.
    refine (@apply_embedding_no_step self _ static_embedding b features
              _ _ Hee).
    reflexivity.
  - apply bind_never_ok. intros embeddings_decoder Hed.
    exfalso.
    replace (steps - Nat.min (TFT.encode_length self) steps) with 0 in Hed
      by lia.
    refine (@apply_embedding_no_step self _ static_embedding b features
              _ _ Hed).
    reflexivity.
Qed.

End EmptyWindow.

Lemma X14_apply_embedding_empty_window_witness :
  ~ exists r,
      TFT.apply_embedding (toy_model inject_Z (1 # 100000)%Q 2 1)
        (mkTensor [2; 0; 2] []) two_static = Ok r.
Proof.
  intros [r Hr]. revert Hr.
  exact (@X14_apply_embedding_empty_window Q _ unit unit
           (toy_model inject_Z (1 # 100000)%Q 2 1)
           (mkTensor [2; 0; 2] []) two_static 2 2 eq_refl r).
Defined.

Lemma X15_forward_needs_both_windows_witness :
  ~ exists r,
      TFT.forward (RT := shape_runtime) (toy_model IZR (1 / 100000)%R 1 5)
        (padded_batch 0%R) = Ok r.
Proof.
  intros [r Hr]. revert Hr.
  apply (@X15_forward_needs_both_windows R _ unit unit _ shape_runtime
           (toy_model IZR (1 / 100000)%R 1 5) (padded_batch 0%R) 1 2 3
           eq_refl).
  left. apply le_S. apply le_S. apply le_S. apply le_n.
Defined.

(** ** The entries of the fused embedding *)

Lemma for_each_seq_spec {Y : Type} (body : nat -> result Y)
    (P : nat -> Y -> Prop) (n : nat) :
  (forall i, i < n -> exists y, body i = Ok y /\ P i y) ->
  exists ys, for_each body (seq 0 n) = Ok ys /\ length ys = n /\
             forall i d, i < n -> P i (nth i ys d).
Proof.
  assert (Hgen : forall n s,
            (forall i, i < n -> exists y, body (s + i) = Ok y /\ P (s + i) y) ->
            exists ys, for_each body (seq s n) = Ok ys /\ length ys = n /\
                       forall i d, i < n -> P (s + i) (nth i ys d)).
  { clear n. induction n as [|n IH]; intros s Hbody.
    - exists []. split; [reflexivity|]. split; [reflexivity|]. intros; lia.
    - destruct (Hbody 0 (Nat.lt_0_succ n)) as (y & Ey & Py).
      rewrite Nat.add_0_r in Ey, Py.
      destruct (IH (S s)) as (ys & Eys & Lys & Pys).
      { intros i Hi. destruct (Hbody (S i) ltac:(lia)) as (y' & Ey' & Py').
        exists y'. replace (S s + i) with (s + S i) by lia. auto. }
      exists (y :: ys). cbn [seq for_each]. rewrite Ey, Eys. cbn [bind].
      split; [reflexivity|]. split; [simpl; lia|].
      intros [|i] d Hi.
      + rewrite Nat.add_0_r. exact Py.
      + replace (s + S i) with (S s + i) by lia. apply Pys. lia. }
  intros Hbody. apply (Hgen n 0). exact Hbody.
Qed.

Lemma nth_Forall {X : Type} (P : X -> Prop) (l : list X) :
  (forall i d, i < length l -> P (nth i l d)) -> Forall P l.
Proof.
  intros H. apply Forall_forall. intros x Hx.
  destruct (In_nth l x x Hx) as (i & Hi & <-). apply H. exact Hi.
Qed.

(** [torch.cat] of arrays of one shape, entry by entry. *)
Lemma cat_uniform_eq {X : Type} `{Inhabitant X} (ts : list (Tensor X))
    (s : list nat) (d : nat) :
  ts <> [] -> d < length s -> Forall (fun t => shape t = s) ts ->
  cat ts d =
  Ok (tabulate (replace_nth s d (length ts * nth d s 0)) (cat_get ts d)).
Proof.
  intros Hne Hd Hall. destruct ts as [|t0 rest]; [congruence|].
  pose proof (Forall_inv Hall) as H0. unfold cat, dim.
  rewrite H0. replace (d <? length s) with true
    by (symmetry; apply Nat.ltb_lt; exact Hd).
  replace (forallb (cat_compatible d t0) (t0 :: rest)) with true.
  - rewrite (cat_total_uniform d Hall). reflexivity.
  - symmetry. apply forallb_forall. intros t Ht.
    unfold cat_compatible. rewrite Forall_forall in Hall.
    rewrite (Hall t Ht), H0. apply list_eqb_refl.
Qed.

Lemma cat_last3_eq {X : Type} `{Inhabitant X} (t1 t2 t3 : Tensor X)
    (a b c1 c2 c3 : nat) :
  shape t1 = [a; b; c1] -> shape t2 = [a; b; c2] -> shape t3 = [a; b; c3] ->
  cat [t1; t2; t3] 2 =
  Ok (tabulate [a; b; c1 + c2 + c3] (cat_get [t1; t2; t3] 2)).
Proof.
  intros H1 H2 H3. unfold cat, cat_compatible, dim.
  cbn [forallb]. rewrite H1, H2, H3.
  cbn [length Nat.ltb Nat.leb replace_nth].
  rewrite list_eqb_refl. cbn [andb fold_right nth]. rewrite H1, H2, H3.
  cbn [nth]. replace (c1 + (c2 + (c3 + 0))) with (c1 + c2 + c3) by lia.
  reflexivity.
Qed.

(** Position [c] on the last axis of a concatenation of arrays of width
    [e] lies in array [c / e], at position [c mod e]. *)
Lemma cat_get_last_uniform {X : Type} `{Inhabitant X} (ts : list (Tensor X))
    (a b e : nat) (d : Tensor X) :
  0 < e -> Forall (fun t => shape t = [a; b; e]) ts ->
  forall n t c, c < length ts * e ->
    cat_get ts 2 [n; t; c] = get (nth (c / e) ts d) [n; t; c mod e].
Proof.
  intros He Hall. induction Hall as [|t0 ts H0 _ IH]; intros n t c Hc.
  - simpl in Hc. lia.
  - cbn [cat_get]. rewrite H0. cbn [nth].
    destruct (Nat.ltb_spec c e) as [Hlt|Hge].
    + rewrite Nat.div_small, Nat.mod_small by exact Hlt. reflexivity.
    + cbn [replace_nth]. rewrite IH by (simpl in Hc; lia).
      replace c with ((c - e) + 1 * e) at 3 4 by lia.
      rewrite Nat.div_add, Nat.Div0.mod_add by lia.
      replace ((c - e) / e + 1) with (S ((c - e) / e)) by lia.
      reflexivity.
Qed.

(** Row [r] of [n] copies of a (b, e) array stacked on the first axis is
    row [r mod b] of the array. *)
Lemma cat_get_repeat {X : Type} `{Inhabitant X} (st : Tensor X) (b e : nat) :
  0 < b -> shape st = [b; e] ->
  forall n r c, r < n * b ->
    cat_get (repeat st n) 0 [r; c] = get st [r mod b; c].
Proof.
  intros Hb Hs. induction n as [|n IH]; intros r c Hr.
  - simpl in Hr. lia.
  - cbn [repeat cat_get]. rewrite Hs. cbn [nth].
    destruct (Nat.ltb_spec r b) as [Hlt|Hge].
    + rewrite Nat.mod_small by exact Hlt. reflexivity.
    + cbn [replace_nth]. rewrite IH by (simpl in Hr; lia).
      replace r with ((r - b) + 1 * b) at 2 by lia.
      rewrite Nat.Div0.mod_add. reflexivity.
Qed.

(** The position [(t * b + n, c)] of a (tw, b, C) array, read in the
    (b, tw, C) layout. *)
Lemma unravel_reinterpret (b tw C k c : nat) :
  0 < tw -> c < C ->
  unravel [b; tw; C] (k * C + c) = [k / tw; k mod tw; c].
Proof.
  intros Htw Hc. rewrite unravel_rank3.
  assert (HC : 0 < C) by lia.
  destruct (unravel_regroup (k * C + c) Htw HC) as [Hq Hr].
  rewrite Nat.div_add_l, (Nat.div_small c C), Nat.add_0_r in Hq by lia.
  rewrite Nat.add_comm, Nat.Div0.mod_add, (Nat.mod_small c C) in Hr by lia.
  rewrite (Nat.add_comm c) in Hr.
  set (q := (k * C + c) / (tw * C)) in *.
  set (m := (k * C + c) mod (tw * C)) in *.
  assert (Hm : m < tw * C) by (apply Nat.mod_upper_bound; nia).
  assert (Hrt : m / C < tw) by (apply Nat.Div0.div_lt_upper_bound; nia).
  assert (Hk : k = tw * q + m / C) by lia.
  rewrite <- Hr.
  rewrite (Nat.div_unique k tw q (m / C)) by (exact Hrt || exact Hk).
  rewrite <- (Nat.mod_unique k tw q (m / C)) by (exact Hrt || exact Hk).
  reflexivity.
Qed.

Section EmbeddingEntries.
Context {A : Type} {S : Scalar A}.

(** A wrapped embedding table on a (a0, a1, 1) array of codes: position
    [(i, t)] of the result is the row of the table for the code at
    [(i, t)]. *)
Lemma TimeDistributed_Embedding_pointwise
    (self : TimeDistributed.t (Embedding.t A)) (x : Tensor Z) (a0 a1 : nat) :
  shape x = [a0; a1; 1] -> 0 < a0 -> 0 < a1 ->
  0 < Embedding.embedding_dim (TimeDistributed.module self) ->
  forallb (Embedding.valid_code (TimeDistributed.module self)) (data x) = true ->
  TimeDistributed.forward self x =
  Ok (tabulate [a0; a1; Embedding.embedding_dim (TimeDistributed.module self)]
        (fun idx =>
           get (Embedding.weight (TimeDistributed.module self))
               [Z.to_nat (get x [nth 0 idx 0; nth 1 idx 0; 0]); nth 2 idx 0])).
Proof.
  intros Hs Ha0 Ha1 He Hvalid.
  set (table := TimeDistributed.module self) in *.
  set (e := Embedding.embedding_dim table) in *.
  apply (@TimeDistributed_pointwise _ _ _ _ self x a0 a1 1 e [a0 * a1; 1; e]
           (fun idx =>
              get (Embedding.weight table)
                  [Z.to_nat (get (mkTensor [a0 * a1; 1] (data x))
                               (removelast idx)); last idx 0]));
    try assumption.
  - apply Nat.lt_0_1.
  - fold table. unfold call, NNModule_Embedding, Embedding.forward.
    cbn [data shape]. rewrite Hvalid. reflexivity.
  - reflexivity.
  - simpl. lia.
  - intros k _. rewrite !unravel_rank3. cbn [removelast last nth].
    destruct (unravel_regroup k Ha1 He) as [Hq Hr].
    rewrite !Nat.mul_1_l. rewrite <- Hr. rewrite Nat.Div0.mod_mod.
    apply f_equal. apply (f_equal (fun v => [Z.to_nat v; k mod e])).
    unfold get. rewrite Hs. cbn [shape data ravel numel fold_right].
    f_equal. rewrite (Nat.div_small (k mod e) e)
      by (apply Nat.mod_upper_bound; lia).
    rewrite Hq. lia.
Qed.

Lemma wf_column_of (w : Tensor A) (b tw i : nat) : wf (column_of w b tw i).
Proof.
  unfold wf, column_of, tabulate. cbn [data shape].
  rewrite length_map, length_seq. simpl. lia.
Qed.

Lemma get_column_of (w : Tensor A) (b tw i n t : nat) :
  n < b -> t < tw -> get (column_of w b tw i) [n; t; 0] = get w [n; t; i].
Proof.
  intros Hn Ht. unfold get at 1, column_of. cbn [shape data].
  replace (ravel [b; tw; 1] [n; t; 0]) with (ravel [b; tw] [n; t])
    by (cbn [ravel numel fold_right]; lia).
  assert (Hb : in_bounds [b; tw] [n; t] = true).
  { cbn [in_bounds]. apply andb_true_intro. split; [apply Nat.ltb_lt; exact Hn|].
    apply andb_true_intro. split; [apply Nat.ltb_lt; exact Ht|reflexivity]. }
  rewrite nth_tabulate by (apply ravel_lt; exact Hb).
  rewrite unravel_ravel by exact Hb. reflexivity.
Qed.

(** A linear layer of one input feature on a column: the entry at
    [(n, t, c)] is the layer applied to the single value at [(n, t)]. *)
Lemma Linear_entry_column (l : Linear.t A) (x : Tensor A) (n t c : nat) :
  Linear.in_features l = 1 ->
  Linear.entry l x [n; t; c] =
  Linear.entry l (mkTensor [1] [get x [n; t; 0]]) [c].
Proof.
  intros Hin. unfold Linear.entry, Linear.dot. rewrite Hin.
  cbn [removelast last seq map fold_left app]. reflexivity.
Qed.

End EmbeddingEntries.

Lemma cat_get_three {X : Type} `{Inhabitant X} (t1 t2 t3 : Tensor X)
    (a b c1 c2 c3 n t c : nat) :
  shape t1 = [a; b; c1] -> shape t2 = [a; b; c2] -> shape t3 = [a; b; c3] ->
  cat_get [t1; t2; t3] 2 [n; t; c] =
  if c <? c1 then get t1 [n; t; c]
  else if c - c1 <? c2 then get t2 [n; t; c - c1]
  else if c - c1 - c2 <? c3 then get t3 [n; t; c - c1 - c2]
  else inhabitant.
Proof.
  intros H1 H2 H3. cbn [cat_get]. rewrite H1, H2, H3.
  cbn [nth replace_nth]. reflexivity.
Qed.

Lemma in_bounds_three (a b c n t k : nat) :
  n < a -> t < b -> k < c -> in_bounds [a; b; c] [n; t; k] = true.
Proof.
  intros Hn Ht Hk. cbn [in_bounds].
  repeat (apply andb_true_intro; split); try reflexivity;
    apply Nat.ltb_lt; assumption.
Qed.

Section FusedEntries.
Context {A : Type} {S : Scalar A} {LW AW : Type}.

Lemma apply_embedding_entries (cfg : TFT.config A) (self : TFT.t A LW AW)
    (w st : Tensor A) (b tw f : nat) :
  constructed cfg self -> usable cfg ->
  shape w = [b; tw; f] -> 0 < b -> 0 < tw ->
  TFT.time_varying_real_variables self
    + TFT.time_varying_categoical_variables self <= f ->
  shape st = [b; TFT.cfg_static_variables cfg * TFT.cfg_embedding_dim cfg] ->
  (forall i layer n t,
     nth_error (TFT.time_varying_embedding_layers self) i = Some layer ->
     n < b -> t < tw ->
     Embedding.valid_code (TimeDistributed.module layer)
       (ftrunc (get w [n; t; TFT.time_varying_real_variables self + i])) = true) ->
  exists r,
    TFT.apply_embedding self w st = Ok r /\
    shape r = [tw; b; TFT.lstm_input_size self] /\
    forall t n, t < tw -> n < b ->
      entry_embeds cfg self w st r t n ((t * b + n) / tw) ((t * b + n) mod tw).
Proof.
  intros Hc Hu Hw Hb Htw Hf Hst Hvalid. unfold entry_embeds.
  set (e := TFT.cfg_embedding_dim cfg).
  set (ns := TFT.cfg_static_variables cfg).
  set (ncat := TFT.time_varying_categoical_variables self).
  set (nreal := TFT.time_varying_real_variables self).
  destruct Hc as (_ & _ & _ & Encat & Enreal & _ & _ & _ & _ & _ &
                  Lcat & Hcat & Lreal & Hreal & Hsize & _).
  destruct Hu as (_ & Hs & _ & Hncat & Hnreal & _ & _ & _ & _ & He).
  fold e in He, Hst, Hsize, Hcat, Hreal. fold ns in Hs, Hst, Hsize.
  fold ncat in Encat, Hf, Hvalid. fold nreal in Enreal, Hf, Hvalid.
  rewrite <- Encat in Lcat, Hncat, Hsize.
  rewrite <- Enreal in Lreal, Hnreal, Hsize.
  unfold TFT.apply_embedding. fold nreal. fold ncat.
  (* real variables *)
  destruct (@for_each_seq_spec (Tensor A)
    (fun i =>
       layer <- list_item (TFT.time_varying_linear_layers self) i ;;
       column <- getitem w [Full; Full; At (Z.of_nat i)] ;;
       n0 <- size w 0 ;;
       column <- view column [Z.of_nat n0; (-1)%Z; 1%Z] ;;
       call layer column)
    (fun i y =>
       shape y = [b; tw; e] /\
       forall layer,
         nth_error (TFT.time_varying_linear_layers self) i = Some layer ->
         forall n t c, n < b -> t < tw -> c < e ->
           get y [n; t; c] =
           Linear.entry (TimeDistributed.module layer)
             (mkTensor [1] [get w [n; t; i]]) [c])
    nreal) as (reals & -> & Lreals & Preals).
  { intros i Hi.
    destruct (@list_item_lt _ (TFT.time_varying_linear_layers self) i)
      as (layer & -> & Hnth); [lia|].
    cbn [bind].
    pose proof (@column_view _ _ w b tw f i Hw Hb ltac:(lia)) as Hcol.
    destruct (getitem w [Full; Full; At (Z.of_nat i)]) as [col|];
      cbn [bind] in Hcol |- *; [|discriminate].
    destruct (size w 0) as [n0|]; cbn [bind] in Hcol |- *; [|discriminate].
    rewrite Hcol. cbn [bind]. fold (column_of w b tw i).
    destruct (Hreal i layer Hnth) as (_ & Hin & Hout).
    unfold call, NNModule_TimeDistributed.
    rewrite (@TimeDistributed_Linear_pointwise _ _ layer (column_of w b tw i)
               b tw 1 eq_refl Hb Htw Nat.lt_0_1 Hin)
      by (rewrite Hout; exact He).
    eexists. split; [reflexivity|]. split.
    - cbn [shape tabulate]. rewrite Hout. reflexivity.
    - intros layer' Hnth' n t c Hn Ht Hlt.
      assert (layer' = layer) by congruence. subst layer'.
      rewrite get_tabulate
        by (apply in_bounds_three; try assumption; rewrite Hout; exact Hlt).
      rewrite Linear_entry_column by exact Hin.
      rewrite get_column_of by assumption. reflexivity. }
  cbn [bind].
  assert (Sreals : Forall (fun y : Tensor A => shape y = [b; tw; e]) reals).
  { apply nth_Forall. intros i d Hi. apply Preals. lia. }
  rewrite (@cat_uniform_eq _ _ reals [b; tw; e] 2);
    [|destruct reals; [simpl in Lreals; lia|discriminate]
     |simpl; lia|exact Sreals].
  cbn [bind replace_nth nth]. rewrite Lreals.
  set (rcat := tabulate [b; tw; nreal * e] (cat_get reals 2)).
  (* categorical variables *)
  destruct (@for_each_seq_spec (Tensor A)
    (fun i =>
       layer <- list_item (TFT.time_varying_embedding_layers self) i ;;
       column <- getitem w [Full; Full; At (Z.of_nat (nreal + i))] ;;
       n0 <- size w 0 ;;
       column <- view column [Z.of_nat n0; (-1)%Z; 1%Z] ;;
       call layer (long column))
    (fun j y =>
       shape y = [b; tw; e] /\
       forall layer,
         nth_error (TFT.time_varying_embedding_layers self) j = Some layer ->
         forall n t c, n < b -> t < tw -> c < e ->
           get y [n; t; c] =
           get (Embedding.weight (TimeDistributed.module layer))
               [Z.to_nat (ftrunc (get w [n; t; nreal + j])); c])
    ncat) as (cats & -> & Lcats & Pcats).
  { intros j Hj.
    destruct (@list_item_lt _ (TFT.time_varying_embedding_layers self) j)
      as (layer & -> & Hnth); [lia|].
    cbn [bind].
    pose proof (@column_view _ _ w b tw f (nreal + j) Hw Hb ltac:(lia)) as Hcol.
    destruct (getitem w [Full; Full; At (Z.of_nat (nreal + j))]) as [col|];
      cbn [bind] in Hcol |- *; [|discriminate].
    destruct (size w 0) as [n0|]; cbn [bind] in Hcol |- *; [|discriminate].
    rewrite Hcol. cbn [bind]. fold (column_of w b tw (nreal + j)).
    destruct (Hcat j layer Hnth) as (_ & Hdim & _). fold e in Hdim.
    assert (Hcodes : forall n t, n < b -> t < tw ->
              get (long (column_of w b tw (nreal + j))) [n; t; 0] =
              ftrunc (get w [n; t; nreal + j])).
    { intros n t Hn Ht. unfold long.
      rewrite get_tmap;
        [|apply wf_column_of
         |apply in_bounds_three; [exact Hn|exact Ht|apply Nat.lt_0_1]].
      rewrite get_column_of by assumption. reflexivity. }
    unfold call, NNModule_TimeDistributed.
    rewrite (@TimeDistributed_Embedding_pointwise _ _ layer
               (long (column_of w b tw (nreal + j))) b tw eq_refl Hb Htw).
    - eexists. split; [reflexivity|]. split.
      + cbn [shape tabulate]. rewrite Hdim. reflexivity.
      + intros layer' Hnth' n t c Hn Ht Hlt.
        assert (layer' = layer) by congruence. subst layer'.
        rewrite get_tabulate
          by (apply in_bounds_three; try assumption; rewrite Hdim; exact Hlt).
        cbn [nth]. rewrite Hcodes by assumption. reflexivity.
    - rewrite Hdim. exact He.
    - unfold long, tmap, column_of. cbn [data].
      apply forallb_forall. intros v Hv.
      apply in_map_iff in Hv. destruct Hv as (u & <- & Hu).
      unfold tabulate in Hu. cbn [data] in Hu.
      apply in_map_iff in Hu. destruct Hu as (k & <- & Hk).
      apply in_seq in Hk.
      destruct (@in_bounds_rank2 b tw (unravel [b; tw] k)) as [H0 H1];
        [apply unravel_in_bounds; lia|].
      apply (Hvalid j layer _ _ Hnth H0 H1). }
  cbn [bind].
  assert (Scats : Forall (fun y : Tensor A => shape y = [b; tw; e]) cats).
  { apply nth_Forall. intros i d Hi. apply Pcats. lia. }
  rewrite (@cat_uniform_eq _ _ cats [b; tw; e] 2);
    [|destruct cats; [simpl in Lcats; lia|discriminate]
     |simpl; lia|exact Scats].
  cbn [bind replace_nth nth]. rewrite Lcats.
  set (ccat := tabulate [b; tw; ncat * e] (cat_get cats 2)).
  (* static vector *)
  destruct (@size_rank3 _ ccat b tw (ncat * e) eq_refl) as (E0 & E1 & _).
  rewrite E0, E1. cbn [bind].
  rewrite (@cat_uniform_eq _ _ (repeat st tw) [b; ns * e] 0);
    [|destruct tw; [lia|discriminate]
     |simpl; lia
     |apply Forall_forall; intros t' Ht'; apply repeat_spec in Ht'; congruence].
  cbn [bind replace_nth nth]. rewrite repeat_length.
  set (rep := tabulate [tw * b; ns * e] (cat_get (repeat st tw) 0)).
  rewrite (@view_regroup_last _ rep b tw (ns * e));
    [|unfold rep; rewrite shape_tabulate; simpl; lia|exact Hb|exact Htw].
  cbn [bind].
  set (st3 := mkTensor [b; tw; ns * e] (data rep)).
  rewrite (@cat_last3_eq _ _ st3 ccat rcat b tw (ns * e) (ncat * e) (nreal * e)
             eq_refl eq_refl eq_refl).
  cbn [bind].
  set (C := ns * e + ncat * e + nreal * e).
  set (emb := tabulate [b; tw; C] (cat_get [st3; ccat; rcat] 2)).
  destruct (size_rank3 w Hw) as (-> & _).
  destruct (@size_rank3 _ emb b tw C eq_refl) as (_ & _ & -> & _).
  cbn [bind].
  assert (HC : 0 < C) by (unfold C; nia).
  rewrite (@view_regroup_time_first _ emb tw b C);
    [|unfold emb; rewrite shape_tabulate; simpl; lia|exact Hb|exact HC].
  eexists. split; [reflexivity|]. split.
  { cbn [shape]. f_equal. f_equal. f_equal. rewrite Hsize. unfold C. ring. }
  intros t n Ht Hn. set (k := t * b + n).
  assert (Hk : k < tw * b) by (unfold k; nia).
  assert (Hn' : k / tw < b)
    by (apply Nat.Div0.div_lt_upper_bound; exact Hk).
  assert (Ht' : k mod tw < tw) by (apply Nat.mod_upper_bound; lia).
  assert (Hentry : forall c, c < C ->
            get (mkTensor [tw; b; C] (data emb)) [t; n; c] =
            cat_get [st3; ccat; rcat] 2 [k / tw; k mod tw; c]).
  { intros c Hlt. unfold get. cbn [shape data].
    replace (ravel [tw; b; C] [t; n; c]) with (k * C + c)
      by (unfold k; cbn [ravel numel fold_right]; ring).
    unfold emb. rewrite nth_tabulate.
    - rewrite unravel_reinterpret by assumption. reflexivity.
    - replace (numel [b; tw; C]) with (tw * b * C) by (simpl; ring).
      assert ((k + 1) * C <= tw * b * C) by (apply Nat.mul_le_mono_r; lia).
      lia. }
  assert (Hthree : forall c,
            cat_get [st3; ccat; rcat] 2 [k / tw; k mod tw; c] =
            if c <? ns * e then get st3 [k / tw; k mod tw; c]
            else if c - ns * e <? ncat * e
                 then get ccat [k / tw; k mod tw; c - ns * e]
            else if c - ns * e - ncat * e <? nreal * e
                 then get rcat [k / tw; k mod tw; c - ns * e - ncat * e]
            else inhabitant).
  { intros c. apply (@cat_get_three _ _ st3 ccat rcat b tw); reflexivity. }
  split; [|split].
  - intros c Hlt. rewrite Hentry, Hthree by (unfold C; lia).
    replace (c <? ns * e) with true by (symmetry; apply Nat.ltb_lt; exact Hlt).
    unfold get at 1, st3. cbn [shape data].
    replace (ravel [b; tw; ns * e] [k / tw; k mod tw; c])
      with (k * (ns * e) + c).
    + unfold rep. rewrite nth_tabulate.
      * rewrite unravel_rank2.
        rewrite Nat.div_add_l, (Nat.div_small c), Nat.add_0_r by lia.
        rewrite Nat.add_comm, Nat.Div0.mod_add, (Nat.mod_small c) by lia.
        rewrite (@cat_get_repeat _ _ st b (ns * e) Hb Hst tw) by exact Hk.
        unfold k. rewrite Nat.add_comm, Nat.Div0.mod_add, Nat.mod_small by lia.
        reflexivity.
      * replace (numel [tw * b; ns * e]) with (tw * b * (ns * e))
          by (simpl; ring).
        assert ((k + 1) * (ns * e) <= tw * b * (ns * e))
          by (apply Nat.mul_le_mono_r; lia).
        lia.
    + cbn [ravel numel fold_right].
      rewrite (Nat.div_mod_eq k tw) at 1. ring.
  - intros j layer c Hnth Hlt.
    assert (Hj : j < ncat) by (rewrite <- Lcat; apply nth_error_Some; congruence).
    assert (Hjc : j * e + c < ncat * e).
    { assert ((j + 1) * e <= ncat * e) by (apply Nat.mul_le_mono_r; lia). lia. }
    rewrite Hentry, Hthree by (unfold C; lia).
    replace (ns * e + j * e + c <? ns * e) with false
      by (symmetry; apply Nat.ltb_ge; lia).
    replace (ns * e + j * e + c - ns * e) with (j * e + c) by lia.
    replace (j * e + c <? ncat * e) with true
      by (symmetry; apply Nat.ltb_lt; exact Hjc).
    unfold ccat. rewrite get_tabulate by (apply in_bounds_three; assumption).
    rewrite (@cat_get_last_uniform _ _ cats b tw e st He Scats)
      by (rewrite Lcats; exact Hjc).
    rewrite Nat.div_add_l, (Nat.div_small c), Nat.add_0_r by lia.
    rewrite Nat.add_comm, Nat.Div0.mod_add, (Nat.mod_small c) by lia.
    destruct (Pcats j st Hj) as [_ Pj]. apply (Pj layer Hnth); assumption.
  - intros i layer c Hnth Hlt.
    assert (Hi : i < nreal)
      by (rewrite <- Lreal; apply nth_error_Some; congruence).
    assert (Hic : i * e + c < nreal * e).
    { assert ((i + 1) * e <= nreal * e) by (apply Nat.mul_le_mono_r; lia). lia. }
    rewrite Hentry, Hthree by (unfold C; lia).
    replace (ns * e + ncat * e + i * e + c <? ns * e) with false
      by (symmetry; apply Nat.ltb_ge; lia).
    replace (ns * e + ncat * e + i * e + c - ns * e)
      with (ncat * e + i * e + c) by lia.
    replace (ncat * e + i * e + c <? ncat * e) with false
      by (symmetry; apply Nat.ltb_ge; lia).
    replace (ncat * e + i * e + c - ncat * e) with (i * e + c) by lia.
    replace (i * e + c <? nreal * e) with true
      by (symmetry; apply Nat.ltb_lt; exact Hic).
    unfold rcat. rewrite get_tabulate by (apply in_bounds_three; assumption).
    rewrite (@cat_get_last_uniform _ _ reals b tw e st He Sreals)
      by (rewrite Lreals; exact Hic).
    rewrite Nat.div_add_l, (Nat.div_small c), Nat.add_0_r by lia.
    rewrite Nat.add_comm, Nat.Div0.mod_add, (Nat.mod_small c) by lia.
    destruct (Preals i st Hi) as [_ Pi]. apply (Pi layer Hnth); assumption.
Qed.

End FusedEntries.

Section FusedEmbedding.
Context {A : Type} {S : Scalar A} {LW AW : Type}.

(** X16: on a model built from a usable configuration, a window of
    shape (b, tw, f) with no empty axis, a feature for every time-varying
    variable and every categorical code inside its table, and a static
    embedding of shape (b, static_variables * embedding_dim),
    [apply_embedding] returns an array of shape (tw, b, lstm_input_size).
    Its entry [(t, n)] starts with the static vector of series [n]; the
    embeddings of the time-varying variables that follow are those of
    series [(t * b + n) / tw] at step [(t * b + n) mod tw]: the final
    [view] reads the (b, tw, C) array in (tw, b, C) order without moving
    its elements. *)
Theorem X16_apply_embedding_entries (cfg : TFT.config A)
    (self : TFT.t A LW AW) (w st : Tensor A) (b tw f : nat) :
  constructed cfg self -> usable cfg ->
  shape w = [b; tw; f] -> 0 < b -> 0 < tw ->
  TFT.time_varying_real_variables self
    + TFT.time_varying_categoical_variables self <= f ->
  shape st = [b; TFT.cfg_static_variables cfg * TFT.cfg_embedding_dim cfg] ->
  (forall i layer n t,
     nth_error (TFT.time_varying_embedding_layers self) i = Some layer ->
     n < b -> t < tw ->
     Embedding.valid_code (TimeDistributed.module layer)
       (ftrunc (get w [n; t; TFT.time_varying_real_variables self + i])) = true) ->
  exists r,
    TFT.apply_embedding self w st = Ok r /\
    shape r = [tw; b; TFT.lstm_input_size self] /\
    forall t n, t < tw -> n < b ->
      entry_embeds cfg self w st r t n ((t * b + n) / tw) ((t * b + n) mod tw).
Proof. exact (@apply_embedding_entries A S LW AW cfg self w st b tw f). Qed.

(** X17: with one series per batch, or one time step per window, the
    entry [(t, n)] of the fused embedding is the embedding of series [n] at
    step [t]: its static vector, then the embeddings of its categorical
    codes at that step, then those of its real values. *)
Theorem X17_apply_embedding_single_series (cfg : TFT.config A)
    (self : TFT.t A LW AW) (w st : Tensor A) (b tw f : nat) :
  constructed cfg self -> usable cfg ->
  shape w = [b; tw; f] -> 0 < b -> 0 < tw -> b = 1 \/ tw = 1 ->
  TFT.time_varying_real_variables self
    + TFT.time_varying_categoical_variables self <= f ->
  shape st = [b; TFT.cfg_static_variables cfg * TFT.cfg_embedding_dim cfg] ->
  (forall i layer n t,
     nth_error (TFT.time_varying_embedding_layers self) i = Some layer ->
     n < b -> t < tw ->
     Embedding.valid_code (TimeDistributed.module layer)
       (ftrunc (get w [n; t; TFT.time_varying_real_variables self + i])) = true) ->
  exists r,
    TFT.apply_embedding self w st = Ok r /\
    shape r = [tw; b; TFT.lstm_input_size self] /\
    forall t n, t < tw -> n < b -> entry_embeds cfg self w st r t n n t.
Proof.
  intros Hc Hu Hw Hb Htw Hone Hf Hst Hvalid.
  destruct (@apply_embedding_entries A S LW AW cfg self w st b tw f
              Hc Hu Hw Hb Htw Hf Hst Hvalid) as (r & Er & Sr & Hentries).
  exists r. split; [exact Er|]. split; [exact Sr|].
  intros t n Ht Hn. specialize (Hentries t n Ht Hn).
  assert (Hdiv : (t * b + n) / tw = n /\ (t * b + n) mod tw = t).
  { destruct Hone as [-> | ->].
    - assert (n = 0) by lia. subst n.
      rewrite Nat.mul_1_r, Nat.add_0_r.
      split; [apply Nat.div_small|apply Nat.mod_small]; exact Ht.
    - assert (t = 0) by lia. subst t.
      rewrite Nat.mul_0_l, Nat.add_0_l, Nat.div_1_r, Nat.mod_1_r.
      split; reflexivity. }
  destruct Hdiv as [Hd Hm]. rewrite Hd, Hm in Hentries. exact Hentries.
Qed.

End FusedEmbedding.

Lemma two_series_constructed :
  constructed two_series_config (toy_model inject_Z (1 # 100000)%Q 2 1).
Proof.
  unfold constructed, grn_constructed, is_linear, is_lstm.
  cbn -[inject_Z nth_error].
  repeat split; try reflexivity;
    intros;
    match goal with
    | E : nth_error _ _ = Some _ |- _ =>
        apply nth_error_singleton in E; destruct E as [-> ->]
    end;
    reflexivity.
Qed.

Lemma two_series_usable : usable two_series_config.
Proof. unfold usable, two_series_config. cbn. repeat split; lia. Qed.

Lemma two_by_two_codes (i : nat)
    (layer : TimeDistributed.t (Embedding.t Q)) (n t : nat) :
  nth_error (TFT.time_varying_embedding_layers
               (toy_model inject_Z (1 # 100000)%Q 2 1)) i = Some layer ->
  n < 2 -> t < 2 ->
  Embedding.valid_code (TimeDistributed.module layer)
    (ftrunc (get two_by_two [n; t; 1 + i])) = true.
Proof.
  intros E Hn Ht. apply nth_error_singleton in E. destruct E as [-> ->].
  destruct n as [|[|n]]; [| |lia];
    (destruct t as [|[|t]]; [reflexivity|reflexivity|lia]).
Qed.

Lemma X16_apply_embedding_entries_witness :
  let self := toy_model inject_Z (1 # 100000)%Q 2 1 in
  exists r,
    TFT.apply_embedding self two_by_two two_static = Ok r /\
    shape r = [2; 2; TFT.lstm_input_size self] /\
    forall t n, t < 2 -> n < 2 ->
      entry_embeds two_series_config self two_by_two two_static r t n
        ((t * 2 + n) / 2) ((t * 2 + n) mod 2).
Proof.
  intros self.
  apply (@X16_apply_embedding_entries Q _ unit unit two_series_config self
           two_by_two two_static 2 2 2 two_series_constructed
           two_series_usable eq_refl).
  - apply Nat.lt_0_succ.
  - apply Nat.lt_0_succ.
  - apply le_n.
  - reflexivity.
  - exact two_by_two_codes.
Defined.

Lemma two_by_one_codes (i : nat)
    (layer : TimeDistributed.t (Embedding.t Q)) (n t : nat) :
  nth_error (TFT.time_varying_embedding_layers
               (toy_model inject_Z (1 # 100000)%Q 2 1)) i = Some layer ->
  n < 2 -> t < 1 ->
  Embedding.valid_code (TimeDistributed.module layer)
    (ftrunc (get two_by_one [n; t; 1 + i])) = true.
Proof.
  intros E Hn Ht. apply nth_error_singleton in E. destruct E as [-> ->].
  assert (t = 0) by lia. subst t.
  destruct n as [|[|n]]; [reflexivity|reflexivity|lia].
Qed.

Lemma X17_apply_embedding_single_series_witness :
  let self := toy_model inject_Z (1 # 100000)%Q 2 1 in
  exists r,
    TFT.apply_embedding self two_by_one two_static = Ok r /\
    shape r = [1; 2; TFT.lstm_input_size self] /\
    forall t n, t < 1 -> n < 2 ->
      entry_embeds two_series_config self two_by_one two_static r t n n t.
Proof.
  intros self.
  apply (@X17_apply_embedding_single_series Q _ unit unit two_series_config
           self two_by_one two_static 2 1 2 two_series_constructed
           two_series_usable eq_refl).
  - apply Nat.lt_0_succ.
  - apply Nat.lt_0_succ.
  - right. reflexivity.
  - apply le_n.
  - reflexivity.
  - exact two_by_one_codes.
Defined.

(** ** The shapes of the five results *)

Section ResultShapes.
Context {A : Type} {S : Scalar A} {An : Analytic A}.
Context {LW AW : Type} {RT : Runtime A LW AW}.

Lemma attend_weights_shape (cfg : TFT.config A) (self : TFT.t A LW AW)
    (st eo dout : Tensor A) (steps : nat) :
  constructed cfg self -> usable cfg -> attention_contract RT ->
  TFT.encode_length self < steps ->
  shape st = [TFT.batch_size self;
              TFT.cfg_static_variables cfg * TFT.cfg_embedding_dim cfg] ->
  shape eo = [TFT.encode_length self; TFT.batch_size self;
              TFT.hidden_size self] ->
  shape dout = [steps - TFT.encode_length self; TFT.batch_size self;
                TFT.hidden_size self] ->
  exists output attn_output attn_output_weights,
    attend self st eo dout =
      Ok (output, eo, dout, attn_output, attn_output_weights) /\
    shape attn_output = [steps - TFT.encode_length self;
                         TFT.batch_size self; TFT.hidden_size self] /\
    shape attn_output_weights = [TFT.batch_size self; steps; steps] /\
    shape output = [TFT.batch_size self; steps - TFT.encode_length self; 1].
Proof.
  intros Hc Hu Hattn Hsteps Sst Seo Sdo.
  pose proof Hc as (Ebatch & _ & Eenc & _ & _ & Ehid & _ & _ & _ & _ & _ & _
                    & _ & _ & _ & _ & _ & Hgrn & _ & _ & Edim & Eheads & Hout).
  pose proof Hu as (Hb & Hs & Henc & _ & _ & Hh & _ & Hheads & Hdiv & He).
  unfold attend.
  set (e := TFT.cfg_embedding_dim cfg) in *.
  set (b := TFT.batch_size self) in *.
  set (h := TFT.hidden_size self) in *.
  set (enc := TFT.encode_length self) in *.
  assert (Hbpos : 0 < b) by (rewrite Ebatch; exact Hb).
  assert (Hhpos : 0 < h) by (rewrite Ehid; exact Hh).
  destruct (cat_first2 eo dout Seo Sdo) as (lstm_output & -> & Slo).
  replace (enc + (steps - enc + 0)) with steps in Slo by lia.
  cbn [bind].
  destruct (size_rank3 lstm_output Slo) as (E0 & E1 & _).
  rewrite E0, E1. cbn [bind].
  destruct (@cat_repeat _ _ st steps b _ ltac:(lia) Sst) as (rep & -> & Srep).
  cbn [bind].
  rewrite (@view_regroup_last _ rep steps b (TFT.cfg_static_variables cfg * e));
    [|rewrite Srep; simpl; lia|lia|exact Hbpos].
  cbn [bind].
  assert (Hgrn' : exists r,
            GatedResidualNetwork.forward (TFT.static_enrichment self)
              lstm_output
              (Some (mkTensor [steps; b; TFT.cfg_static_variables cfg * e]
                       (data rep))) = Ok r /\
            shape r = [steps; b; h]).
  { eapply GatedResidualNetwork_shape with (c := e * TFT.cfg_static_variables cfg);
      [rewrite <- Ehid in Hgrn; exact Hgrn|exact Slo
      |cbn [shape]; rewrite (Nat.mul_comm e); reflexivity
      |lia|exact Hbpos|exact Hhpos|nia]. }
  destruct Hgrn' as (attn_input & -> & Sai).
  cbn [bind].
  destruct (size_rank3 attn_input Sai) as (-> & _).
  cbn [bind].
  destruct (mask_shape self steps) as (mask & -> & Smask).
  cbn [bind].
  assert (Hatt : exists ao aw,
            attention_forward (TFT.multihead_attn self)
              attn_input attn_input lstm_output mask = Ok (ao, aw) /\
            shape ao = [steps; b; h] /\ shape aw = [b; steps; steps]).
  { destruct (Hattn (TFT.multihead_attn self) attn_input attn_input
                lstm_output mask steps steps b) as (ao & aw & E & Sao & Saw).
    - lia.
    - lia.
    - exact Hbpos.
    - rewrite Eheads. exact Hheads.
    - rewrite Edim. exact Hh.
    - rewrite Edim, Eheads. exact Hdiv.
    - rewrite Edim, <- Ehid. exact Sai.
    - rewrite Edim, <- Ehid. exact Sai.
    - rewrite Edim, <- Ehid. exact Slo.
    - exact Smask.
    - exists ao, aw. split; [exact E|]. split; [|exact Saw].
      rewrite Edim, <- Ehid in Sao. exact Sao. }
  destruct Hatt as (ao & aw & -> & Sao & Saw).
  cbn [bind].
  destruct (@getitem_rows_from _ _ ao steps b h enc Sao ltac:(lia))
    as (sliced & -> & Ssl).
  cbn [bind].
  rewrite (@view_regroup_batch_first _ sliced b (steps - enc) h);
    [|rewrite Ssl; simpl; lia|exact Hbpos|exact Hhpos].
  cbn [bind].
  assert (Hproj : exists r,
            call (TFT.output_layer self)
              (mkTensor [b; steps - enc; h] (data sliced)) = Ok r /\
            shape r = [b; steps - enc; 1]).
  { eapply TimeDistributed_Linear_shape;
      [rewrite <- Ehid in Hout; exact Hout|reflexivity|exact Hbpos|lia
      |exact Hhpos|apply Nat.lt_0_1]. }
  destruct Hproj as (output & -> & Sout).
  cbn [bind]. exists output, sliced, aw. auto.
Qed.

Lemma forward_result_shapes (cfg : TFT.config A) (self : TFT.t A LW AW)
    (x : TFT.batch A) (steps features : nat) :
  constructed cfg self -> usable cfg ->
  lstm_contract RT -> attention_contract RT ->
  valid_batch self x steps features ->
  exists output encoder_output decoder_output attn_output attn_output_weights,
    TFT.forward self x =
      Ok (output, encoder_output, decoder_output, attn_output,
          attn_output_weights) /\
    shape output = [TFT.batch_size self; steps - TFT.encode_length self; 1] /\
    shape encoder_output = [TFT.encode_length self; TFT.batch_size self;
                            TFT.hidden_size self] /\
    shape decoder_output = [steps - TFT.encode_length self;
                            TFT.batch_size self; TFT.hidden_size self] /\
    shape attn_output = [steps - TFT.encode_length self;
                         TFT.batch_size self; TFT.hidden_size self] /\
    shape attn_output_weights = [TFT.batch_size self; steps; steps].
Proof.
  intros Hc Hu Hlstm Hattn Hvalid.
  destruct (embed_windows_shape Hc Hu Hvalid) as (st & ee & ed & Ew & Sst & See & Sed).
  pose proof Hvalid as (_ & Hsteps & _).
  pose proof Hc as (Ebatch & _ & Eenc & _ & _ & Ehid & Elayers & _ & _ & _ & _
                    & _ & _ & _ & Hsize & (Ei1 & Eh1 & El1) & (Ei2 & Eh2 & El2)
                    & _).
  pose proof Hu as (Hb & Hs & Henc & _ & Hnreal & Hh & Hl & _ & _ & He).
  assert (Hinput : 0 < TFT.lstm_input_size self) by (rewrite Hsize; nia).
  rewrite forward_stages, Ew. cbn [bind].
  destruct (Hlstm (TFT.lstm_encoder self) ee (TFT.init_hidden self)
              (TFT.init_hidden self) (TFT.encode_length self)
              (TFT.batch_size self))
    as (eo & hn & cn & -> & Seo & Shn & _);
    try (rewrite ?Ei1, ?Eh1, ?El1; lia);
    try (rewrite ?Ei1, ?Eh1, ?El1; exact See);
    try (unfold TFT.init_hidden, zeros, full; cbn [shape];
         rewrite Eh1, El1, Ehid, Elayers; reflexivity).
  cbn [bind].
  destruct (Hlstm (TFT.lstm_decoder self) ed hn hn
              (steps - TFT.encode_length self) (TFT.batch_size self))
    as (dout & hn' & cn' & -> & Sdo & _);
    try (rewrite ?Ei2, ?Eh2, ?El2; lia);
    try (rewrite ?Ei2, ?Eh2, ?El2; exact Sed);
    try (rewrite Eh2, El2, <- Eh1, <- El1; exact Shn).
  cbn [bind].
  rewrite Eh1, <- Ehid in Seo. rewrite Eh2, <- Ehid in Sdo.
  assert (Hatt : exists output ao aw,
            attend self st eo dout = Ok (output, eo, dout, ao, aw) /\
            shape ao = [steps - TFT.encode_length self;
                        TFT.batch_size self; TFT.hidden_size self] /\
            shape aw = [TFT.batch_size self; steps; steps] /\
            shape output = [TFT.batch_size self;
                            steps - TFT.encode_length self; 1]).
  { eapply attend_weights_shape;
      [exact Hc|exact Hu|exact Hattn|exact Hsteps|exact Sst|exact Seo
      |exact Sdo]. }
  destruct Hatt as (output & ao & aw & -> & Sao & Saw & Sout).
  exists output, eo, dout, ao, aw.
  split; [reflexivity|]. split; [exact Sout|]. split; [exact Seo|].
  split; [exact Sdo|]. split; [exact Sao|exact Saw].
Qed.


(** X18: on a model built from a usable configuration and an input
    batch it accepts, with [steps] time steps, the three results of the
    forward pass that the forecast is not read from have the shapes of the
    stages that produce them: the encoder output (encode_length, batch,
    hidden), the decoder output (steps - encode_length, batch, hidden) and
    the attention weights (batch, steps, steps), one square of weights over
    all the time steps per series.  The recurrent and attention primitives
    are assumed to produce the shapes their documentation states. *)
Theorem X18_forward_shapes (cfg : TFT.config A) (self : TFT.t A LW AW)
    (x : TFT.batch A) (steps features : nat) :
  constructed cfg self -> usable cfg ->
  lstm_contract RT -> attention_contract RT ->
  valid_batch self x steps features ->
  exists output encoder_output decoder_output attn_output attn_output_weights,
    TFT.forward self x =
      Ok (output, encoder_output, decoder_output, attn_output,
          attn_output_weights) /\
    shape encoder_output = [TFT.encode_length self; TFT.batch_size self;
                            TFT.hidden_size self] /\
    shape decoder_output = [steps - TFT.encode_length self;
                            TFT.batch_size self; TFT.hidden_size self] /\
    shape attn_output_weights = [TFT.batch_size self; steps; steps].
Proof.
  intros Hc Hu Hlstm Hattn Hvalid.
  destruct (forward_result_shapes Hc Hu Hlstm Hattn Hvalid)
    as (o & eo & dout & ao & aw & E & _ & Seo & Sdo & _ & Saw).
  exists o, eo, dout, ao, aw. auto.
Qed.

(** The forecast is the output layer applied to the attended output,
    read under the shape (batch_size, -1, hidden_size). *)
Lemma forward_projection (self : TFT.t A LW AW) (x : TFT.batch A)
    (output eo dout ao aw : Tensor A) :
  TFT.forward self x = Ok (output, eo, dout, ao, aw) ->
  (projected <- view ao [Z.of_nat (TFT.batch_size self); (-1)%Z;
                         Z.of_nat (TFT.hidden_size self)] ;;
   call (TFT.output_layer self) projected) = Ok output.
Proof.
  unfold TFT.forward.
  repeat match goal with
  | |- bind ?c _ = Ok _ -> _ =>
      destruct c as [?v|] eqn:?E; cbn [bind]; [|discriminate]
  | |- (let '(_, _) := ?p in _) = Ok _ -> _ => destruct p; cbn [bind]
  end.
  intros Hres. apply Ok_inj in Hres. inversion Hres; subst.
  match goal with
  | Hv : view ao _ = Ok ?p, Hc : call (TFT.output_layer self) ?p = Ok output
    |- _ => rewrite Hv; cbn [bind]; exact Hc
  end.
Qed.

(** X19: the forecast of a batch is computed from the attended output
    by the output layer, after the attended output, of shape
    (L, batch, hidden) with [L = steps - encode_length], has been read
    under the shape (batch, L, hidden) without moving its elements.  The
    forecast at [(n, t)] is therefore the output layer applied to the
    attended vector at flat position [n * L + t], that is at step
    [(n * L + t) / batch] of series [(n * L + t) mod batch]; this is step
    [t] of series [n] when the batch holds one series. *)
Theorem X19_forecast_reads_flat_position (cfg : TFT.config A)
    (self : TFT.t A LW AW) (x : TFT.batch A) (steps features : nat) :
  constructed cfg self -> usable cfg ->
  lstm_contract RT -> attention_contract RT ->
  valid_batch self x steps features ->
  let B := TFT.batch_size self in
  let L := steps - TFT.encode_length self in
  exists output encoder_output decoder_output attn_output attn_output_weights,
    TFT.forward self x =
      Ok (output, encoder_output, decoder_output, attn_output,
          attn_output_weights) /\
    forall n t, n < B -> t < L ->
      get output [n; t; 0] =
      Linear.entry (TimeDistributed.module (TFT.output_layer self))
        attn_output [(n * L + t) / B; (n * L + t) mod B; 0] /\
      (B = 1 ->
       get output [n; t; 0] =
       Linear.entry (TimeDistributed.module (TFT.output_layer self))
         attn_output [t; n; 0]).
Proof.
  intros Hc Hu Hlstm Hattn Hvalid B L.
  destruct (forward_result_shapes Hc Hu Hlstm Hattn Hvalid)
    as (o & eo & dout & ao & aw & E & So & _ & _ & Sao & _).
  fold B L in So, Sao.
  exists o, eo, dout, ao, aw. split; [exact E|].
  pose proof (forward_projection _ _ E) as Hproj. fold B in Hproj.
  pose proof Hc as (Ebatch & _ & _ & _ & _ & Ehid & _ & _ & _ & _ & _ & _
                    & _ & _ & _ & _ & _ & _ & _ & _ & _ & _ & Hout).
  pose proof Hu as (Hb & _ & _ & _ & _ & Hh & _).
  pose proof Hvalid as (_ & Hsteps & _).
  set (h := TFT.hidden_size self) in *.
  assert (HB : 0 < B) by (unfold B; rewrite Ebatch; exact Hb).
  assert (Hhpos : 0 < h) by (rewrite Ehid; exact Hh).
  assert (HL : 0 < L) by (unfold L; lia).
  rewrite (@view_regroup_batch_first _ ao B L h) in Hproj;
    [|rewrite Sao; simpl; lia|exact HB|exact Hhpos].
  cbn [bind] in Hproj.
  destruct Hout as (_ & Hin & Hout).
  unfold call, NNModule_TimeDistributed in Hproj.
  rewrite (@TimeDistributed_Linear_pointwise _ _ (TFT.output_layer self)
             (mkTensor [B; L; h] (data ao)) B L h eq_refl HB HL Hhpos) in Hproj;
    [|rewrite Ehid; exact Hin|rewrite Hout; apply Nat.lt_0_1].
  apply Ok_inj in Hproj. subst o.
  assert (Hflat : forall n t, n < B -> t < L ->
            get (tabulate
                   [B; L; Linear.out_features
                            (TimeDistributed.module (TFT.output_layer self))]
                   (Linear.entry (TimeDistributed.module (TFT.output_layer self))
                      (mkTensor [B; L; h] (data ao)))) [n; t; 0] =
            Linear.entry (TimeDistributed.module (TFT.output_layer self))
              ao [(n * L + t) / B; (n * L + t) mod B; 0]).
  { intros n t Hn Ht.
    rewrite get_tabulate
      by (apply in_bounds_three; try assumption; rewrite Hout; apply Nat.lt_0_1).
    unfold Linear.entry, Linear.dot. cbn [removelast last app].
    f_equal. f_equal. apply map_ext. intros k. f_equal.
    unfold get. rewrite Sao. cbn [shape data ravel numel fold_right].
    f_equal.
    pose proof (Nat.div_mod_eq (n * L + t) B) as Hdm.
    set (p := (n * L + t) / B) in *. set (q := (n * L + t) mod B) in *.
    replace (n * (L * (h * 1)) + (t * (h * 1) + (k * 1 + 0)))
      with ((n * L + t) * h + k) by ring.
    rewrite Hdm. ring. }
  intros n t Hn Ht. split; [apply Hflat; assumption|].
  intros HB1. rewrite Hflat by assumption. rewrite HB1 in *.
  assert (n = 0) by lia. subst n.
  rewrite Nat.mul_0_l, Nat.add_0_l, Nat.div_1_r, Nat.mod_1_r. reflexivity.
Qed.

End ResultShapes.

Lemma X18_forward_shapes_witness :
  exists output encoder_output decoder_output attn_output attn_output_weights,
    TFT.forward (RT := shape_runtime) (toy_model IZR (1 / 100000)%R 1 5)
      (toy_batch 2%R) =
      Ok (output, encoder_output, decoder_output, attn_output,
          attn_output_weights) /\
    shape encoder_output = [5; 1; 1] /\
    shape decoder_output = [8 - 5; 1; 1] /\
    shape attn_output_weights = [1; 8; 8].
Proof.
  exact (X18_forward_shapes (RT := shape_runtime)
           toy_model_constructed toy_config_usable
           shape_runtime_lstm_contract shape_runtime_attention_contract
           (toy_batch_valid 2%R)).
Defined.

Lemma X19_forecast_reads_flat_position_witness :
  let self := toy_model IZR (1 / 100000)%R 1 5 in
  exists output encoder_output decoder_output attn_output attn_output_weights,
    TFT.forward (RT := shape_runtime) self (toy_batch 2%R) =
      Ok (output, encoder_output, decoder_output, attn_output,
          attn_output_weights) /\
    forall n t, n < 1 -> t < 8 - 5 ->
      get output [n; t; 0] =
      Linear.entry (TimeDistributed.module (TFT.output_layer self))
        attn_output [(n * (8 - 5) + t) / 1; (n * (8 - 5) + t) mod 1; 0] /\
      (1 = 1 ->
       get output [n; t; 0] =
       Linear.entry (TimeDistributed.module (TFT.output_layer self))
         attn_output [t; n; 0]).
Proof.
  exact (X19_forecast_reads_flat_position (RT := shape_runtime)
           toy_model_constructed toy_config_usable
           shape_runtime_lstm_contract shape_runtime_attention_contract
           (toy_batch_valid 2%R)).
Defined.

(** ** The outcomes of the quantile loss *)

Section QuantileLossOutcomes.
Context {A : Type} {S : Scalar A}.

(** X20: the outcome of the quantile loss on every input.  The quantile
    is checked first: outside [0, 1] the call raises [ValueError], whatever
    the shapes of the two tensors.  Otherwise the subtraction comes next and
    raises [RuntimeError] when the two shapes cannot be broadcast; when they
    can, the call stops with [TypeError] at [torch.max(..., 0.)].  No input
    makes the function return. *)
Theorem X20_quantile_loss_outcomes (y y_pred : Tensor A) (quantile : A) :
  pytorch_quantile_loss y y_pred quantile =
    (if fltb quantile fzero || fltb fone quantile then Raise ValueError
     else match broadcast_shapes (shape y) (shape y_pred) with
          | Ok _ => Raise TypeError
          | Raise _ => Raise RuntimeError
          end) /\
  forall loss, pytorch_quantile_loss y y_pred quantile <> Ok loss.
Proof.
  split.
  - unfold pytorch_quantile_loss.
    destruct (fltb quantile fzero || fltb fone quantile); [reflexivity|].
    destruct (tsub y y_pred) as [u|e] eqn:Eu.
    + unfold tsub, broadcast2 in Eu.
      destruct (broadcast_shapes (shape y) (shape y_pred));
        [reflexivity|discriminate].
    + pose proof (broadcast2_raises _ _ _ Eu) as ->.
      unfold tsub, broadcast2 in Eu.
      destruct (broadcast_shapes (shape y) (shape y_pred));
        [discriminate|reflexivity].
  - apply pytorch_quantile_loss_never_returns.
Qed.

End QuantileLossOutcomes.

(** ** Batches without the columns the model reads *)

Lemma for_each_never_ok {X Y : Type} (body : X -> result Y) (l : list X)
    (x0 : X) :
  In x0 l -> (forall y, body x0 <> Ok y) ->
  forall ys, for_each body l <> Ok ys.
Proof.
  induction l as [|x l IH]; intros Hin Hx0 ys; [contradiction|].
  cbn [for_each].
  destruct (body x) as [y|] eqn:Ey; cbn [bind]; [|discriminate].
  destruct Hin as [->|Hin]; [exfalso; exact (Hx0 y Ey)|].
  destruct (for_each body l) as [ys'|] eqn:El; cbn [bind]; [|discriminate].
  exfalso. exact (IH Hin Hx0 ys' eq_refl).
Qed.

Section MissingColumns.
Context {A : Type} {S : Scalar A}.
Context {LW AW : Type}.

Lemma apply_embedding_missing_column (self : TFT.t A LW AW)
    (w static_embedding : Tensor A) (b tw f : nat) :
  shape w = [b; tw; f] ->
  f < TFT.time_varying_real_variables self
      + TFT.time_varying_categoical_variables self ->
  forall r, TFT.apply_embedding self w static_embedding <> Ok r.
Proof.
  intros Hw Hf. unfold TFT.apply_embedding.
  destruct (Nat.ltb_spec f (TFT.time_varying_real_variables self))
    as [Hreal|Hreal].
  - apply bind_never_ok. intros reals Hreals. exfalso.
    refine (@for_each_never_ok _ _ _ _ f _ _ reals Hreals).
    + apply in_seq. lia.
    + intros y.
      destruct (list_item (TFT.time_varying_linear_layers self) f);
        cbn [bind]; [|discriminate].
      rewrite (getitem_column_missing w Hw (le_n f)). discriminate.
  - apply bind_never_ok. intros reals _.
    apply bind_never_ok. intros real_embedding _.
    apply bind_never_ok. intros cats Hcats. exfalso.
    refine (@for_each_never_ok _ _ _ _
              (f - TFT.time_varying_real_variables self) _ _ cats Hcats).
    + apply in_seq. lia.
    + intros y.
      destruct (list_item (TFT.time_varying_embedding_layers self) _);
        cbn [bind]; [|discriminate].
      replace (TFT.time_varying_real_variables self
               + (f - TFT.time_varying_real_variables self)) with f by lia.
      rewrite (getitem_column_missing w Hw (le_n f)). discriminate.
Qed.

Context {An : Analytic A} {RT : Runtime A LW AW}.

(** X21: the forward pass looks up one feature column of [inputs] per
    time-varying variable and, at time index 0, one feature column of
    [identifier] per static variable.  When [inputs] has fewer feature
    columns than there are time-varying variables, when [identifier] has
    fewer than there are static variables, or when [identifier] has no
    time step at all, the call returns for no such batch. *)
Theorem X21_forward_needs_every_column (self : TFT.t A LW AW)
    (x : TFT.batch A) (b steps features b' id_steps statics : nat) :
  shape (TFT.inputs x) = [b; steps; features] ->
  shape (TFT.identifier x) = [b'; id_steps; statics] ->
  features < TFT.time_varying_real_variables self
             + TFT.time_varying_categoical_variables self \/
  statics < TFT.static_variables self \/ id_steps = 0 ->
  forall r, TFT.forward self x <> Ok r.
Proof.
  intros Hin Hid Hmissing. unfold TFT.forward.
  destruct Hmissing as [Hf|Hs].
  - apply bind_never_ok. intros vectors _.
    apply bind_never_ok. intros static_embedding _.
    rewrite (getitem_steps_upto_clamped _ (TFT.encode_length self) Hin).
    cbn [bind]. unfold float.
    apply bind_never_ok. intros embeddings_encoder Hee. exfalso.
    refine (@apply_embedding_missing_column self _ static_embedding
              b _ features _ Hf _ Hee).
    reflexivity.
  - destruct (Nat.eq_dec (TFT.static_variables self) 0) as [E0|E0].
    { intros r. rewrite E0. cbn [seq for_each bind cat]. discriminate. }
    apply bind_never_ok. intros vectors Hvectors. exfalso.
    assert (Hcol : exists i, i < TFT.static_variables self /\
                     (0 <? id_steps) && (i <? statics) = false).
    { destruct Hs as [Hs| ->].
      - exists statics. split; [exact Hs|].
        rewrite Nat.ltb_irrefl. apply andb_false_r.
      - exists 0. split; [lia|]. reflexivity. }
    destruct Hcol as (i & Hi & Hfalse).
    refine (@for_each_never_ok _ _ _ _ i _ _ vectors Hvectors).
    + apply in_seq. lia.
    + intros y.
      destruct (list_item (TFT.static_embedding_layers self) i);
        cbn [bind]; [|discriminate].
      rewrite (getitem_first_step _ i Hid), Hfalse. discriminate.
Qed.

End MissingColumns.

Lemma X21_forward_needs_every_column_witness :
  ~ exists r,
      TFT.forward (RT := shape_runtime) (toy_model IZR (1 / 100000)%R 1 5)
        narrow_batch = Ok r.
Proof.
  intros [r Hr]. revert Hr.
  apply (@X21_forward_needs_every_column R _ unit unit _ shape_runtime
           (toy_model IZR (1 / 100000)%R 1 5) narrow_batch
           1 8 1 1 8 1 eq_refl eq_refl).
  left. apply le_n.
Defined.

(** ** The gated residual network, position by position *)

Section NetworkPositions.
Context {A : Type} {S : Scalar A} {An : Analytic A}.

Lemma Linear_entry_at (l : Linear.t A) (x : Tensor A) (i t o : nat) :
  Linear.entry l x [i; t; o] = linear_at l (fun k => get x [i; t; k]) o.
Proof. reflexivity. Qed.

Lemma linear_at_ext (l : Linear.t A) (v v' : nat -> A) (o : nat) :
  (forall k, k < Linear.in_features l -> v k = v' k) ->
  linear_at l v o = linear_at l v' o.
Proof.
  intros Hv. unfold linear_at. f_equal. f_equal.
  apply map_ext_in. intros k Hk. apply in_seq in Hk. rewrite Hv by lia.
  reflexivity.
Qed.

Lemma in_bounds_three_inv (a b c : nat) (idx : list nat) :
  in_bounds [a; b; c] idx = true ->
  exists i t k, idx = [i; t; k] /\ i < a /\ t < b /\ k < c.
Proof.
  intros Hb. pose proof (in_bounds_length _ _ Hb) as Hlen.
  destruct idx as [|i [|t [|k [|? ?]]]]; try discriminate.
  exists i, t, k. cbn [in_bounds] in Hb.
  apply andb_prop in Hb. destruct Hb as [Hi Hb].
  apply andb_prop in Hb. destruct Hb as [Ht Hb].
  apply andb_prop in Hb. destruct Hb as [Hk _].
  apply Nat.ltb_lt in Hi, Ht, Hk. auto.
Qed.

Lemma TimeDistributed_Linear_at (self : TimeDistributed.t (Linear.t A))
    (x : Tensor A) (a0 a1 f : nat) :
  shape x = [a0; a1; f] -> 0 < a0 -> 0 < a1 -> 0 < f ->
  Linear.in_features (TimeDistributed.module self) = f ->
  0 < Linear.out_features (TimeDistributed.module self) ->
  TimeDistributed.forward self x =
  Ok (tabulate [a0; a1; Linear.out_features (TimeDistributed.module self)]
        (fun idx =>
           linear_at (TimeDistributed.module self)
             (fun k => get x [nth 0 idx 0; nth 1 idx 0; k]) (nth 2 idx 0))).
Proof.
  intros Hs Ha0 Ha1 Hf Hin Hout.
  rewrite (@TimeDistributed_Linear_pointwise _ _ self x a0 a1 f
             Hs Ha0 Ha1 Hf Hin Hout).
  apply f_equal. apply tabulate_ext. intros idx Hb.
  destruct (in_bounds_three_inv _ _ _ _ Hb) as (i & t & k & -> & _).
  apply Linear_entry_at.
Qed.

Lemma TimeDistributed_GLU_at (self : TimeDistributed.t (GLU.t A))
    (x : Tensor A) (a0 a1 h : nat) :
  shape x = [a0; a1; h] -> 0 < a0 -> 0 < a1 -> 0 < h ->
  Linear.in_features (GLU.fc1 (TimeDistributed.module self)) = h ->
  Linear.out_features (GLU.fc1 (TimeDistributed.module self)) = h ->
  Linear.in_features (GLU.fc2 (TimeDistributed.module self)) = h ->
  Linear.out_features (GLU.fc2 (TimeDistributed.module self)) = h ->
  TimeDistributed.forward self x =
  Ok (tabulate [a0; a1; h] (fun idx =>
        let v := fun k => get x [nth 0 idx 0; nth 1 idx 0; k] in
        fmul (Sigmoid.sigmoid
                (linear_at (GLU.fc1 (TimeDistributed.module self)) v
                   (nth 2 idx 0)))
             (linear_at (GLU.fc2 (TimeDistributed.module self)) v
                (nth 2 idx 0)))).
Proof.
  intros Hs Ha0 Ha1 Hh Hi1 Ho1 Hi2 Ho2.
  set (glu := TimeDistributed.module self) in *.
  set (flat := mkTensor [a0 * a1; h] (data x)).
  assert (Hglu : call glu flat =
            Ok (tabulate [a0 * a1; h] (fun idx =>
                  fmul (get (tabulate [a0 * a1; h] (fun idx =>
                               Sigmoid.sigmoid (Linear.entry (GLU.fc1 glu) flat idx)))
                            idx)
                       (get (tabulate [a0 * a1; h]
                               (Linear.entry (GLU.fc2 glu) flat)) idx)))).
  { unfold call, NNModule_GLU, GLU.forward, call, NNModule_Linear.
    rewrite !(@Linear_forward_rank2 _ _ _ flat (a0 * a1) h eq_refl).
    rewrite Hi1, Hi2, Ho1, Ho2, Nat.eqb_refl. cbn [bind].
    unfold Sigmoid.forward. rewrite tmap_tabulate.
    unfold tmul. rewrite broadcast2_same by reflexivity. reflexivity. }
  apply (@TimeDistributed_pointwise _ _ _ _ self x a0 a1 h h [a0 * a1; h] _ _
           Hs Ha0 Ha1 Hh Hh Hglu).
  - reflexivity.
  - simpl. lia.
  - intros k Hk.
    rewrite !get_tabulate by (apply unravel_in_bounds; simpl; lia).
    unfold flat.
    rewrite !(@Linear_entry_flatten _ _ _ x a0 a1 h h k Hs Ha1 Hh).
    rewrite unravel_rank3. reflexivity.
Qed.

(** What follows the first layer and the context, from the array [s1]
    they produce. *)
Lemma grn_tail (grn : GatedResidualNetwork.t A) (hc : option nat)
    (x : Tensor A) (P : list nat -> A) (a0 a1 h : nat) :
  grn_constructed h h hc grn ->
  shape x = [a0; a1; h] -> 0 < a0 -> 0 < a1 -> 0 < h ->
  (let x2 := ELU.forward (GatedResidualNetwork.elu1 grn)
               (tabulate [a0; a1; h] P) in
   x3 <- call (GatedResidualNetwork.fc2 grn) x2 ;;
   let x4 := Dropout.forward (GatedResidualNetwork.dropout grn) x3 in
   x5 <- call (GatedResidualNetwork.gate grn) x4 ;;
   x6 <- tadd x5 x ;;
   call (GatedResidualNetwork.bn grn) x6) =
  Ok (tabulate [a0; a1; h] (fun idx =>
        let i := nth 0 idx 0 in
        let t := nth 1 idx 0 in
        let c := nth 2 idx 0 in
        let hidden k := ELU.elu (GatedResidualNetwork.elu1 grn) (P [i; t; k]) in
        let second k :=
          linear_at (TimeDistributed.module (GatedResidualNetwork.fc2 grn))
            hidden k in
        let glu := TimeDistributed.module (GatedResidualNetwork.gate grn) in
        BatchNorm1d.normalize
          (TimeDistributed.module (GatedResidualNetwork.bn grn)) c
          (fadd (fmul (Sigmoid.sigmoid (linear_at (GLU.fc1 glu) second c))
                      (linear_at (GLU.fc2 glu) second c))
                (get x [i; t; c])))).
Proof.
  intros (_ & _ & _ & _ & _ & (_ & Hi2 & Ho2) & _ & Hbn & _
          & Hg1 & Hg2 & Hg3 & Hg4) Hx Ha0 Ha1 Hh.
  cbv zeta. unfold ELU.forward. rewrite tmap_tabulate.
  unfold call at 1, NNModule_TimeDistributed.
  rewrite (@TimeDistributed_Linear_at (GatedResidualNetwork.fc2 grn)
             (tabulate [a0; a1; h] _) a0 a1 h eq_refl Ha0 Ha1 Hh Hi2)
    by (rewrite Ho2; exact Hh).
  rewrite Ho2. cbn [bind]. unfold Dropout.forward.
  unfold call at 1, NNModule_TimeDistributed.
  rewrite (@TimeDistributed_GLU_at (GatedResidualNetwork.gate grn)
             (tabulate [a0; a1; h] _) a0 a1 h eq_refl Ha0 Ha1 Hh
             Hg1 Hg2 Hg3 Hg4).
  cbn [bind]. unfold tadd.
  rewrite broadcast2_same by (rewrite Hx; reflexivity).
  cbn [bind shape tabulate].
  unfold call, NNModule_TimeDistributed.
  rewrite (@TimeDistributed_BatchNorm1d_pointwise _ _ _
             (GatedResidualNetwork.bn grn) (tabulate [a0; a1; h] _)
             a0 a1 h eq_refl Ha0 Ha1 Hh Hbn).
  apply f_equal. apply tabulate_ext. intros idx Hb.
  destruct (in_bounds_three_inv _ _ _ _ Hb) as (i & t & c & -> & Hi & Ht & Hc).
  cbn [nth]. rewrite !get_tabulate by exact Hb. cbn [nth].
  assert (Hsecond : forall k, k < h ->
            get (tabulate [a0; a1; h] (fun idx =>
                   linear_at
                     (TimeDistributed.module (GatedResidualNetwork.fc2 grn))
                     (fun k0 =>
                        get (tabulate [a0; a1; h] (fun idx0 =>
                               ELU.elu (GatedResidualNetwork.elu1 grn) (P idx0)))
                            [nth 0 idx 0; nth 1 idx 0; k0])
                     (nth 2 idx 0))) [i; t; k] =
            linear_at (TimeDistributed.module (GatedResidualNetwork.fc2 grn))
              (fun k0 => ELU.elu (GatedResidualNetwork.elu1 grn) (P [i; t; k0]))
              k).
  { intros k Hk.
    rewrite get_tabulate by (apply in_bounds_three; assumption).
    cbn [nth]. apply linear_at_ext. intros j Hj. rewrite Hi2 in Hj.
    rewrite get_tabulate by (apply in_bounds_three; assumption).
    reflexivity. }
  f_equal. f_equal. f_equal.
  - f_equal. apply linear_at_ext. intros k Hk. rewrite Hg1 in Hk.
    apply Hsecond. exact Hk.
  - apply linear_at_ext. intros k Hk. rewrite Hg3 in Hk.
    apply Hsecond. exact Hk.
Qed.

(** X22: the network acts on every position of its input separately.
    On an input of shape (a0, a1, h) with no empty axis and, when a context
    is given, a context of shape (a0, a1, c), a network built with equal
    input and output sizes [h] returns the array whose entry [(i, t, c)] is
    channel [c] of the network applied to the input vector at [(i, t)] and
    the context vector at [(i, t)]: first linear layer plus context layer,
    activation, second linear layer, gate, residual connection and
    normalisation of channel [c] with the running statistics. *)
Theorem X22_grn_position_wise (grn : GatedResidualNetwork.t A)
    (hc : option nat) (h : nat) (x : Tensor A)
    (context_arg : option (Tensor A)) (a0 a1 : nat) :
  grn_constructed h h hc grn ->
  shape x = [a0; a1; h] -> 0 < a0 -> 0 < a1 -> 0 < h ->
  match context_arg with
  | None => True
  | Some ctx => exists c, hc = Some c /\ 0 < c /\ shape ctx = [a0; a1; c]
  end ->
  GatedResidualNetwork.forward grn x context_arg =
  Ok (tabulate [a0; a1; h] (fun idx =>
        grn_at grn
          (fun k => get x [nth 0 idx 0; nth 1 idx 0; k])
          (option_map
             (fun ctx k => get ctx [nth 0 idx 0; nth 1 idx 0; k])
             context_arg)
          (nth 2 idx 0))).
Proof.
  intros Hgrn Hx Ha0 Ha1 Hh Hctx.
  pose proof Hgrn as (_ & _ & _ & (_ & Hi1 & Ho1) & Hlayer & _).
  unfold GatedResidualNetwork.forward.
  unfold call at 1, NNModule_TimeDistributed.
  rewrite (@TimeDistributed_Linear_at (GatedResidualNetwork.fc1 grn)
             x a0 a1 h Hx Ha0 Ha1 Hh Hi1) by (rewrite Ho1; exact Hh).
  rewrite Ho1. cbn [bind].
  destruct context_arg as [ctx|].
  - destruct Hctx as (c & -> & Hc & Sctx).
    destruct (GatedResidualNetwork.context grn) as [layer|] eqn:Elayer;
      [|contradiction].
    destruct Hlayer as (_ & Hic & Hoc).
    unfold call at 1, NNModule_TimeDistributed.
    rewrite (@TimeDistributed_Linear_at layer ctx a0 a1 c Sctx Ha0 Ha1 Hc Hic)
      by (rewrite Hoc; exact Hh).
    rewrite Hoc. cbn [bind]. unfold tadd.
    rewrite broadcast2_same by reflexivity.
    cbn [bind shape tabulate].
    rewrite (@grn_tail grn (Some c) x _ a0 a1 h Hgrn Hx Ha0 Ha1 Hh).
    apply f_equal. apply tabulate_ext. intros idx Hb.
    destruct (in_bounds_three_inv _ _ _ _ Hb)
      as (i & t & k & -> & Hi & Ht & Hk).
    cbn [nth option_map]. unfold grn_at. rewrite Elayer. cbv zeta.
    pose proof Hgrn as (_ & _ & _ & _ & _ & (_ & Hi2 & _) & _ & _ & _
                        & Hg1 & _ & Hg3 & _).
    assert (Hhidden : forall j, j < h ->
              ELU.elu (GatedResidualNetwork.elu1 grn)
                (fadd
                   (get (tabulate [a0; a1; h] (fun idx =>
                      linear_at
                        (TimeDistributed.module (GatedResidualNetwork.fc1 grn))
                        (fun k0 => get x [nth 0 idx 0; nth 1 idx 0; k0])
                        (nth 2 idx 0))) [i; t; j])
                   (get (tabulate [a0; a1; h] (fun idx =>
                      linear_at (TimeDistributed.module layer)
                        (fun k0 => get ctx [nth 0 idx 0; nth 1 idx 0; k0])
                        (nth 2 idx 0))) [i; t; j])) =
              ELU.elu (GatedResidualNetwork.elu1 grn)
                (fadd
                   (linear_at
                      (TimeDistributed.module (GatedResidualNetwork.fc1 grn))
                      (fun k0 => get x [i; t; k0]) j)
                   (linear_at (TimeDistributed.module layer)
                      (fun k0 => get ctx [i; t; k0]) j))).
    { intros j Hj.
      rewrite !get_tabulate by (apply in_bounds_three; assumption).
      reflexivity. }
    f_equal. f_equal. f_equal.
    + f_equal. apply linear_at_ext. intros k1 Hk1. rewrite Hg1 in Hk1.
      apply linear_at_ext. intros j Hj. rewrite Hi2 in Hj.
      apply Hhidden. exact Hj.
    + apply linear_at_ext. intros k1 Hk1. rewrite Hg3 in Hk1.
      apply linear_at_ext. intros j Hj. rewrite Hi2 in Hj.
      apply Hhidden. exact Hj.
  - cbn [bind].
    rewrite (@grn_tail grn hc x _ a0 a1 h Hgrn Hx Ha0 Ha1 Hh).
    apply f_equal. apply tabulate_ext. intros idx Hb.
    destruct (in_bounds_three_inv _ _ _ _ Hb)
      as (i & t & k & -> & Hi & Ht & Hk).
    cbn [nth option_map]. unfold grn_at.
    destruct (GatedResidualNetwork.context grn); reflexivity.
Qed.

(** X23: the second activation, [elu2], is built by the constructor and
    never applied: the forward pass goes from the second linear layer to
    the dropout and the gate.  Replacing it by any other leaves the result
    of every call unchanged. *)
Theorem X23_grn_elu2_unused (grn : GatedResidualNetwork.t A) (e : ELU.t A)
    (x : Tensor A) (context_arg : option (Tensor A)) :
  GatedResidualNetwork.forward (with_elu2 grn e) x context_arg =
  GatedResidualNetwork.forward grn x context_arg.
Proof. destruct grn. reflexivity. Qed.

End NetworkPositions.

Lemma toy_enrichment_constructed :
  grn_constructed 1 1 (Some 1) (toy_enrichment IZR (1 / 100000)%R).
Proof.
  unfold grn_constructed, is_linear. cbn -[IZR Rdiv].
  repeat split; reflexivity.
Qed.

Lemma X22_grn_position_wise_witness :
  let grn := toy_enrichment IZR (1 / 100000)%R in
  let x := mkTensor [1; 2; 1] [1; 2]%R in
  let ctx := mkTensor [1; 2; 1] [3; 4]%R in
  GatedResidualNetwork.forward grn x (Some ctx) =
  Ok (tabulate [1; 2; 1] (fun idx =>
        grn_at grn
          (fun k => get x [nth 0 idx 0; nth 1 idx 0; k])
          (option_map
             (fun ctx k => get ctx [nth 0 idx 0; nth 1 idx 0; k])
             (Some ctx))
          (nth 2 idx 0))).
Proof.
  intros grn x ctx.
  apply (@X22_grn_position_wise R _ _ grn (Some 1) 1 x (Some ctx) 1 2
           toy_enrichment_constructed eq_refl).
  - apply Nat.lt_0_succ.
  - apply Nat.lt_0_succ.
  - apply Nat.lt_0_succ.
  - exists 1. split; [reflexivity|]. split; [apply Nat.lt_0_succ|reflexivity].
Defined.

(** ** How the attention primitive is called *)

Section AttentionCall.
Context {A : Type} {S : Scalar A} {An : Analytic A}.
Context {LW AW : Type}.

(** X24: the forward pass calls the attention primitive in one way
    only: on the module's own attention layer, with the same tensor as
    query and as key, and with the mask that
    [_generate_square_subsequent_mask] returns for the length of the query.
    An attention primitive that agrees with the runtime's on such calls
    gives the same forward pass, whatever it does on the others. *)
Theorem X24_attention_called_on_itself (RT : Runtime A LW AW)
    (f : MultiheadAttention.t AW ->
         Tensor A -> Tensor A -> Tensor A -> Tensor (extended A) ->
         result (Tensor A * Tensor A))
    (self : TFT.t A LW AW) (x : TFT.batch A) :
  (forall q v mask sz,
     size q 0 = Ok sz ->
     TFT._generate_square_subsequent_mask self sz = Ok mask ->
     f (TFT.multihead_attn self) q q v mask =
     attention_forward (TFT.multihead_attn self) q q v mask) ->
  TFT.forward (RT := with_attention RT f) self x = TFT.forward (RT := RT) self x.
Proof.
  intros Hf. rewrite !forward_stages.
  apply bind_ext. intros [[static_embedding ee] ed].
  change (@lstm_forward A LW AW (with_attention RT f))
    with (@lstm_forward A LW AW RT).
  apply bind_ext. intros [eo [hidden cell]].
  apply bind_ext. intros [dout state].
  unfold attend.
  apply bind_ext. intros lstm_output.
  apply bind_ext. intros n0.
  apply bind_ext. intros repeated.
  apply bind_ext. intros n0'.
  apply bind_ext. intros n1.
  apply bind_ext. intros context.
  apply bind_ext. intros attn_input.
  destruct (size attn_input 0) as [sz|] eqn:Esz; cbn [bind]; [|reflexivity].
  destruct (TFT._generate_square_subsequent_mask self sz) as [mask|] eqn:Emask;
    cbn [bind]; [|reflexivity].
  change (@attention_forward A LW AW (with_attention RT f)) with f.
  rewrite (Hf attn_input lstm_output mask sz Esz Emask). reflexivity.
Qed.

End AttentionCall.

Lemma X24_attention_called_on_itself_witness :
  let self := toy_model IZR (1 / 100000)%R 1 5 in
  let f := fun (m : MultiheadAttention.t unit) (q k v : Tensor R)
               (mask : Tensor (extended R)) =>
             if list_eqb (shape q) (shape k)
             then shape_attention m q k v mask
             else Raise RuntimeError in
  TFT.forward (RT := with_attention shape_runtime f) self (toy_batch 2%R) =
  TFT.forward (RT := shape_runtime) self (toy_batch 2%R).
Proof.
  intros self f.
  apply (@X24_attention_called_on_itself R _ _ unit unit shape_runtime f
           self (toy_batch 2%R)).
  intros q v mask sz _ _. unfold f. rewrite list_eqb_refl. reflexivity.
Defined.
